(** * P2P Sync Player: playback synchronisation protocol of [src/App.tsx]

    A shallow embedding of the [App] component: its refs and the one piece
    of React state the handlers read become the fields of [AppState], every
    handler becomes a function from a state to a new state and the list of
    effects it performs on the outside world (console, data connection,
    media element, PeerJS), and the browser's timers become an explicit
    event loop with a millisecond clock.

    Numbers are binary64 values, a received payload is null, undefined or
    the record of the two properties the handler reads, log lines are kept
    as the pieces of their template literals, and React's commit of a view
    is the mounting and unmounting of the two [<video>] elements. An
    exception that nothing catches ends the listener it is thrown in: it is
    the effect [Uncaught], and what would have followed does not run.

    The SDP rewriting of [getCallOptions] is a function on strings of its
    own. Not modelled: the clipboard and full-screen buttons and the
    [onloadedmetadata] status line; none of them reads or writes the state
    the protocol uses. *)

From Stdlib Require Import ZArith List String Ascii Bool Lia PeanoNat SpecFloat.
Import ListNotations.
Open Scope string_scope.
Open Scope list_scope.

(** ** JavaScript numbers

    A JS number is an IEEE 754 binary64 value: [spec_float] at precision 53
    and maximal exponent 1024, with the Standard Library's correctly rounded
    operations. *)

Definition number : Type := spec_float.

Definition js_prec : Z := 53.
Definition js_emax : Z := 1024.

Definition NaN : number := S754_nan.

(** The number denoted by an integer literal, and by the decimal literal
    [p/q] when both are small integers (one correctly rounded division). *)
Definition of_Z (z : Z) : number := binary_normalize js_prec js_emax z 0 false.
Definition ratio (p q : Z) : number := SFdiv js_prec js_emax (of_Z p) (of_Z q).

Definition js_sub (x y : number) : number := SFsub js_prec js_emax x y.
Definition Math_abs (x : number) : number := SFabs x.
(** [x > y]; false as soon as one side is NaN. *)
Definition js_gt (x y : number) : bool := SFltb y x.
Definition js_lt (x y : number) : bool := SFltb x y.
Definition js_le (x y : number) : bool := SFleb x y.
Definition js_eq (x y : number) : bool := SFeqb x y.

(** [Number.isFinite]: neither NaN nor an infinity. *)
Definition js_isFinite (n : number) : bool :=
  match n with
  | S754_zero _ | S754_finite _ _ _ => true
  | _ => false
  end.

(** The two literals of [handleSyncCommand]: [0.5] and [1]. *)
Definition half : number := Eval vm_compute in ratio 1 2.
Definition one : number := Eval vm_compute in of_Z 1.
Definition zero : number := S754_zero false.

(** ** JavaScript values on the wire

    [conn.on('data', (data: any) => ...)] receives whatever the peer sent.
    The handler only reads the properties [type] and [timestamp]: reading
    them throws on [null] and on [undefined], and on any other value gives
    two values; the model covers payloads whose two properties are
    primitives or missing (a missing property reads as [undefined], as do
    both properties of a number, a string or a boolean). *)

Inductive JsValue : Type :=
| JsUndefined
| JsNull
| JsBoolean (b : bool)
| JsNumber (n : number)
| JsString (s : string).

(** [v === s] for a string literal [s]. *)
Definition strict_eq_string (v : JsValue) (s : string) : bool :=
  match v with
  | JsString s' => String.eqb s' s
  | _ => false
  end.

Inductive CommandType : Set := PLAY | PAUSE | SEEK | HEARTBEAT.

Definition type_name (t : CommandType) : string :=
  match t with
  | PLAY => "PLAY"
  | PAUSE => "PAUSE"
  | SEEK => "SEEK"
  | HEARTBEAT => "HEARTBEAT"
  end.

(** [interface SyncCommand]. *)
Record SyncCommand : Type := { type : CommandType; timestamp : number }.

(** What arrives: an object read through [.type] and [.timestamp]. The cast
    [data as SyncCommand] is erased by the compiler, so [handleSyncCommand]
    runs on this. *)
Record Data : Type := { data_type : JsValue; data_timestamp : JsValue }.

(** The object a well-typed command is on the wire. *)
Definition wire (c : SyncCommand) : Data :=
  {| data_type := JsString (type_name (type c));
     data_timestamp := JsNumber (timestamp c) |}.

(** The argument [data] of the listener. *)
Inductive Payload : Type :=
| Nullish             (* [null] or [undefined] *)
| Props (d : Data).   (* any other value, through its two properties *)

(** ** Log lines

    Template literals are kept as their pieces, so that no number has to be
    printed: [`Drift: ${drift.toFixed(2)}s`] is
    [[Str "Drift: "; Fixed2 drift; Str "s"]]. *)

Inductive Piece : Type :=
| Str (s : string)
| Val (v : JsValue)       (* `${v}` *)
| Fixed2 (x : number)     (* `${x.toFixed(2)}` *)
| Count (n : nat).        (* `${xs.length}` *)

Definition Msg : Type := list Piece.

(** ** The objects the component holds *)

Inductive View : Set := LANDING | HOST | CLIENT.

(** An [HTMLVideoElement], as far as the component uses it. [currentTime]
    is an attribute of type [double]: assigning a number that is not
    finite throws a [TypeError] and stores nothing, and assigning a finite
    one is modelled as a store of that number; what the media engine then
    does with it (clamping to the seekable range) is the engine's. *)
Record Video : Type := {
  currentTime : number;
  src : option string;
  srcObject : option nat
}.

Definition fresh_video : Video :=
  {| currentTime := zero; src := None; srcObject := None |}.

(** The two [<video>] elements: [videoRef] and [remoteVideoRef]. *)
Inductive VideoSlot : Set := HostVideo | RemoteVideo.

(** A PeerJS [DataConnection]. [conn_id] is the identity of the object. *)
Record DataConnection : Type := {
  conn_id : nat;
  peer : string;
  label : string;
  open : bool
}.

Inductive Peer : Set := PeerJS.

Record File : Type := { file_type : string; file_name : string; file_url : string }.

Record Track : Type := { track_label : string; track_readyState : string }.

(** ** Timers

    [window.setInterval] and [window.setTimeout] share one table of active
    timers and one supply of handles, which are greater than zero (so a
    stored handle is always truthy). The component only ever schedules two
    callbacks. *)

Inductive Callback : Set :=
| HeartbeatTick      (* the arrow function of [startHeartbeat] *)
| ResetRemoteOp.     (* [() => { isRemoteOp.current = false; }] *)

Record Timer : Type := {
  tid : positive;
  due : nat;                (* clock value, in ms, of the next firing *)
  period : option nat;      (* [Some p]: an interval of [p] ms *)
  callback : Callback
}.

(** ** Listeners registered on a data connection *)

Inductive Listener : Set :=
| DataConnListeners   (* the four handlers of [setupDataConnection] *)
| HostOpenListener    (* [conn.on('open')] inside [peer.on('connection')] *)
| ClientOpenListener. (* [conn.on('open')] inside [connectToHost] *)

(** ** Effects on the outside world *)

Inductive PlayerCall : Type :=
| CallPlay
| CallPause
| AssignCurrentTime (v : JsValue)
| AssignSrc (url : string)
| AssignSrcObject (stream : nat).

Inductive Effect : Type :=
| Log (m : Msg)                              (* [addLog] *)
| SetStatus (m : Msg)
| SetMyId (id : string)
| SetIsHost (b : bool)
| Alert (s : string)
| Send (conn : nat) (c : SyncCommand)        (* [conn.send] *)
| Player (slot : VideoSlot) (c : PlayerCall)
| PeerConnect (remote : string)
| PeerCall (remote : string) (stream : nat)
| CallAnswer
| PeerDestroy
| Uncaught (error : string).                 (* an exception leaves the listener *)

(** ** State of the component *)

Record AppState : Type := {
  view : View;
  remoteId : string;
  isHostRef : bool;
  videoRef : option Video;
  remoteVideoRef : option Video;
  peerRef : option Peer;
  dataConnRef : option DataConnection;
  isRemoteOp : bool;
  heartbeatInterval : option positive;
  cancelled : bool;
  listeners : list (nat * Listener);
  clock : nat;
  timers : list Timer;
  next_timer : positive
}.

Definition initial : AppState :=
  {| view := LANDING; remoteId := EmptyString; isHostRef := false;
     videoRef := None; remoteVideoRef := None; peerRef := None;
     dataConnRef := None; isRemoteOp := false; heartbeatInterval := None;
     cancelled := false; listeners := []; clock := 0; timers := [];
     next_timer := 1%positive |}.

Definition set_view (x : View) (s : AppState) : AppState :=
  Build_AppState x (remoteId s) (isHostRef s) (videoRef s) (remoteVideoRef s) (peerRef s) (dataConnRef s) (isRemoteOp s) (heartbeatInterval s) (cancelled s) (listeners s) (clock s) (timers s) (next_timer s).
Definition set_remoteId (x : string) (s : AppState) : AppState :=
  Build_AppState (view s) x (isHostRef s) (videoRef s) (remoteVideoRef s) (peerRef s) (dataConnRef s) (isRemoteOp s) (heartbeatInterval s) (cancelled s) (listeners s) (clock s) (timers s) (next_timer s).
Definition set_isHostRef (x : bool) (s : AppState) : AppState :=
  Build_AppState (view s) (remoteId s) x (videoRef s) (remoteVideoRef s) (peerRef s) (dataConnRef s) (isRemoteOp s) (heartbeatInterval s) (cancelled s) (listeners s) (clock s) (timers s) (next_timer s).
Definition set_videoRef (x : option Video) (s : AppState) : AppState :=
  Build_AppState (view s) (remoteId s) (isHostRef s) x (remoteVideoRef s) (peerRef s) (dataConnRef s) (isRemoteOp s) (heartbeatInterval s) (cancelled s) (listeners s) (clock s) (timers s) (next_timer s).
Definition set_remoteVideoRef (x : option Video) (s : AppState) : AppState :=
  Build_AppState (view s) (remoteId s) (isHostRef s) (videoRef s) x (peerRef s) (dataConnRef s) (isRemoteOp s) (heartbeatInterval s) (cancelled s) (listeners s) (clock s) (timers s) (next_timer s).
Definition set_peerRef (x : option Peer) (s : AppState) : AppState :=
  Build_AppState (view s) (remoteId s) (isHostRef s) (videoRef s) (remoteVideoRef s) x (dataConnRef s) (isRemoteOp s) (heartbeatInterval s) (cancelled s) (listeners s) (clock s) (timers s) (next_timer s).
Definition set_dataConnRef (x : option DataConnection) (s : AppState) : AppState :=
  Build_AppState (view s) (remoteId s) (isHostRef s) (videoRef s) (remoteVideoRef s) (peerRef s) x (isRemoteOp s) (heartbeatInterval s) (cancelled s) (listeners s) (clock s) (timers s) (next_timer s).
Definition set_isRemoteOp (x : bool) (s : AppState) : AppState :=
  Build_AppState (view s) (remoteId s) (isHostRef s) (videoRef s) (remoteVideoRef s) (peerRef s) (dataConnRef s) x (heartbeatInterval s) (cancelled s) (listeners s) (clock s) (timers s) (next_timer s).
Definition set_heartbeatInterval (x : option positive) (s : AppState) : AppState :=
  Build_AppState (view s) (remoteId s) (isHostRef s) (videoRef s) (remoteVideoRef s) (peerRef s) (dataConnRef s) (isRemoteOp s) x (cancelled s) (listeners s) (clock s) (timers s) (next_timer s).
Definition set_cancelled (x : bool) (s : AppState) : AppState :=
  Build_AppState (view s) (remoteId s) (isHostRef s) (videoRef s) (remoteVideoRef s) (peerRef s) (dataConnRef s) (isRemoteOp s) (heartbeatInterval s) x (listeners s) (clock s) (timers s) (next_timer s).
Definition set_listeners (x : list (nat * Listener)) (s : AppState) : AppState :=
  Build_AppState (view s) (remoteId s) (isHostRef s) (videoRef s) (remoteVideoRef s) (peerRef s) (dataConnRef s) (isRemoteOp s) (heartbeatInterval s) (cancelled s) x (clock s) (timers s) (next_timer s).
Definition set_clock (x : nat) (s : AppState) : AppState :=
  Build_AppState (view s) (remoteId s) (isHostRef s) (videoRef s) (remoteVideoRef s) (peerRef s) (dataConnRef s) (isRemoteOp s) (heartbeatInterval s) (cancelled s) (listeners s) x (timers s) (next_timer s).
Definition set_timers (x : list Timer) (s : AppState) : AppState :=
  Build_AppState (view s) (remoteId s) (isHostRef s) (videoRef s) (remoteVideoRef s) (peerRef s) (dataConnRef s) (isRemoteOp s) (heartbeatInterval s) (cancelled s) (listeners s) (clock s) x (next_timer s).
Definition set_next_timer (x : positive) (s : AppState) : AppState :=
  Build_AppState (view s) (remoteId s) (isHostRef s) (videoRef s) (remoteVideoRef s) (peerRef s) (dataConnRef s) (isRemoteOp s) (heartbeatInterval s) (cancelled s) (listeners s) (clock s) (timers s) x.

(** ** Actions: state passing with an output of effects *)

Definition Action : Type := AppState -> AppState * list Effect.

Definition skip : Action := fun st => (st, []).
Definition emit (e : Effect) : Action := fun st => (st, [e]).
Definition modify (f : AppState -> AppState) : Action := fun st => (f st, []).
Definition seq (a b : Action) : Action :=
  fun st => (fst (b (fst (a st))), snd (a st) ++ snd (b (fst (a st)))).

Declare Scope action_scope.
Delimit Scope action_scope with act.
Bind Scope action_scope with Action.
Notation "a ;; b" := (seq a b) (at level 61, right associativity) : action_scope.
Open Scope action_scope.

Definition addLog (m : Msg) : Action := emit (Log m).
Definition setStatus (m : Msg) : Action := emit (SetStatus m).

(** Exceptions: a statement that throws ends with the effect [Uncaught],
    and the statements after it do not run. [a ;;? b] is [a; b] where [a]
    may throw; [a ;; b] is for an [a] that cannot. *)
Definition is_uncaught (e : Effect) : bool :=
  match e with Uncaught _ => true | _ => false end.
Definition threw (es : list Effect) : bool := existsb is_uncaught es.
Definition throw (error : string) : Action := emit (Uncaught error).
Definition seq_unless_thrown (a b : Action) : Action :=
  fun st => if threw (snd (a st)) then a st else (a ;; b) st.
Notation "a ;;? b" := (seq_unless_thrown a b)
  (at level 61, right associativity) : action_scope.

(** ** The timer table *)

Definition window_setTimeout (cb : Callback) (ms : nat) (st : AppState) : AppState :=
  set_next_timer (Pos.succ (next_timer st))
    (set_timers
       (timers st ++ [{| tid := next_timer st; due := clock st + ms;
                         period := None; callback := cb |}]) st).

(** Returns the handle together with the new state. *)
Definition window_setInterval (cb : Callback) (ms : nat) (st : AppState)
  : positive * AppState :=
  (next_timer st,
   set_next_timer (Pos.succ (next_timer st))
     (set_timers
        (timers st ++ [{| tid := next_timer st; due := clock st + ms;
                          period := Some ms; callback := cb |}]) st)).

Definition clearInterval (id : positive) (st : AppState) : AppState :=
  set_timers (filter (fun t => negb (Pos.eqb (tid t) id)) (timers st)) st.

(** ** Heartbeat scheduler (Host) *)

Definition startHeartbeat : Action := fun st =>
  let st1 := match heartbeatInterval st with
             | Some id => clearInterval id st
             | None => st
             end in
  let r := window_setInterval HeartbeatTick 1000 st1 in
  addLog [Str "Heartbeat started"] (set_heartbeatInterval (Some (fst r)) (snd r)).

Definition stopHeartbeat : Action := fun st =>
  match heartbeatInterval st with
  | Some id =>
      addLog [Str "Heartbeat stopped"]
        (set_heartbeatInterval None (clearInterval id st))
  | None => skip st
  end.

(** The callback given to [setInterval]. *)
Definition heartbeatTick : Action := fun st =>
  match videoRef st, dataConnRef st with
  | Some v, Some c =>
      if open c
      then emit (Send (conn_id c) {| type := HEARTBEAT; timestamp := currentTime v |}) st
      else skip st
  | _, _ => skip st
  end.

Definition run_callback (cb : Callback) : Action :=
  match cb with
  | HeartbeatTick => heartbeatTick
  | ResetRemoteOp => modify (set_isRemoteOp false)
  end.

(** ** Sending *)

Definition sendCommand (ty : CommandType) (ts : number) : Action := fun st =>
  if match dataConnRef st with
     | Some c => open c && negb (isRemoteOp st)
     | None => false
     end
  then
    match dataConnRef st with
    | Some c =>
        (addLog [Str "Sending: "; Val (JsString (type_name ty))] ;;
         emit (Send (conn_id c) {| type := ty; timestamp := ts |})) st
    | None => skip st
    end
  else
    match dataConnRef st with
    | None => addLog [Str "Send Fail: No Conn"] st
    | Some c =>
        if negb (open c) then addLog [Str "Send Fail: Conn Closed"] st
        else if isRemoteOp st then addLog [Str "Send Skip: RemoteOp"] st
        else skip st
    end.

(** [onPlay], [onPause], [onSeeked]: listeners of the Host's [<video>];
    [e.currentTarget] is that element. *)
Definition onVideoEvent (ty : CommandType) : Action := fun st =>
  match videoRef st with
  | Some v => sendCommand ty (currentTime v) st
  | None => skip st
  end.

Definition onPlay : Action := onVideoEvent PLAY.
Definition onPause : Action := onVideoEvent PAUSE.
Definition onSeeked : Action := onVideoEvent SEEK.

(** ** Media elements *)

Definition video_at (slot : VideoSlot) (st : AppState) : option Video :=
  match slot with
  | HostVideo => videoRef st
  | RemoteVideo => remoteVideoRef st
  end.

Definition set_video_at (slot : VideoSlot) (v : option Video) (st : AppState) : AppState :=
  match slot with
  | HostVideo => set_videoRef v st
  | RemoteVideo => set_remoteVideoRef v st
  end.

Definition with_currentTime (x : number) (v : Video) : Video :=
  {| currentTime := x; src := src v; srcObject := srcObject v |}.
Definition with_src (u : string) (v : Video) : Video :=
  {| currentTime := currentTime v; src := Some u; srcObject := srcObject v |}.
Definition with_srcObject (s : nat) (v : Video) : Video :=
  {| currentTime := currentTime v; src := src v; srcObject := Some s |}.

(** The position of a slot, when its element is mounted. *)
Definition position (slot : VideoSlot) (st : AppState) : option number :=
  option_map currentTime (video_at slot st).

(** How many times a list of effects assigns [currentTime] on a slot. *)
Definition is_seek (slot : VideoSlot) (e : Effect) : bool :=
  match e, slot with
  | Player HostVideo (AssignCurrentTime _), HostVideo => true
  | Player RemoteVideo (AssignCurrentTime _), RemoteVideo => true
  | _, _ => false
  end.
Definition seeks (slot : VideoSlot) (es : list Effect) : nat :=
  List.length (filter (is_seek slot) es).

Definition is_log (e : Effect) : bool :=
  match e with Log _ => true | _ => false end.

Definition is_send (e : Effect) : bool :=
  match e with Send _ _ => true | _ => false end.
Definition sends (es : list Effect) : list Effect := filter is_send es.

Definition is_player (e : Effect) : bool :=
  match e with Player _ _ => true | _ => false end.
Definition player_calls (es : list Effect) : list Effect := filter is_player es.

(** ** File selection helpers: [toLowerCase] and [endsWith] on ASCII. A
    character outside ASCII never lower-cases to one of [.mp4], so the test
    of [handleFileChange] is the same on every file name. *)

Definition lower_ascii (c : ascii) : ascii :=
  let n := nat_of_ascii c in
  if (65 <=? n)%nat && (n <=? 90)%nat then ascii_of_nat (n + 32) else c.

Fixpoint toLowerCase (s : string) : string :=
  match s with
  | EmptyString => EmptyString
  | String c s' => String (lower_ascii c) (toLowerCase s')
  end.

Definition endsWith (s suffix : string) : bool :=
  let n := String.length s in
  let m := String.length suffix in
  (m <=? n)%nat && String.eqb (substring (n - m) m s) suffix.

(** ** What the environment decides inside a [try] block *)

Inductive CaptureOutcome : Type :=
| CaptureThrows (msg : string)
| Captured (stream : nat) (tracks : list Track).

Inductive CallOutcome : Type :=
| CallThrows (msg : string)
| CallPlaced.

Record MediaEnv : Type := { capture : CaptureOutcome; call : CallOutcome }.

Definition register (id : nat) (l : Listener) (st : AppState) : AppState :=
  set_listeners (listeners st ++ [(id, l)]) st.

Definition setupDataConnection (c : DataConnection) : Action :=
  modify (register (conn_id c) DataConnListeners).

(** ** Media repair *)

Definition restartStream (m : MediaEnv) : Action := fun st =>
  match isHostRef st, peerRef st, dataConnRef st, videoRef st with
  | true, Some _, Some c, Some _ =>
      (addLog [Str "Restarting stream (HQ)..."] ;;
       match capture m with
       | CaptureThrows msg => addLog [Str "Error restarting: "; Str msg]
       | Captured stream tracks =>
           addLog [Str "Captured stream: "; Count (List.length tracks); Str " video tracks"] ;;
           match tracks with
           | t0 :: _ =>
               addLog [Str "Track 0: "; Str (track_label t0); Str " (";
                       Str (track_readyState t0); Str ")"]
           | [] => skip
           end ;;
           match call m with
           | CallThrows msg => addLog [Str "Error restarting: "; Str msg]
           | CallPlaced => emit (PeerCall (peer c) stream)
           end
       end) st
  | _, _, _, _ => skip st
  end.

(** ** Role selection and file loading *)

Definition handleFileChange (f : option File) (m : MediaEnv) : Action := fun st =>
  match f with
  | None => skip st
  | Some file =>
      if negb (String.eqb (file_type file) "video/mp4")
         && negb (endsWith (toLowerCase (file_name file)) ".mp4")
      then
        (emit (Alert "Format not supported. Please use MP4 video files.") ;;
         addLog [Str "Error: Non-MP4 file selected"] ;;
         setStatus [Str "Error: Only MP4 is supported (Browser limit)."]) st
      else
        match videoRef st with
        | None => skip st
        | Some v =>
            (modify (set_videoRef (Some (with_src (file_url file) v))) ;;
             emit (Player HostVideo (AssignSrc (file_url file))) ;;
             emit (SetIsHost true) ;;
             modify (set_isHostRef true) ;;
             (fun st1 =>
                match dataConnRef st1, peerRef st1 with
                | Some c, Some _ =>
                    if open c then
                      (addLog [Str "Late video load: Calling existing client (HQ)..."] ;;
                       match capture m with
                       | CaptureThrows msg => addLog [Str "Error capturing stream: "; Str msg]
                       | Captured stream _ =>
                           match call m with
                           | CallThrows msg =>
                               addLog [Str "Error capturing stream: "; Str msg]
                           | CallPlaced =>
                               emit (PeerCall (peer c) stream) ;; startHeartbeat
                           end
                       end) st1
                    else skip st1
                | _, _ => skip st1
                end)) st
        end
  end.

Definition connectToHost (c : DataConnection) : Action := fun st =>
  match peerRef st with
  | None => skip st
  | Some _ =>
      if String.eqb (remoteId st) EmptyString then skip st
      else
        (addLog [Str "Connecting to "; Str (remoteId st); Str "..."] ;;
         setStatus [Str "Connecting to "; Str (remoteId st); Str "..."] ;;
         emit (PeerConnect (remoteId st)) ;;
         modify (register (conn_id c) ClientOpenListener)) st
  end.

(** ** Handlers of the peer and of its connections *)

Definition peer_onOpen (id : string) : Action := fun st =>
  if cancelled st then skip st
  else
    (emit (SetMyId id) ;;
     addLog [Str "Ready. Share ID to connect."] ;;
     setStatus [Str "Ready. Share ID to connect."] ;;
     addLog [Str "My Peer ID: "; Str id]) st.

Definition peer_onConnection (c : DataConnection) : Action := fun st =>
  if cancelled st then skip st
  else
    (modify (set_dataConnRef (Some c)) ;;
     setupDataConnection c ;;
     modify (register (conn_id c) HostOpenListener)) st.

(** [conn.on('open')] registered by [peer.on('connection')]. *)
Definition host_onOpen (c : DataConnection) (m : MediaEnv) : Action := fun st =>
  if cancelled st then skip st
  else
    (setStatus [Str "Connected to "; Str (peer c)] ;;
     (fun st1 =>
        match videoRef st1 with
        | None => skip st1
        | Some _ =>
            match capture m with
            | CaptureThrows msg => addLog [Str "Error capturing stream: "; Str msg] st1
            | Captured stream _ =>
                (addLog [Str "Calling client with stream (HQ)..."] ;;
                 match call m with
                 | CallThrows msg => addLog [Str "Error capturing stream: "; Str msg]
                 | CallPlaced => emit (PeerCall (peer c) stream)
                 end) st1
            end
        end)) st.

(** [conn.on('open')] registered by [connectToHost]. *)
Definition client_onOpen (c : DataConnection) : Action :=
  addLog [Str "Connected to Host. Waiting for stream..."] ;;
  setStatus [Str "Connected to Host. Waiting for stream..."] ;;
  modify (set_dataConnRef (Some c)) ;;
  setupDataConnection c.

Definition peer_onCall : Action := fun st =>
  if cancelled st then skip st
  else (addLog [Str "Receiving call from Host..."] ;; emit CallAnswer) st.

(** [call.on('stream')] registered by [setupRemoteCallEvents]. *)
Definition call_onStream (stream : nat) : Action :=
  addLog [Str "Received remote stream"] ;;
  (fun st =>
     match remoteVideoRef st with
     | Some v =>
         (modify (set_remoteVideoRef (Some (with_srcObject stream v))) ;;
          emit (Player RemoteVideo (AssignSrcObject stream)) ;;
          emit (Player RemoteVideo CallPlay)) st
     | None => skip st
     end).

Definition peer_onError (ty : string) : Action := fun st =>
  if cancelled st then skip st
  else (addLog [Str "Peer error: "; Str ty] ;; setStatus [Str "Error: "; Str ty]) st.

(** The handlers [setupDataConnection] installs for open, close and error. *)
Definition dataConn_onOpen (c : DataConnection) : Action :=
  addLog [Str "DataConnection Open: "; Str (label c)] ;;
  (fun st => if isHostRef st then startHeartbeat st else skip st).

Definition dataConn_onClose : Action :=
  addLog [Str "Connection closed"] ;; stopHeartbeat.

Definition dataConn_onError (err : string) : Action :=
  addLog [Str "DataConn error: "; Str err] ;; stopHeartbeat.

(** ** Receiving

    [StringToNumber] is the language's conversion of a string to a number;
    it is a parameter of everything that coerces a received value. *)

Section Receiving.

Variable StringToNumber : string -> number.

(** The abstract operation ToNumber on primitives. *)
Definition ToNumber (v : JsValue) : number :=
  match v with
  | JsUndefined => NaN
  | JsNull => zero
  | JsBoolean true => one
  | JsBoolean false => zero
  | JsNumber n => n
  | JsString s => StringToNumber s
  end.

(** [v.currentTime = raw]: the attribute is a [double], so the value is
    converted on the way in, and a number that is not finite is refused
    with a [TypeError] before anything is stored. *)
Definition assign_currentTime (slot : VideoSlot) (raw : JsValue) : Action := fun st =>
  match video_at slot st with
  | Some v =>
      if js_isFinite (ToNumber raw)
      then (set_video_at slot (Some (with_currentTime (ToNumber raw) v)) st,
            [Player slot (AssignCurrentTime raw)])
      else throw "TypeError" st
  | None => skip st
  end.

(** [Math.abs(v.currentTime - cmd.timestamp)]. *)
Definition drift_of (v : Video) (cmd : Data) : number :=
  Math_abs (js_sub (currentTime v) (ToNumber (data_timestamp cmd))).

Definition handleSyncCommand (cmd : Data) : Action := fun st =>
  let slot := if isHostRef st then HostVideo else RemoteVideo in
  match video_at slot st with
  | None => skip st
  | Some v =>
      if isHostRef st then
        if strict_eq_string (data_type cmd) "HEARTBEAT" then skip st
        else
          (modify (set_isRemoteOp true) ;;
           addLog [Str "Exec: "; Val (data_type cmd)] ;;
           (if strict_eq_string (data_type cmd) "PLAY" then
              emit (Player slot CallPlay)
            else if strict_eq_string (data_type cmd) "PAUSE" then
              emit (Player slot CallPause)
            else if strict_eq_string (data_type cmd) "SEEK" then
              if js_gt (drift_of v cmd) half
              then assign_currentTime slot (data_timestamp cmd)
              else skip
            else skip) ;;?
           modify (window_setTimeout ResetRemoteOp 300)) st
      else
        if strict_eq_string (data_type cmd) "HEARTBEAT" then
          let drift := drift_of v cmd in
          ((if js_gt drift half
            then addLog [Str "Drift: "; Fixed2 drift; Str "s"]
            else skip) ;;
           (if js_gt drift one
            then addLog [Str "Syncing drift: "; Fixed2 drift; Str "s"] ;;
                 assign_currentTime slot (data_timestamp cmd)
            else skip)) st
        else skip st
  end.


(** [conn.on('data')] of [setupDataConnection]. On [null] and on
    [undefined] the first thing it does, reading [command.type], throws. *)
Definition dataConn_onData (data : Payload) : Action :=
  match data with
  | Nullish => throw "TypeError"
  | Props command =>
      (if negb (strict_eq_string (data_type command) "HEARTBEAT")
       then addLog [Str "Received: "; Val (data_type command)]
       else skip) ;;
      handleSyncCommand command
  end.

(** ** The event loop *)

(** Fires one timer of the batch that has come due, unless an earlier
    callback of the batch cleared it. *)
Definition fire (t : Timer) : Action := fun st =>
  if existsb (fun t' => Pos.eqb (tid t') (tid t)) (timers st) then
    run_callback (callback t)
      (match period t with
       | Some p =>
           set_timers
             (map (fun t' =>
                     if Pos.eqb (tid t') (tid t)
                     then {| tid := tid t'; due := due t' + p;
                             period := period t'; callback := callback t' |}
                     else t') (timers st)) st
       | None => clearInterval (tid t) st
       end)
  else skip st.

Fixpoint fire_all (ts : list Timer) : Action :=
  match ts with
  | [] => skip
  | t :: ts' => fire t ;; fire_all ts'
  end.

(** One millisecond passes. *)
Definition elapse : Action := fun st =>
  let st1 := set_clock (S (clock st)) st in
  fire_all (filter (fun t => Nat.eqb (due t) (clock st1)) (timers st1)) st1.

Fixpoint wait (ms : nat) : Action :=
  match ms with
  | O => skip
  | S n => elapse ;; wait n
  end.

(** ** Events *)

Inductive Event : Type :=
(* the user *)
| ClickHostCard
| ClickClientCard
| ClickExit
| FileChange (f : option File) (m : MediaEnv)
| ClickFixBlackScreen (m : MediaEnv)
| TypeRemoteId (s : string)
| ClickConnect (c : DataConnection)
| ClickPlay
| ClickPause
(* the media elements *)
| VideoPlayed
| VideoPaused
| VideoSeeked
| VideoTime (slot : VideoSlot) (t : number)
(* PeerJS *)
| PeerLoaded
| PeerLoadFailed
| PeerOpen (id : string)
| PeerError (ty : string)
| PeerConnection (c : DataConnection)
| PeerIncomingCall
| CallStream (stream : nat)
| CallClosed
| CallError (err : string)
| ConnOpen (c : DataConnection) (m : MediaEnv)
| ConnData (c : nat) (data : Payload)
| ConnClose (c : nat)
| ConnError (c : nat) (err : string)
(* time and React *)
| Elapse
| Unmount.

(** Runs, in registration order, the listeners a connection had when the
    event was emitted; an exception that leaves one of them leaves [emit]
    too, and the listeners after it are not run. *)
Fixpoint dispatch (ls : list (nat * Listener)) (id : nat) (h : Listener -> Action)
  : Action :=
  match ls with
  | [] => skip
  | (i, l) :: ls' =>
      if Nat.eqb i id then h l ;;? dispatch ls' id h else dispatch ls' id h
  end.

(** PeerJS flips [open] on the connection object before it emits; the
    object [dataConnRef] points to changes with it. *)
Definition conn_becomes (id : nat) (b : bool) (st : AppState) : AppState :=
  match dataConnRef st with
  | Some c =>
      if Nat.eqb (conn_id c) id
      then set_dataConnRef
             (Some {| conn_id := conn_id c; peer := peer c; label := label c; open := b |}) st
      else st
  | None => st
  end.

Definition opened (c : DataConnection) : DataConnection :=
  {| conn_id := conn_id c; peer := peer c; label := label c; open := true |}.

(** React commits the view: the Host's [<video>] exists in the HOST view
    only, the Client's in the CLIENT view only. *)
Definition render (v : View) (st : AppState) : AppState :=
  match v with
  | LANDING => set_remoteVideoRef None (set_videoRef None (set_view LANDING st))
  | HOST => set_remoteVideoRef None (set_videoRef (Some fresh_video) (set_view HOST st))
  | CLIENT => set_remoteVideoRef (Some fresh_video) (set_videoRef None (set_view CLIENT st))
  end.

(** What the handlers of an event do. *)
Definition handle_event (e : Event) : Action := fun st =>
  match e, view st with
  | ClickHostCard, LANDING =>
      (emit (SetIsHost true) ;; modify (set_isHostRef true) ;; modify (render HOST)) st
  | ClickClientCard, LANDING =>
      (emit (SetIsHost false) ;; modify (set_isHostRef false) ;; modify (render CLIENT)) st
  | ClickExit, HOST => modify (render LANDING) st
  | ClickExit, CLIENT => modify (render LANDING) st
  | FileChange f m, HOST => handleFileChange f m st
  | ClickFixBlackScreen m, HOST => restartStream m st
  | TypeRemoteId s, CLIENT => modify (set_remoteId s) st
  | ClickConnect c, CLIENT => connectToHost c st
  | ClickPlay, CLIENT => sendCommand PLAY zero st
  | ClickPause, CLIENT => sendCommand PAUSE zero st
  | VideoPlayed, HOST => onPlay st
  | VideoPaused, HOST => onPause st
  | VideoSeeked, HOST => onSeeked st
  | VideoTime slot t, _ =>
      match video_at slot st with
      | Some v => modify (set_video_at slot (Some (with_currentTime t v))) st
      | None => skip st
      end
  | PeerLoaded, _ =>
      if cancelled st then skip st else modify (set_peerRef (Some PeerJS)) st
  | PeerLoadFailed, _ =>
      if cancelled st then skip st
      else (addLog [Str "Failed to load PeerJS library"] ;;
            setStatus [Str "Failed to load PeerJS library"]) st
  | PeerOpen id, _ =>
      match peerRef st with Some _ => peer_onOpen id st | None => skip st end
  | PeerError ty, _ =>
      match peerRef st with Some _ => peer_onError ty st | None => skip st end
  | PeerConnection c, _ =>
      match peerRef st with Some _ => peer_onConnection c st | None => skip st end
  | PeerIncomingCall, _ =>
      match peerRef st with Some _ => peer_onCall st | None => skip st end
  | CallStream stream, _ => call_onStream stream st
  | CallClosed, _ => addLog [Str "Call closed"] st
  | CallError err, _ => addLog [Str "Call error: "; Str err] st
  | ConnOpen c m, _ =>
      dispatch (listeners st) (conn_id c)
        (fun l => match l with
                  | DataConnListeners => dataConn_onOpen (opened c)
                  | HostOpenListener => host_onOpen (opened c) m
                  | ClientOpenListener => client_onOpen (opened c)
                  end)
        (conn_becomes (conn_id c) true st)
  | ConnData c d, _ =>
      dispatch (listeners st) c
        (fun l => match l with
                  | DataConnListeners => dataConn_onData d
                  | _ => skip
                  end) st
  | ConnClose c, _ =>
      dispatch (listeners st) c
        (fun l => match l with
                  | DataConnListeners => dataConn_onClose
                  | _ => skip
                  end)
        (conn_becomes c false st)
  | ConnError c err, _ =>
      dispatch (listeners st) c
        (fun l => match l with
                  | DataConnListeners => dataConn_onError err
                  | _ => skip
                  end) st
  | Elapse, _ => elapse st
  | Unmount, _ =>
      (* React detaches both refs and runs the cleanup of the effect *)
      (modify (set_videoRef None) ;;
       modify (set_remoteVideoRef None) ;;
       modify (set_cancelled true) ;;
       (fun st1 => match peerRef st1 with
                   | Some _ => emit PeerDestroy st1
                   | None => skip st1
                   end)) st
  | _, _ => skip st
  end.

(** The events of the user and of the media elements need the component's
    DOM: once the component is unmounted, which is when [cancelled] is set,
    none of them occurs. PeerJS and the timers go on. *)
Definition from_dom (e : Event) : bool :=
  match e with
  | ClickHostCard | ClickClientCard | ClickExit | FileChange _ _
  | ClickFixBlackScreen _ | TypeRemoteId _ | ClickConnect _ | ClickPlay | ClickPause
  | VideoPlayed | VideoPaused | VideoSeeked | VideoTime _ _ => true
  | _ => false
  end.

Definition step (e : Event) : Action := fun st =>
  if from_dom e && cancelled st then skip st else handle_event e st.

Fixpoint run (es : list Event) : Action :=
  match es with
  | [] => skip
  | e :: es' => step e ;; run es'
  end.

Inductive reachable : AppState -> Prop :=
| reach_initial : reachable initial
| reach_step (e : Event) (st : AppState) :
    reachable st -> reachable (fst (step e st)).

End Receiving.

Arguments reachable StringToNumber st : clear implicits.

(** ** An instance of the string conversion, for the examples

    Right on the empty string and on short strings of decimal digits, and
    NaN on every other string; there the language agrees whenever the
    string holds a letter that no numeric literal can hold, as in "abc".
    It is not the language's conversion elsewhere: a sign, a fraction, an
    exponent, "Infinity" or white space around the digits give NaN here.
    The examples use it on "abc" only, and every theorem is stated for an
    arbitrary conversion. *)

Definition digit_of (c : ascii) : option Z :=
  let n := nat_of_ascii c in
  if (48 <=? n)%nat && (n <=? 57)%nat then Some (Z.of_nat (n - 48)) else None.

Fixpoint digits_value (s : string) (acc : Z) : option Z :=
  match s with
  | EmptyString => Some acc
  | String c s' =>
      match digit_of c with
      | Some d => digits_value s' (10 * acc + d)%Z
      | None => None
      end
  end.

Definition StringToNumber_digits (s : string) : number :=
  match digits_value s 0 with
  | Some z => of_Z z
  | None => NaN
  end.

(** ** Example states, built by running events from the initial state *)

Definition no_media : MediaEnv :=
  {| capture := CaptureThrows "no source"; call := CallPlaced |}.

Definition good_media : MediaEnv :=
  {| capture := Captured 1 [{| track_label := "video"; track_readyState := "live" |}];
     call := CallPlaced |}.

Definition guest : DataConnection :=
  {| conn_id := 7; peer := "guest"; label := "dc_guest"; open := false |}.

Definition second_guest : DataConnection :=
  {| conn_id := 8; peer := "other"; label := "dc_other"; open := false |}.

(** A Client whose stream is at position [t]. *)
Definition client_at (t : number) : AppState :=
  fst (run StringToNumber_digits
         [PeerLoaded; ClickClientCard; VideoTime RemoteVideo t] initial).

(** A Host at position [t] with [guest] connected and open. *)
Definition host_at (t : number) : AppState :=
  fst (run StringToNumber_digits
         [PeerLoaded; ClickHostCard; PeerConnection guest; ConnOpen guest no_media;
          VideoTime HostVideo t] initial).

(** ** Properties of the specification that the code does not have *)

(** Drift bands with the middle band closed at [0.5]. *)
Definition drift_bands_closed_at_half (S2N : string -> number)
  (st : AppState) (ts : number) : Prop :=
  forall v, isHostRef st = false -> remoteVideoRef st = Some v ->
    let d := Math_abs (js_sub (currentTime v) ts) in
    let r := handleSyncCommand S2N (wire {| type := HEARTBEAT; timestamp := ts |}) st in
    (js_lt d half = true -> r = (st, [])) /\
    (js_le half d = true -> js_le d one = true ->
       fst r = st /\ snd r = [Log [Str "Drift: "; Fixed2 d; Str "s"]]) /\
    (js_gt d one = true ->
       position RemoteVideo (fst r) = Some ts /\ seeks RemoteVideo (snd r) = 1).





(** ** Well-formed timer tables *)

Definition with_handle (id : positive) (st : AppState) : list Timer :=
  filter (fun t => Pos.eqb (tid t) id) (timers st).

Definition is_heartbeat (t : Timer) : bool :=
  match callback t with
  | HeartbeatTick => true
  | ResetRemoteOp => false
  end.

(** The active timers that run the heartbeat callback. *)
Definition heartbeat_timers (st : AppState) : list Timer :=
  filter is_heartbeat (timers st).

(** Handles come from the supply, and a timer that runs the heartbeat is
    the one [heartbeatInterval] holds. *)
Definition wf (st : AppState) : Prop :=
  (forall t, In t (timers st) -> (tid t < next_timer st)%positive) /\
  (forall t, In t (timers st) -> callback t = HeartbeatTick ->
             heartbeatInterval st = Some (tid t)).


(** The timer a remotely applied command schedules to lower the guard. *)
Definition guard_reset (st : AppState) : Timer :=
  {| tid := next_timer st; due := clock st + 300; period := None;
     callback := ResetRemoteOp |}.

(** The interval timer [startHeartbeat] creates, with its next deadline. *)
Definition heartbeat_timer (id : positive) (deadline : nat) : Timer :=
  {| tid := id; due := deadline; period := Some 1000; callback := HeartbeatTick |}.

(** What one tick sends in a state. *)
Definition tick_output (st : AppState) : list Effect := snd (heartbeatTick st).

(** ** The view and the refs

    What the role cards and React's commit keep true: the Host's element is
    mounted in the HOST view only, where the role is Host; the Client's in
    the CLIENT view only, where the role is Client; and no element is
    mounted once the component is unmounted. *)

(** The ref of the element of the view shown. *)
Definition mounted (st : AppState) (r : option Video) : Prop :=
  if cancelled st then r = None else r <> None.

Definition view_inv (st : AppState) : Prop :=
  match view st with
  | LANDING => videoRef st = None /\ remoteVideoRef st = None
  | HOST => isHostRef st = true /\ mounted st (videoRef st) /\ remoteVideoRef st = None
  | CLIENT => isHostRef st = false /\ videoRef st = None /\ mounted st (remoteVideoRef st)
  end.

Definition inv (st : AppState) : Prop := wf st /\ view_inv st.

(** ** Two more properties the code does not have *)

(** The scheduler never runs while the role is Client. *)
Definition heartbeat_never_runs_as_client (S2N : string -> number) : Prop :=
  forall st, reachable S2N st -> isHostRef st = false -> heartbeat_timers st = [].

(** Inside a role view an event keeps the role, or returns to the landing
    view with the session dismantled. *)
Definition role_write_once (S2N : string -> number) (st : AppState) (e : Event) : Prop :=
  view st <> LANDING ->
  let st' := fst (step S2N e st) in
  (view st' = view st /\ isHostRef st' = isHostRef st) \/
  (view st' = LANDING /\ dataConnRef st' = None /\ heartbeatInterval st' = None).


(** ** What the component tracks *)

Definition tracked_channels (st : AppState) : list DataConnection :=
  match dataConnRef st with
  | Some c => [c]
  | None => []
  end.

Definition tracked_media (st : AppState) : list nat :=
  match remoteVideoRef st with
  | Some v => match srcObject v with Some s => [s] | None => [] end
  | None => []
  end.

(** Repeated clicks on "Fix Black Screen", each with its own outcome. *)
Fixpoint restartStream_times (ms : list MediaEnv) : Action :=
  match ms with
  | [] => skip
  | m :: ms' => restartStream m ;; restartStream_times ms'
  end.

(** What an event may do to the role and to the heartbeat handle. *)
Definition role_kept (a b : AppState) : Prop :=
  view b = view a /\ isHostRef b = isHostRef a.

Definition heartbeat_by_host (a b : AppState) : Prop :=
  heartbeatInterval b = heartbeatInterval a \/ heartbeatInterval b = None \/
  isHostRef b = true.

(** ** Notions used by the proofs about timers and roles *)

(** The timers of a state after [fire t]. *)
Definition fired (t : Timer) (ts : list Timer) : list Timer :=
  if existsb (fun t' => Pos.eqb (tid t') (tid t)) ts then
    match period t with
    | Some p =>
        map (fun t' => if Pos.eqb (tid t') (tid t)
                       then {| tid := tid t'; due := due t' + p;
                               period := period t'; callback := callback t' |}
                       else t') ts
    | None => filter (fun t' => negb (Pos.eqb (tid t') (tid t))) ts
    end
  else ts.

(** Firing touches nothing but the timer table and the loop guard. *)
Definition same_refs (a b : AppState) : Prop :=
  view a = view b /\ remoteId a = remoteId b /\ isHostRef a = isHostRef b /\
  videoRef a = videoRef b /\ remoteVideoRef a = remoteVideoRef b /\
  peerRef a = peerRef b /\ dataConnRef a = dataConnRef b /\
  heartbeatInterval a = heartbeatInterval b /\ cancelled a = cancelled b /\
  listeners a = listeners b /\ next_timer a = next_timer b.


(** The heartbeat timer is the only timer with its handle, and every other
    timer is a reset of the guard. *)
Definition lone_heartbeat (hid : positive) (deadline : nat) (st : AppState) : Prop :=
  with_handle hid st = [heartbeat_timer hid deadline] /\
  (forall t, In t (timers st) -> tid t <> hid -> callback t = ResetRemoteOp).

(** The pair of facts carried through a dispatch that started in [st0]. *)
Definition along (st0 s : AppState) : Prop :=
  role_kept st0 s /\ heartbeat_by_host st0 s.

(** ** More example data *)

Definition heartbeat_of (t : number) : Data :=
  wire {| type := HEARTBEAT; timestamp := t |}.

Definition playing (t : number) : Video := with_currentTime t fresh_video.



Definition seek_infinity : Data :=
  {| data_type := JsString "SEEK"; data_timestamp := JsNumber (S754_infinity false) |}.

Definition heartbeat_infinity : Data :=
  {| data_type := JsString "HEARTBEAT";
     data_timestamp := JsNumber (S754_infinity false) |}.

(** The Host of [host_at] exits and joins as Client. *)
Definition host_turned_client : AppState :=
  fst (run StringToNumber_digits [ClickExit; ClickClientCard] (host_at (of_Z 10))).

(** ** The timer table of a reachable state

    A heartbeat timer is an interval of 1000 ms held by [heartbeatInterval]
    and due within a period; every other timer is a one-shot reset of the
    loop guard, due within its 300 ms. *)
Definition class_ok (hb : option positive) (c : nat) (t : Timer) : Prop :=
  match callback t with
  | HeartbeatTick =>
      hb = Some (tid t) /\ period t = Some 1000 /\ due t <= c + 1000
  | ResetRemoteOp =>
      hb <> Some (tid t) /\ period t = None /\ due t <= c + 300
  end.

(** The table while the batch due at [c] is fired: [pending] is what is
    left of the batch. Handles are distinct and come from the supply, the
    handle in [heartbeatInterval] has its timer, and no timer is overdue. *)
Definition batch_ok (pending ts : list Timer) (nx : positive)
  (hb : option positive) (c : nat) : Prop :=
  NoDup (map tid ts) /\
  (forall t, In t ts -> (tid t < nx)%positive) /\
  (forall id, hb = Some id ->
     (id < nx)%positive /\ exists t, In t ts /\ tid t = id) /\
  (forall t, In t ts ->
     c <= due t /\ (due t = c -> In t pending) /\ class_ok hb c t) /\
  (forall t, In t pending -> In t ts /\ due t = c) /\
  NoDup (map tid pending).

(** Between two events the batch is empty: every timer is due later. *)
Definition sched_inv (st : AppState) : Prop :=
  batch_ok [] (timers st) (next_timer st) (heartbeatInterval st) (clock st).

(** The connection the component tracks has the data listeners. *)
Definition wired (st : AppState) : Prop :=
  forall c, dataConnRef st = Some c -> In (conn_id c, DataConnListeners) (listeners st).

Definition deep_inv (st : AppState) : Prop := sched_inv st /\ wired st.

(** ** Closing events of a connection *)

(** The connection [id] emits [close] or [error]. *)
Definition closing (id : nat) (e : Event) : Prop :=
  e = ConnClose id \/ exists err, e = ConnError id err.

(** ** File names, calls and peer-level events *)

(** The name ends in [.mp4], in any letter case. *)
Definition has_mp4_extension (name : string) : Prop :=
  exists base ext, name = (base ++ ext)%string /\ toLowerCase ext = ".mp4".

Definition is_peer_call (e : Effect) : bool :=
  match e with PeerCall _ _ => true | _ => false end.
Definition placed_calls (es : list Effect) : list Effect := filter is_peer_call es.

(** The stream a [try] block gets to hand to [peer.call], when neither
    [captureStream] nor [call] throws. *)
Definition media_ok (m : MediaEnv) : option nat :=
  match capture m, call m with
  | Captured stream _, CallPlaced => Some stream
  | _, _ => None
  end.

(** The events whose handlers are set up by [initPeer] and test
    [cancelled] first. *)
Definition peer_level (e : Event) : bool :=
  match e with
  | PeerLoaded | PeerLoadFailed | PeerOpen _ | PeerError _ | PeerConnection _
  | PeerIncomingCall => true
  | _ => false
  end.

(** ** Further example states *)

Definition play_abc : Data :=
  {| data_type := JsString "PLAY"; data_timestamp := JsString "abc" |}.


(** The Host of [host_at] back in the landing view. *)
Definition landing_again : AppState :=
  fst (step StringToNumber_digits ClickExit (host_at (of_Z 10))).



(** A second guest has connected and replaced [guest]. *)
Definition two_guests : AppState :=
  fst (run StringToNumber_digits
         [PeerConnection second_guest; ConnOpen second_guest no_media]
         (host_at (of_Z 10))).

(** A Client that has typed the Host's id. *)
Definition client_ready : AppState :=
  fst (run StringToNumber_digits
         [PeerLoaded; ClickClientCard; TypeRemoteId "host-id"] initial).

Definition movie : File :=
  {| file_type := "application/octet-stream"; file_name := "Movie.MP4";
     file_url := "blob:movie" |}.

Definition notes : File :=
  {| file_type := "text/plain"; file_name := "notes.txt"; file_url := "blob:notes" |}.

(** ** SDP munging

    [sdpTransform], as written in [getCallOptions] and, with the same
    text, in the handler of [peer.on('connection')]. A string is the
    sequence of its UTF-16 code units, on which [indexOf] and a regular
    expression without the [u] flag work. *)

Definition units (s : string) : list N := map N_of_ascii (list_ascii_of_string s).

Definition CRLF : list N := [13%N; 10%N].

(** [\d]: an ASCII digit. *)
Definition is_digit (c : N) : bool := (48 <=? c)%N && (c <=? 57)%N.

(** What [.] does not match: LF, CR, LS and PS. *)
Definition is_line_terminator (c : N) : bool :=
  (c =? 10)%N || (c =? 13)%N || (c =? 8232)%N || (c =? 8233)%N.

(** [p] occurs at the start of [s]. *)
Fixpoint starts_with (p s : list N) : bool :=
  match p, s with
  | [], _ => true
  | a :: p', b :: s' => (a =? b)%N && starts_with p' s'
  | _ :: _, [] => false
  end.

(** [s.indexOf(p) > -1]. *)
Fixpoint includes (p s : list N) : bool :=
  starts_with p s ||
  match s with
  | [] => false
  | _ :: s' => includes p s'
  end.

(** The length of the longest prefix of units that satisfy [f]: what a
    greedy [+] takes. *)
Fixpoint run_length (f : N -> bool) (s : list N) : nat :=
  match s with
  | c :: s' => if f c then S (run_length f s') else 0
  | [] => 0
  end.

(** The length of the match of [/b=AS:\d+/] at the start of [s]. *)
Definition match_bitrate (s : list N) : option nat :=
  if starts_with (units "b=AS:") s then
    match run_length is_digit (skipn 5 s) with
    | O => None
    | S k => Some (5 + S k)
    end
  else None.

(** The length of the match of [/(m=video .+\r\n)/] at the start of [s]:
    [.+] stops at the first line terminator, where CR LF must follow, and
    giving units back cannot help, since the unit after a shorter run is
    not a CR. *)
Definition match_video_line (s : list N) : option nat :=
  if starts_with (units "m=video ") s then
    match run_length (fun c => negb (is_line_terminator c)) (skipn 8 s) with
    | O => None
    | S k => if starts_with CRLF (skipn (8 + S k) s) then Some (8 + S k + 2) else None
    end
  else None.

(** [s.replace(re, ...)] for a global [re] that matches no empty string:
    at each unit outside a match, [m] tells the length of the match that
    starts there, the match is replaced by [sub] of its text ([$1] is the
    whole match here) and the search goes on after it. *)
Fixpoint replace_from (m : list N -> option nat) (sub : list N -> list N)
  (skip : nat) (s : list N) : list N :=
  match s with
  | [] => []
  | c :: s' =>
      match skip with
      | S k => replace_from m sub k s'
      | O =>
          match m s with
          | Some (S len) => sub (firstn (S len) s) ++ replace_from m sub len s'
          | _ => c :: replace_from m sub 0 s'
          end
      end
  end.

Definition replace_all (m : list N -> option nat) (sub : list N -> list N)
  (s : list N) : list N := replace_from m sub 0 s.

Definition sdpTransform (sdp : list N) : list N :=
  if includes (units "b=AS:") sdp then
    replace_all match_bitrate (fun _ => units "b=AS:50000") sdp
  else
    replace_all match_video_line (fun m1 => m1 ++ units "b=AS:50000" ++ CRLF) sdp.

Definition not_digit (c : N) : bool := negb (is_digit c).

Abbreviation raise_bitrates := (replace_all match_bitrate (fun _ => units "b=AS:50000")).

Abbreviation add_bitrate_lines :=
  (replace_all match_video_line (fun m1 => m1 ++ units "b=AS:50000" ++ CRLF)).

(** Some line of the SDP is [m=video ], a non-empty text and CR LF. *)
Definition has_video_line (s : list N) : Prop :=
  exists pre body post,
    s = pre ++ units "m=video " ++ body ++ CRLF ++ post /\
    body <> [] /\ forallb (fun c => negb (is_line_terminator c)) body = true.

(** A video media line starts [s]: [m=video ], the non-empty text [body]
    without a line terminator, CR LF, and then [rest]. *)
Definition video_line_at (s body rest : list N) : Prop :=
  s = units "m=video " ++ body ++ CRLF ++ rest /\
  body <> [] /\ forallb (fun c => negb (is_line_terminator c)) body = true.

(** [t] is [s] with the line [b=AS:50000] put after every video media line
    met from the left, the next line being looked for after the one
    before, and every other unit left where it is. *)
Inductive bitrate_lines_added : list N -> list N -> Prop :=
| added_end : bitrate_lines_added [] []
| added_line (s body rest t : list N) :
    video_line_at s body rest -> bitrate_lines_added rest t ->
    bitrate_lines_added s
      (units "m=video " ++ body ++ CRLF ++ units "b=AS:50000" ++ CRLF ++ t)
| added_unit (c : N) (s t : list N) :
    (forall body rest, ~ video_line_at (c :: s) body rest) ->
    bitrate_lines_added s t -> bitrate_lines_added (c :: s) (c :: t).

(** Two session descriptions: one without a bandwidth line, one with a
    bandwidth line in its audio section only. *)
Definition sdp_plain : list N :=
  units "v=0" ++ CRLF ++ units "m=video 9 UDP/TLS/RTP/SAVPF 96" ++ CRLF ++
  units "a=mid:0" ++ CRLF.

Definition sdp_audio_capped : list N :=
  units "m=audio 9 UDP/TLS/RTP/SAVPF 111" ++ CRLF ++ units "b=AS:64" ++ CRLF ++
  units "m=video 9 UDP/TLS/RTP/SAVPF 96" ++ CRLF.

(** ** Basic facts on comparisons of numbers *)

Lemma SFcompare_antisym (x y : number) :
  SFcompare y x = option_map CompOpp (SFcompare x y).
Proof.
  destruct x as [sx|sx| |sx mx ex], y as [sy|sy| |sy my ey]; simpl;
    try reflexivity;
    try (destruct sx; try destruct sy; reflexivity).
  destruct sx, sy; simpl; try reflexivity.
  - rewrite (Z.compare_antisym ex ey).
    destruct (ex ?= ey)%Z; simpl; try reflexivity.
    change (Pos.compare_cont Eq my mx) with (my ?= mx)%positive.
    change (Pos.compare_cont Eq mx my) with (mx ?= my)%positive.
    now rewrite (Pos.compare_antisym mx my), CompOpp_involutive.
  - rewrite (Z.compare_antisym ex ey).
    destruct (ex ?= ey)%Z; simpl; try reflexivity.
    change (Pos.compare_cont Eq my mx) with (my ?= mx)%positive.
    now rewrite (Pos.compare_antisym mx my).
Qed.

Lemma js_le_not_gt (x y : number) : js_le x y = true -> js_gt x y = false.
Proof.
  unfold js_le, js_gt, SFleb, SFltb. rewrite (SFcompare_antisym x y).
  destruct (SFcompare x y) as [[ | | ]|]; simpl; congruence.
Qed.

Lemma js_lt_le (x y : number) : js_lt x y = true -> js_le x y = true.
Proof.
  unfold js_lt, js_le, SFltb, SFleb.
  destruct (SFcompare x y) as [[ | | ]|]; congruence.
Qed.

Lemma js_eq_le (x y : number) : js_eq x y = true -> js_le x y = true.
Proof.
  unfold js_eq, js_le, SFeqb, SFleb.
  destruct (SFcompare x y) as [[ | | ]|]; congruence.
Qed.

Lemma js_gt_not_le (x y : number) : js_gt x y = true -> js_le x y = false.
Proof.
  intros H. destruct (js_le x y) eqn:E; [|reflexivity].
  apply js_le_not_gt in E. congruence.
Qed.

(** Above [1] is above [0.5]. *)
Lemma js_gt_one_half (d : number) : js_gt d one = true -> js_gt d half = true.
Proof.
  unfold js_gt, SFltb, one, half.
  destruct d as [s|s| |s m e]; cbn -[Z.compare Pos.compare_cont];
    try discriminate; try (destruct s; congruence).
  destruct s; try discriminate.
  destruct (Z.compare_spec (-52) e) as [E|E|E]; try discriminate.
  - subst e. reflexivity.
  - intros _. destruct (Z.compare_spec (-53) e) as [E1|E1|E1]; try lia; reflexivity.
Qed.

Lemma js_le_half_not_gt_one (d : number) : js_le d half = true -> js_gt d one = false.
Proof.
  intros H. destruct (js_gt d one) eqn:E; [|reflexivity].
  apply js_gt_one_half in E. apply js_le_not_gt in H. congruence.
Qed.


(** ** The event loop: what firing timers changes *)

Lemma filter_handle_map (id id' : positive) (f : Timer -> Timer) (ts : list Timer) :
  id' <> id -> (forall t, tid (f t) = tid t) ->
  filter (fun t => Pos.eqb (tid t) id)
    (map (fun t => if Pos.eqb (tid t) id' then f t else t) ts) =
  filter (fun t => Pos.eqb (tid t) id) ts.
Proof.
  intros Hne Hf. induction ts as [|t ts IH]; [reflexivity|]. cbn.
  destruct (Pos.eqb_spec (tid t) id') as [E|E].
  - rewrite Hf. destruct (Pos.eqb_spec (tid t) id); [congruence|]. exact IH.
  - destruct (Pos.eqb (tid t) id); now rewrite IH.
Qed.

Lemma filter_handle_filter (id id' : positive) (ts : list Timer) :
  id' <> id ->
  filter (fun t => Pos.eqb (tid t) id)
    (filter (fun t => negb (Pos.eqb (tid t) id')) ts) =
  filter (fun t => Pos.eqb (tid t) id) ts.
Proof.
  intros Hne. induction ts as [|t ts IH]; [reflexivity|]. cbn.
  destruct (Pos.eqb_spec (tid t) id') as [E|E]; cbn.
  - destruct (Pos.eqb_spec (tid t) id); [congruence|]. exact IH.
  - destruct (Pos.eqb (tid t) id); now rewrite IH.
Qed.

Lemma run_callback_timers (cb : Callback) (st : AppState) :
  timers (fst (run_callback cb st)) = timers st.
Proof.
  destruct cb; cbn; [|reflexivity]. unfold heartbeatTick.
  destruct (videoRef st), (dataConnRef st) as [c|]; try reflexivity.
  now destruct (open c).
Qed.

Lemma run_callback_guard (cb : Callback) (st : AppState) :
  isRemoteOp (fst (run_callback cb st)) =
  match cb with ResetRemoteOp => false | HeartbeatTick => isRemoteOp st end.
Proof.
  destruct cb; cbn; [|reflexivity]. unfold heartbeatTick.
  destruct (videoRef st), (dataConnRef st) as [c|]; try reflexivity.
  now destruct (open c).
Qed.

Lemma fire_timers (t : Timer) (st : AppState) :
  timers (fst (fire t st)) = fired t (timers st).
Proof.
  unfold fire, fired.
  destruct (existsb _ (timers st)); [|reflexivity].
  rewrite run_callback_timers. now destruct (period t).
Qed.

Lemma fire_guard (t : Timer) (st : AppState) :
  isRemoteOp (fst (fire t st)) =
  if existsb (fun t' => Pos.eqb (tid t') (tid t)) (timers st)
  then match callback t with ResetRemoteOp => false | HeartbeatTick => isRemoteOp st end
  else isRemoteOp st.
Proof.
  unfold fire. destruct (existsb _ (timers st)); [|reflexivity].
  rewrite run_callback_guard. destruct (callback t), (period t); reflexivity.
Qed.

Lemma same_refs_refl (a : AppState) : same_refs a a.
Proof. repeat split. Qed.

Lemma same_refs_trans (a b c : AppState) :
  same_refs a b -> same_refs b c -> same_refs a c.
Proof.
  unfold same_refs. intros H1 H2.
  decompose [and] H1. decompose [and] H2. repeat split; congruence.
Qed.

Lemma run_callback_refs (cb : Callback) (st : AppState) :
  same_refs (fst (run_callback cb st)) st /\
  clock (fst (run_callback cb st)) = clock st.
Proof.
  destruct cb; cbn.
  - unfold heartbeatTick.
    destruct (videoRef st), (dataConnRef st) as [c|]; try destruct (open c);
      cbn; split; auto using same_refs_refl.
  - split; [repeat split | reflexivity].
Qed.

Lemma fire_refs (t : Timer) (st : AppState) :
  same_refs (fst (fire t st)) st /\ clock (fst (fire t st)) = clock st.
Proof.
  unfold fire. destruct (existsb _ (timers st)); [|cbn; auto using same_refs_refl].
  destruct (period t);
    match goal with
    | |- context [run_callback ?cb ?s] =>
        destruct (run_callback_refs cb s) as [H1 H2]
    end; (split; [eapply same_refs_trans; [exact H1|repeat split] | now rewrite H2]).
Qed.

Lemma fire_all_refs (ts : list Timer) (st : AppState) :
  same_refs (fst (fire_all ts st)) st /\ clock (fst (fire_all ts st)) = clock st.
Proof.
  revert st. induction ts as [|t ts IH]; intros st; cbn [fire_all seq skip fst snd].
  - auto using same_refs_refl.
  - destruct (IH (fst (fire t st))) as [H1 H2].
    destruct (fire_refs t st) as [H3 H4].
    split; [eapply same_refs_trans; eauto | congruence].
Qed.

Lemma elapse_refs (st : AppState) :
  same_refs (fst (elapse st)) st /\ clock (fst (elapse st)) = S (clock st).
Proof.
  unfold elapse.
  match goal with |- context [fire_all ?ts ?s] =>
    destruct (fire_all_refs ts s) as [H1 H2] end.
  split; [eapply same_refs_trans; [exact H1|repeat split] | now rewrite H2].
Qed.

Lemma wait_refs (n : nat) (st : AppState) :
  same_refs (fst (wait n st)) st /\ clock (fst (wait n st)) = n + clock st.
Proof.
  revert st. induction n as [|n IH]; intros st; cbn [wait seq skip fst snd].
  - auto using same_refs_refl.
  - destruct (IH (fst (elapse st))) as [H1 H2].
    destruct (elapse_refs st) as [H3 H4].
    split; [eapply same_refs_trans; eauto | lia].
Qed.

(** *** Timers with another handle are left alone *)

Lemma fired_other (id : positive) (t : Timer) (ts : list Timer) :
  tid t <> id ->
  filter (fun t' => Pos.eqb (tid t') id) (fired t ts) =
  filter (fun t' => Pos.eqb (tid t') id) ts.
Proof.
  intros Hne. unfold fired.
  destruct (existsb _ ts); [|reflexivity].
  destruct (period t) as [p|].
  - now apply (filter_handle_map id (tid t)
                 (fun t' => {| tid := tid t'; due := due t' + p;
                               period := period t'; callback := callback t' |})).
  - now apply filter_handle_filter.
Qed.

(** Every timer left by a firing comes from one that was there, with the
    same handle and callback and a deadline that is no earlier. *)
Lemma fired_in (t : Timer) (ts : list Timer) (t' : Timer) :
  In t' (fired t ts) ->
  exists t0, In t0 ts /\ tid t' = tid t0 /\ callback t' = callback t0 /\
             period t' = period t0 /\ due t0 <= due t'.
Proof.
  unfold fired. destruct (existsb _ ts); [|intros H; exists t'; auto].
  destruct (period t) as [p|].
  - intros H. apply in_map_iff in H. destruct H as (t0 & E & Hin).
    exists t0. destruct (Pos.eqb (tid t0) (tid t)); subst t'; cbn;
      repeat split; auto; lia.
  - intros H. apply filter_In in H. exists t'. intuition.
Qed.

Lemma fire_with_handle_other (id : positive) (t : Timer) (st : AppState) :
  tid t <> id -> with_handle id (fst (fire t st)) = with_handle id st.
Proof.
  intros Hne. unfold with_handle. rewrite fire_timers. now apply fired_other.
Qed.


Lemma with_handle_active (id : positive) (t0 : Timer) (l : list Timer) (st : AppState) :
  with_handle id st = t0 :: l ->
  existsb (fun t' => Pos.eqb (tid t') id) (timers st) = true.
Proof.
  unfold with_handle. intros H. apply existsb_exists. exists t0.
  assert (Hin : In t0 (filter (fun t => Pos.eqb (tid t) id) (timers st)))
    by (rewrite H; now left).
  apply filter_In in Hin. exact Hin.
Qed.


(** *** The loop guard under firing *)

Lemma fire_guard_off (t : Timer) (st : AppState) :
  isRemoteOp st = false -> isRemoteOp (fst (fire t st)) = false.
Proof.
  intros H. rewrite fire_guard. destruct (existsb _ _), (callback t); auto.
Qed.

Lemma fire_all_guard_off (ts : list Timer) (st : AppState) :
  isRemoteOp st = false -> isRemoteOp (fst (fire_all ts st)) = false.
Proof.
  revert st. induction ts as [|t ts IH]; intros st H; cbn [fire_all seq skip fst snd].
  - exact H.
  - now apply IH, fire_guard_off.
Qed.


Lemma elapse_unfold (st : AppState) :
  elapse st =
  fire_all (filter (fun t => Nat.eqb (due t) (S (clock st))) (timers st))
    (set_clock (S (clock st)) st).
Proof. reflexivity. Qed.

Lemma elapse_guard_off (st : AppState) :
  isRemoteOp st = false -> isRemoteOp (fst (elapse st)) = false.
Proof. intros H. rewrite elapse_unfold. now apply fire_all_guard_off. Qed.









Lemma filter_swap {A : Type} (p q : A -> bool) (l : list A) :
  filter p (filter q l) = filter q (filter p l).
Proof.
  induction l as [|x l IH]; [reflexivity|]. cbn.
  destruct (p x) eqn:Ep, (q x) eqn:Eq; cbn; rewrite ?Ep, ?Eq, ?IH; reflexivity.
Qed.

(** *** Counting heartbeats *)

Lemma tick_output_refs (a b : AppState) :
  same_refs a b -> tick_output a = tick_output b.
Proof.
  intros H. unfold tick_output, heartbeatTick.
  destruct H as (_ & _ & _ & Hv & _ & _ & Hd & _). rewrite Hv, Hd.
  destruct (videoRef b), (dataConnRef b) as [c|]; try reflexivity.
  now destruct (open c).
Qed.

Lemma heartbeatTick_state (st : AppState) : fst (heartbeatTick st) = st.
Proof.
  unfold heartbeatTick.
  destruct (videoRef st), (dataConnRef st) as [c|]; try reflexivity.
  now destruct (open c).
Qed.

Lemma fire_effects (t : Timer) (st : AppState) :
  snd (fire t st) =
  if existsb (fun t' => Pos.eqb (tid t') (tid t)) (timers st)
  then match callback t with
       | HeartbeatTick => tick_output st
       | ResetRemoteOp => []
       end
  else [].
Proof.
  unfold fire. destruct (existsb _ (timers st)); [|reflexivity].
  destruct (callback t); [|reflexivity].
  destruct (period t); apply tick_output_refs; repeat split.
Qed.

Section OneHeartbeat.

Variable hid : positive.

Lemma lone_heartbeat_other (D : nat) (t : Timer) (st : AppState) :
  lone_heartbeat hid D st -> tid t <> hid -> callback t = ResetRemoteOp ->
  snd (fire t st) = [] /\ lone_heartbeat hid D (fst (fire t st)).
Proof.
  intros [Hwh Hoth] Hne Hcb. split.
  - rewrite fire_effects, Hcb. now destruct (existsb _ _).
  - split.
    + now rewrite fire_with_handle_other.
    + intros t' Hin Hne'. rewrite fire_timers in Hin.
      destruct (fired_in _ _ _ Hin) as (t0 & Hin0 & Ht & Hc & _).
      rewrite Hc. apply Hoth; [exact Hin0|congruence].
Qed.

Lemma filter_handle_map_same (f : Timer -> Timer) (ts : list Timer) :
  (forall t, tid (f t) = tid t) ->
  filter (fun t => Pos.eqb (tid t) hid)
    (map (fun t => if Pos.eqb (tid t) hid then f t else t) ts) =
  map f (filter (fun t => Pos.eqb (tid t) hid) ts).
Proof.
  intros Hf. induction ts as [|t ts IH]; [reflexivity|]. cbn.
  destruct (Pos.eqb (tid t) hid) eqn:E.
  - rewrite Hf, E. cbn. now rewrite IH.
  - rewrite E. exact IH.
Qed.

Lemma lone_heartbeat_fire (D : nat) (st : AppState) :
  lone_heartbeat hid D st ->
  snd (fire (heartbeat_timer hid D) st) = tick_output st /\
  lone_heartbeat hid (D + 1000) (fst (fire (heartbeat_timer hid D) st)).
Proof.
  intros [Hwh Hoth].
  pose proof (with_handle_active hid _ _ st Hwh) as Hact.
  split.
  - rewrite fire_effects. cbn [tid heartbeat_timer callback]. now rewrite Hact.
  - split.
    + unfold with_handle. rewrite fire_timers. unfold fired.
      cbn [tid heartbeat_timer period]. rewrite Hact.
      rewrite (filter_handle_map_same
                 (fun t' => {| tid := tid t'; due := due t' + 1000;
                               period := period t'; callback := callback t' |}))
        by reflexivity.
      unfold with_handle in Hwh. rewrite Hwh. reflexivity.
    + intros t' Hin Hne'. rewrite fire_timers in Hin.
      destruct (fired_in _ _ _ Hin) as (t0 & Hin0 & Ht & Hc & _).
      rewrite Hc. apply Hoth; [exact Hin0|congruence].
Qed.

(** A batch without the heartbeat timer sends nothing. *)
Lemma batch_without_heartbeat (D : nat) (ts : list Timer) (st : AppState) :
  lone_heartbeat hid D st ->
  (forall t, In t ts -> tid t <> hid /\ callback t = ResetRemoteOp) ->
  snd (fire_all ts st) = [] /\ lone_heartbeat hid D (fst (fire_all ts st)).
Proof.
  revert st. induction ts as [|t ts IH]; intros st HK Hts;
    cbn [fire_all seq skip fst snd]; [auto|].
  destruct (Hts t (or_introl eq_refl)) as [Hne Hcb].
  destruct (lone_heartbeat_other D t st HK Hne Hcb) as [He HK'].
  destruct (IH (fst (fire t st)) HK') as [He' HK'']; [intros; apply Hts; now right|].
  rewrite He, He'. auto.
Qed.

(** A batch with the heartbeat timer in it once sends one tick. *)
Lemma batch_with_heartbeat (D : nat) (ts : list Timer) (st : AppState) :
  lone_heartbeat hid D st ->
  filter (fun t => Pos.eqb (tid t) hid) ts = [heartbeat_timer hid D] ->
  (forall t, In t ts -> tid t <> hid -> callback t = ResetRemoteOp) ->
  snd (fire_all ts st) = tick_output st /\
  lone_heartbeat hid (D + 1000) (fst (fire_all ts st)).
Proof.
  revert st. induction ts as [|t ts IH]; intros st HK Hf Hts; [discriminate|].
  cbn [fire_all seq skip fst snd]. cbn [filter] in Hf.
  destruct (Pos.eqb_spec (tid t) hid) as [E|E].
  - injection Hf as -> Hrest.
    destruct (lone_heartbeat_fire D st HK) as [He HK'].
    destruct (batch_without_heartbeat (D + 1000) ts _ HK') as [He' HK''].
    { intros t Ht. assert (Hne : tid t <> hid).
      { intros E'. assert (Hin : In t (filter (fun t => Pos.eqb (tid t) hid) ts))
          by (apply filter_In; split; [exact Ht|now apply Pos.eqb_eq]).
        now rewrite Hrest in Hin. }
      split; [exact Hne|]. apply Hts; [now right|exact Hne]. }
    rewrite He, He', app_nil_r. auto.
  - destruct (lone_heartbeat_other D t st HK E) as [He HK'];
      [apply Hts; [now left|exact E]|].
    destruct (IH (fst (fire t st)) HK' Hf) as [He' HK''];
      [intros; apply Hts; [now right|assumption]|].
    rewrite He, He'. cbn. split; [|exact HK''].
    apply tick_output_refs, fire_refs.
Qed.

Lemma lone_heartbeat_elapse (D : nat) (st : AppState) :
  lone_heartbeat hid D st ->
  snd (elapse st) = (if Nat.eqb D (S (clock st)) then tick_output st else []) /\
  lone_heartbeat hid (if Nat.eqb D (S (clock st)) then D + 1000 else D) (fst (elapse st)).
Proof.
  intros HK. rewrite elapse_unfold.
  assert (HK1 : lone_heartbeat hid D (set_clock (S (clock st)) st)) by exact HK.
  destruct HK as [Hwh Hoth].
  assert (Hf : filter (fun t => Pos.eqb (tid t) hid)
                 (filter (fun t => Nat.eqb (due t) (S (clock st))) (timers st)) =
               filter (fun t => Nat.eqb (due t) (S (clock st)))
                 [heartbeat_timer hid D]).
  { unfold with_handle in Hwh. now rewrite filter_swap, Hwh. }
  cbn [filter heartbeat_timer due] in Hf.
  assert (Hoth' : forall t,
            In t (filter (fun t => Nat.eqb (due t) (S (clock st))) (timers st)) ->
            tid t <> hid -> callback t = ResetRemoteOp).
  { intros t Ht. apply filter_In in Ht. now apply Hoth. }
  destruct (Nat.eqb D (S (clock st))) eqn:E.
  - destruct (batch_with_heartbeat D _ _ HK1 Hf Hoth') as [H1 H2].
    split; [rewrite H1; apply tick_output_refs; repeat split|exact H2].
  - apply (batch_without_heartbeat D _ _ HK1).
    intros t Ht. assert (Hne : tid t <> hid).
    { intros E'. assert (Hin : In t (filter (fun t => Pos.eqb (tid t) hid)
                (filter (fun t => Nat.eqb (due t) (S (clock st))) (timers st))))
        by (apply filter_In; split; [exact Ht|now apply Pos.eqb_eq]).
      now rewrite Hf in Hin. }
    split; [exact Hne|now apply Hoth'].
Qed.

(** From a deadline at most one period away, [n] ms of waiting see one
    tick per period, and leave the timer with its next deadline. *)
Lemma lone_heartbeat_wait (n : nat) :
  forall (D : nat) (st : AppState),
    lone_heartbeat hid D st -> clock st < D <= clock st + 1000 ->
    let q := (n + clock st + 1000 - D) / 1000 in
    snd (wait n st) = List.concat (repeat (tick_output st) q) /\
    lone_heartbeat hid (D + 1000 * q) (fst (wait n st)).
Proof.
  induction n as [|n IH]; intros D st HK HD; cbn [wait seq skip fst snd].
  - rewrite Nat.div_small by lia. cbn. now rewrite Nat.add_0_r.
  - destruct (lone_heartbeat_elapse D st HK) as [He HK'].
    destruct (elapse_refs st) as [Hrefs Hc].
    rewrite He. destruct (Nat.eqb_spec D (S (clock st))) as [E|E].
    + destruct (IH (D + 1000) _ HK') as [H1 H2]; [lia|].
      rewrite (tick_output_refs _ _ Hrefs), Hc in H1. rewrite Hc in H2.
      replace (n + S (clock st) + 1000 - (D + 1000)) with n in H1, H2 by lia.
      replace (S n + clock st + 1000 - D) with (n + 1 * 1000) by lia.
      rewrite Nat.div_add by lia. rewrite (Nat.add_comm (n / 1000) 1).
      rewrite H1. split; [reflexivity|].
      replace (D + 1000 * (1 + n / 1000)) with (D + 1000 + 1000 * (n / 1000)) by lia.
      exact H2.
    + destruct (IH D _ HK') as [H1 H2]; [lia|].
      rewrite (tick_output_refs _ _ Hrefs), Hc in H1. rewrite Hc in H2.
      replace (n + S (clock st) + 1000 - D) with (S n + clock st + 1000 - D)
        in H1, H2 by lia.
      rewrite H1. split; [reflexivity|exact H2].
Qed.

End OneHeartbeat.

(** With no heartbeat timer in the table, waiting produces no effect. *)
Lemma fire_all_resets_only (ts : list Timer) (st : AppState) :
  (forall t, In t ts -> callback t = ResetRemoteOp) ->
  snd (fire_all ts st) = [].
Proof.
  revert st. induction ts as [|t ts IH]; intros st Hts;
    cbn [fire_all seq skip fst snd]; [reflexivity|].
  rewrite fire_effects, (Hts t (or_introl eq_refl)), IH
    by (intros; apply Hts; now right).
  now destruct (existsb _ _).
Qed.

Lemma fire_all_preserves_resets (ts : list Timer) (st : AppState) :
  (forall t, In t (timers st) -> callback t = ResetRemoteOp) ->
  forall t, In t (timers (fst (fire_all ts st))) -> callback t = ResetRemoteOp.
Proof.
  revert st. induction ts as [|t ts IH]; intros st H; cbn [fire_all seq skip fst snd];
    [exact H|].
  apply IH. intros t' Hin. rewrite fire_timers in Hin.
  destruct (fired_in _ _ _ Hin) as (t0 & Hin0 & _ & Hc & _).
  rewrite Hc. now apply H.
Qed.

Lemma wait_resets_only (n : nat) (st : AppState) :
  (forall t, In t (timers st) -> callback t = ResetRemoteOp) ->
  snd (wait n st) = [].
Proof.
  revert st. induction n as [|n IH]; intros st H; cbn [wait seq skip fst snd];
    [reflexivity|].
  rewrite IH.
  - rewrite elapse_unfold, fire_all_resets_only; [reflexivity|].
    intros t Ht. apply filter_In in Ht. now apply H.
  - rewrite elapse_unfold. now apply fire_all_preserves_resets.
Qed.

Lemma fresh_with_handle_timers (st : AppState) (extra : list Timer) :
  wf st ->
  filter (fun t => Pos.eqb (tid t) (next_timer st)) (timers st ++ extra) =
  filter (fun t => Pos.eqb (tid t) (next_timer st)) extra.
Proof.
  intros [Hfresh _]. rewrite filter_app.
  replace (filter _ (timers st)) with (@nil Timer); [reflexivity|].
  symmetry. induction (timers st) as [|t ts IH]; [reflexivity|]. cbn.
  destruct (Pos.eqb_spec (tid t) (next_timer st)) as [E|E].
  - specialize (Hfresh t (or_introl eq_refl)). lia.
  - apply IH. intros t' Ht'. apply Hfresh. now right.
Qed.

(** ** Commands received by the Client and by the Host *)

Section Handlers.

Variable StringToNumber : string -> number.

Abbreviation handle := (handleSyncCommand StringToNumber).
Abbreviation on_data := (dataConn_onData StringToNumber).

Lemma handle_client_heartbeat (st : AppState) (v : Video) (ts : number) :
  isHostRef st = false -> remoteVideoRef st = Some v ->
  handle (wire {| type := HEARTBEAT; timestamp := ts |}) st =
  ((if js_gt (Math_abs (js_sub (currentTime v) ts)) half
    then addLog [Str "Drift: "; Fixed2 (Math_abs (js_sub (currentTime v) ts)); Str "s"]
    else skip) ;;
   (if js_gt (Math_abs (js_sub (currentTime v) ts)) one
    then addLog [Str "Syncing drift: ";
                 Fixed2 (Math_abs (js_sub (currentTime v) ts)); Str "s"] ;;
         assign_currentTime StringToNumber RemoteVideo (JsNumber ts)
    else skip)) st.
Proof.
  intros Hrole Hv. unfold handleSyncCommand. rewrite Hrole. cbn [video_at].
  rewrite Hv. reflexivity.
Qed.

(** C1 (amended). A HEARTBEAT received by the Client, with drift
    [d = |position - timestamp|]: if [d <= 0.5] the state is unchanged and
    nothing is logged; if [0.5 < d <= 1] the only effect is the drift
    diagnostic and the state is unchanged; if [d > 1] and the timestamp is
    finite the position is assigned the timestamp, exactly once. *)
Theorem heartbeat_drift_bands (st : AppState) (v : Video) (ts : number) :
  isHostRef st = false -> remoteVideoRef st = Some v ->
  let d := Math_abs (js_sub (currentTime v) ts) in
  let r := handle (wire {| type := HEARTBEAT; timestamp := ts |}) st in
  (js_le d half = true -> r = (st, [])) /\
  (js_gt d half = true -> js_le d one = true ->
     r = (st, [Log [Str "Drift: "; Fixed2 d; Str "s"]])) /\
  (js_gt d one = true -> js_isFinite ts = true ->
     fst r = set_remoteVideoRef (Some (with_currentTime ts v)) st /\
     position RemoteVideo (fst r) = Some ts /\
     seeks RemoteVideo (snd r) = 1 /\
     snd r = [Log [Str "Drift: "; Fixed2 d; Str "s"];
              Log [Str "Syncing drift: "; Fixed2 d; Str "s"];
              Player RemoteVideo (AssignCurrentTime (JsNumber ts))]).
Proof.
  intros Hrole Hv d r. subst r.
  rewrite (handle_client_heartbeat st v ts Hrole Hv). fold d.
  split; [|split].
  - intros Hle.
    rewrite (js_le_not_gt _ _ Hle), (js_le_half_not_gt_one _ Hle). reflexivity.
  - intros Hgt Hle. rewrite Hgt, (js_le_not_gt _ _ Hle). reflexivity.
  - intros Hgt Hfin. rewrite Hgt, (js_gt_one_half _ Hgt).
    unfold seq, addLog, emit, assign_currentTime. cbn [fst snd video_at ToNumber].
    rewrite Hv, Hfin. cbn. repeat split; reflexivity.
Qed.

(** C8. A PLAY, PAUSE or SEEK received by the Client changes nothing: the
    state, and so the position of the Client's player, is the one before,
    and the only effect of the data handler is its "Received" line. *)
Theorem client_ignores_non_heartbeat (st : AppState) (ty : CommandType) (ts : number) :
  isHostRef st = false -> ty <> HEARTBEAT ->
  let cmd := wire {| type := ty; timestamp := ts |} in
  handle cmd st = (st, []) /\
  on_data (Props cmd) st =
    (st, [Log [Str "Received: "; Val (JsString (type_name ty))]]) /\
  position RemoteVideo (fst (on_data (Props cmd) st)) = position RemoteVideo st.
Proof.
  intros Hrole Hty cmd.
  assert (H : handle cmd st = (st, [])).
  { unfold handleSyncCommand, cmd. rewrite Hrole. cbn [video_at].
    destruct (remoteVideoRef st); [|reflexivity].
    destruct ty; try congruence; reflexivity. }
  assert (H' : on_data (Props cmd) st =
               (st, [Log [Str "Received: "; Val (JsString (type_name ty))]])).
  { unfold dataConn_onData, seq, cmd, wire in *.
    destruct ty; try congruence; cbn [type type_name timestamp] in *;
      cbn [data_type strict_eq_string String.eqb Ascii.eqb Bool.eqb negb
           addLog emit fst snd]; rewrite H; reflexivity. }
  rewrite H'. auto.
Qed.

Lemma handle_host_seek (st : AppState) (v : Video) (raw : JsValue) :
  isHostRef st = true -> videoRef st = Some v ->
  handle {| data_type := JsString "SEEK"; data_timestamp := raw |} st =
  (modify (set_isRemoteOp true) ;;
   addLog [Str "Exec: "; Val (JsString "SEEK")] ;;
   (if js_gt (Math_abs (js_sub (currentTime v) (ToNumber StringToNumber raw))) half
    then assign_currentTime StringToNumber HostVideo raw
    else skip) ;;?
   modify (window_setTimeout ResetRemoteOp 300)) st.
Proof.
  intros Hrole Hv. unfold handleSyncCommand. rewrite Hrole. cbn [video_at].
  rewrite Hv. reflexivity.
Qed.

(** The three ways a SEEK ends on the Host: within the tolerance nothing is
    assigned; beyond it a finite timestamp is stored; beyond it a timestamp
    that is not finite is refused, and the reset of the guard is never
    scheduled. *)
Lemma handle_host_seek_cases (st : AppState) (v : Video) (raw : JsValue) :
  isHostRef st = true -> videoRef st = Some v ->
  let x := ToNumber StringToNumber raw in
  let d := Math_abs (js_sub (currentTime v) x) in
  handle {| data_type := JsString "SEEK"; data_timestamp := raw |} st =
  if js_gt d half then
    if js_isFinite x then
      (window_setTimeout ResetRemoteOp 300
         (set_videoRef (Some (with_currentTime x v)) (set_isRemoteOp true st)),
       [Log [Str "Exec: "; Val (JsString "SEEK")];
        Player HostVideo (AssignCurrentTime raw)])
    else
      (set_isRemoteOp true st,
       [Log [Str "Exec: "; Val (JsString "SEEK")]; Uncaught "TypeError"])
  else
    (window_setTimeout ResetRemoteOp 300 (set_isRemoteOp true st),
     [Log [Str "Exec: "; Val (JsString "SEEK")]]).
Proof.
  intros Hrole Hv x d. rewrite (handle_host_seek st v raw Hrole Hv). fold x d.
  destruct (js_gt d half); [|reflexivity].
  unfold seq, seq_unless_thrown, modify, addLog, emit, assign_currentTime, throw.
  cbn [fst snd video_at videoRef set_isRemoteOp]. rewrite Hv. fold x.
  destruct (js_isFinite x); cbn; rewrite ?Hv; reflexivity.
Qed.

(** C10. A SEEK received by the Host changes the position only when
    [|position - timestamp| > 0.5]: at a difference of at most [0.5] the
    position is the one before and nothing is assigned, and a position that
    changed means the difference was above [0.5] (and the timestamp finite).
    Beyond the tolerance a finite timestamp is assigned to the position,
    once, and one that is not finite is refused by the element: nothing is
    assigned and the position is the one before. *)
Theorem host_seek_tolerance (st : AppState) (v : Video) (ts : number) :
  isHostRef st = true -> videoRef st = Some v ->
  let d := Math_abs (js_sub (currentTime v) ts) in
  let r := handle (wire {| type := SEEK; timestamp := ts |}) st in
  (js_gt d half = true -> js_isFinite ts = true ->
     position HostVideo (fst r) = Some ts /\ seeks HostVideo (snd r) = 1) /\
  (js_le d half = true ->
     videoRef (fst r) = videoRef st /\ seeks HostVideo (snd r) = 0) /\
  (position HostVideo (fst r) <> position HostVideo st ->
     js_gt d half = true /\ js_isFinite ts = true) /\
  (js_gt d half = true -> js_isFinite ts = false ->
     videoRef (fst r) = videoRef st /\ seeks HostVideo (snd r) = 0 /\
     threw (snd r) = true).
Proof.
  intros Hrole Hv d r. subst r. unfold wire. cbn [type timestamp type_name].
  rewrite (handle_host_seek_cases st v (JsNumber ts) Hrole Hv). cbn [ToNumber].
  fold d. unfold position. cbn [video_at].
  destruct (js_gt d half) eqn:Hd; [destruct (js_isFinite ts) eqn:Hf|];
    cbn [fst snd]; (split; [|split; [|split]]);
    try (intros; discriminate);
    try (intros Hle; apply js_le_not_gt in Hle; congruence);
    try (intros; split; [|split]; reflexivity);
    try (intros; split; reflexivity);
    try (intros H; exfalso; apply H; cbn; now rewrite ?Hv).
Qed.


Lemma on_data_unfold (d : Data) (st : AppState) :
  on_data (Props d) st =
  if strict_eq_string (data_type d) "HEARTBEAT"
  then handle d st
  else (fst (handle d st), Log [Str "Received: "; Val (data_type d)] :: snd (handle d st)).
Proof.
  unfold dataConn_onData, seq.
  destruct (strict_eq_string (data_type d) "HEARTBEAT"); cbn.
  - now destruct (handle d st).
  - reflexivity.
Qed.


(** Everything a received payload can cause. *)
Lemma on_data_effects (d : Data) (st : AppState) (e : Effect) :
  In e (snd (on_data (Props d) st)) ->
  e = Log [Str "Received: "; Val (data_type d)] \/
  e = Log [Str "Exec: "; Val (data_type d)] \/
  (exists x, e = Log [Str "Drift: "; Fixed2 x; Str "s"]) \/
  (exists x, e = Log [Str "Syncing drift: "; Fixed2 x; Str "s"]) \/
  (exists slot, e = Player slot CallPlay \/ e = Player slot CallPause \/
                e = Player slot (AssignCurrentTime (data_timestamp d))) \/
  e = Uncaught "TypeError".
Proof.
  rewrite on_data_unfold. unfold handleSyncCommand.
  destruct (isHostRef st) eqn:Hrole; cbn [video_at];
    [destruct (videoRef st) as [v|] eqn:Hv
    |destruct (remoteVideoRef st) as [v|] eqn:Hv];
    destruct (strict_eq_string (data_type d) "HEARTBEAT");
    try destruct (strict_eq_string (data_type d) "PLAY");
    try destruct (strict_eq_string (data_type d) "PAUSE");
    try destruct (strict_eq_string (data_type d) "SEEK");
    try destruct (js_gt (drift_of StringToNumber v d) half);
    try destruct (js_gt (drift_of StringToNumber v d) one);
    unfold assign_currentTime, seq_unless_thrown, throw; cbn; try rewrite Hv; cbn;
    try destruct (js_isFinite (ToNumber StringToNumber (data_timestamp d)));
    cbn; try rewrite Hv; cbn; intros Hin;
    repeat (destruct Hin as [Hin|Hin]; [subst e; eauto 12|]);
    try contradiction.
Qed.




Lemma sendCommand_effects (ty : CommandType) (ts : number) (st : AppState) :
  snd (sendCommand ty ts st) =
  match dataConnRef st with
  | None => [Log [Str "Send Fail: No Conn"]]
  | Some c =>
      if open c then
        if isRemoteOp st then [Log [Str "Send Skip: RemoteOp"]]
        else [Log [Str "Sending: "; Val (JsString (type_name ty))];
              Send (conn_id c) {| type := ty; timestamp := ts |}]
      else [Log [Str "Send Fail: Conn Closed"]]
  end /\ fst (sendCommand ty ts st) = st.
Proof.
  unfold sendCommand. destruct (dataConnRef st) as [c|]; [|split; reflexivity].
  destruct (open c), (isRemoteOp st); split; reflexivity.
Qed.


End Handlers.

(** ** Invariants of the reachable states *)

(** Unfolds the handlers and splits on what they test. *)
Ltac state_red :=
  cbn [fst snd app seq modify emit skip addLog setStatus throw register video_at
       set_video_at seq_unless_thrown threw existsb is_uncaught orb
       setupDataConnection window_setTimeout window_setInterval clearInterval render
       view remoteId isHostRef videoRef remoteVideoRef peerRef dataConnRef isRemoteOp
       heartbeatInterval cancelled listeners clock timers next_timer
       set_view set_remoteId set_isHostRef set_videoRef set_remoteVideoRef set_peerRef
       set_dataConnRef set_isRemoteOp set_heartbeatInterval set_cancelled set_listeners
       set_clock set_timers set_next_timer] in *.

Ltac branch :=
  match goal with
  | |- context [match ?x with _ => _ end] => destruct x eqn:?
  end.

Ltac handlers :=
  unfold dataConn_onData, handleSyncCommand, dataConn_onOpen, dataConn_onClose,
    dataConn_onError, host_onOpen, client_onOpen, peer_onOpen, peer_onError,
    peer_onConnection, peer_onCall, call_onStream, connectToHost, handleFileChange,
    restartStream, onPlay, onPause, onSeeked, onVideoEvent, sendCommand,
    startHeartbeat, stopHeartbeat, assign_currentTime in *;
  repeat first [progress state_red | branch].


Lemma wf_same (a b : AppState) :
  timers a = timers b -> next_timer a = next_timer b ->
  heartbeatInterval a = heartbeatInterval b -> wf b -> wf a.
Proof. unfold wf. intros -> -> ->. auto. Qed.

Lemma view_inv_same (a b : AppState) :
  view a = view b -> isHostRef a = isHostRef b -> cancelled a = cancelled b ->
  (videoRef a = None <-> videoRef b = None) ->
  (remoteVideoRef a = None <-> remoteVideoRef b = None) ->
  view_inv b -> view_inv a.
Proof.
  unfold view_inv, mounted. intros -> -> -> Hv Hr.
  destruct (view b), (cancelled b); intuition.
Qed.

Lemma startHeartbeat_wf (st : AppState) : wf st -> wf (fst (startHeartbeat st)).
Proof.
  intros [Hfresh Htracked]. unfold startHeartbeat, wf.
  destruct (heartbeatInterval st) as [old|] eqn:Hh; cbn; split; intros t Hin.
  - apply in_app_or in Hin. destruct Hin as [Hin|[<-|[]]]; cbn; [|lia].
    apply filter_In in Hin. specialize (Hfresh t (proj1 Hin)). lia.
  - apply in_app_or in Hin. destruct Hin as [Hin|[<-|[]]]; cbn; [|reflexivity].
    apply filter_In in Hin. destruct Hin as [Hin Hne]. intros Hcb.
    specialize (Htracked t Hin Hcb).
    injection Htracked as E. rewrite <- E, Pos.eqb_refl in Hne. discriminate.
  - apply in_app_or in Hin. destruct Hin as [Hin|[<-|[]]]; cbn; [|lia].
    specialize (Hfresh t Hin). lia.
  - apply in_app_or in Hin. destruct Hin as [Hin|[<-|[]]]; cbn; [|reflexivity].
    intros Hcb. specialize (Htracked t Hin Hcb). congruence.
Qed.

Lemma stopHeartbeat_wf (st : AppState) : wf st -> wf (fst (stopHeartbeat st)).
Proof.
  intros [Hfresh Htracked]. unfold stopHeartbeat, wf.
  destruct (heartbeatInterval st) as [old|] eqn:Hh; cbn; [|rewrite Hh; auto].
  split; intros t Hin; apply filter_In in Hin; destruct Hin as [Hin Hne].
  - now apply Hfresh.
  - intros Hcb. specialize (Htracked t Hin Hcb).
    injection Htracked as E. rewrite <- E, Pos.eqb_refl in Hne. discriminate.
Qed.

Lemma setTimeout_wf (ms : nat) (st : AppState) :
  wf st -> wf (window_setTimeout ResetRemoteOp ms st).
Proof.
  intros [Hfresh Htracked]. unfold window_setTimeout, wf. cbn.
  split; intros t Hin; apply in_app_or in Hin; destruct Hin as [Hin|[<-|[]]]; cbn.
  - specialize (Hfresh t Hin). lia.
  - lia.
  - now apply Htracked.
  - discriminate.
Qed.

Lemma fire_all_wf (ts : list Timer) (st : AppState) :
  wf st -> wf (fst (fire_all ts st)).
Proof.
  revert st. induction ts as [|t ts IH]; intros st H; cbn [fire_all seq skip fst snd];
    [exact H|].
  apply IH. destruct H as [Hfresh Htracked].
  destruct (fire_refs t st) as [(_ & _ & _ & _ & _ & _ & _ & Hh & _ & _ & Hn) _].
  split; intros t' Hin; rewrite fire_timers in Hin;
    destruct (fired_in _ _ _ Hin) as (t0 & Hin0 & Ht & Hc & _).
  - rewrite Hn, Ht. now apply Hfresh.
  - rewrite Hh, Ht, Hc. now apply Htracked.
Qed.

Lemma elapse_wf (st : AppState) : wf st -> wf (fst (elapse st)).
Proof. intros H. rewrite elapse_unfold. now apply fire_all_wf. Qed.

Lemma dispatch_preserves (P : AppState -> Prop) (h : Listener -> Action)
  (ls : list (nat * Listener)) (id : nat) (st : AppState) :
  (forall l s, P s -> P (fst (h l s))) -> P st -> P (fst (dispatch ls id h st)).
Proof.
  intros Hh. revert st. induction ls as [|[i l] ls IH]; intros st H; cbn [dispatch];
    [exact H|].
  destruct (Nat.eqb i id); [|now apply IH].
  unfold seq_unless_thrown. destruct (threw (snd (h l st))); [now apply Hh|].
  cbn [seq fst snd]. now apply IH, Hh.
Qed.

Lemma wf_timeout_shape (st s' : AppState) :
  wf st ->
  timers s' = timers st ++ [guard_reset st] ->
  next_timer s' = Pos.succ (next_timer st) ->
  heartbeatInterval s' = heartbeatInterval st -> wf s'.
Proof.
  intros H Ht Hn Hh.
  apply (wf_same _ (window_setTimeout ResetRemoteOp 300 st)); auto.
  now apply setTimeout_wf.
Qed.

Ltac same_view st :=
  apply (view_inv_same _ st);
  [reflexivity | reflexivity | reflexivity
  | cbn; split; intros; try congruence
  | cbn; split; intros; try congruence
  | assumption].

Ltac same_wf st :=
  apply (wf_same _ st); [reflexivity | reflexivity | reflexivity | assumption].

Section Invariants.

Variable StringToNumber : string -> number.

Lemma handle_inv (d : Data) (st : AppState) :
  inv st -> inv (fst (handleSyncCommand StringToNumber d st)).
Proof.
  intros [Hwf Hview]. unfold handleSyncCommand.
  destruct (isHostRef st) eqn:Hrole; cbn [video_at].
  - destruct (videoRef st) as [v|] eqn:Hv; [|now split].
    destruct (strict_eq_string (data_type d) "HEARTBEAT"); [now split|].
    destruct (strict_eq_string (data_type d) "PLAY");
      [|destruct (strict_eq_string (data_type d) "PAUSE");
        [|destruct (strict_eq_string (data_type d) "SEEK");
          [destruct (js_gt (drift_of StringToNumber v d) half)|]]];
      unfold assign_currentTime, seq_unless_thrown, throw; cbn; try rewrite Hv; cbn;
      try destruct (js_isFinite (ToNumber StringToNumber (data_timestamp d)));
      cbn; try rewrite Hv; cbn;
      (split; [first [apply (wf_timeout_shape st); now auto | same_wf st]
              | same_view st]).
  - destruct (remoteVideoRef st) as [v|] eqn:Hv; [|now split].
    destruct (strict_eq_string (data_type d) "HEARTBEAT"); [|now split].
    destruct (js_gt (drift_of StringToNumber v d) half),
             (js_gt (drift_of StringToNumber v d) one);
      unfold assign_currentTime, throw; cbn; try rewrite Hv; cbn;
      try destruct (js_isFinite (ToNumber StringToNumber (data_timestamp d)));
      cbn; (split; [same_wf st | same_view st]).
Qed.

Lemma restartStream_state (m : MediaEnv) (st : AppState) :
  fst (restartStream m st) = st.
Proof.
  unfold restartStream.
  destruct (isHostRef st), (peerRef st), (dataConnRef st), (videoRef st);
    try reflexivity.
  destruct (capture m) as [msg|stream [|t0 tracks]], (call m); reflexivity.
Qed.

Lemma sendCommand_state (ty : CommandType) (ts : number) (st : AppState) :
  fst (sendCommand ty ts st) = st.
Proof.
  unfold sendCommand. destruct (dataConnRef st) as [c|]; [|reflexivity].
  destruct (open c), (isRemoteOp st); reflexivity.
Qed.

Lemma onVideoEvent_state (ty : CommandType) (st : AppState) :
  fst (onVideoEvent ty st) = st.
Proof.
  unfold onVideoEvent. destruct (videoRef st); [apply sendCommand_state|reflexivity].
Qed.

Lemma startHeartbeat_view (st : AppState) :
  view_inv st -> view_inv (fst (startHeartbeat st)).
Proof.
  intros H. unfold startHeartbeat.
  destruct (heartbeatInterval st); cbn; same_view st.
Qed.

Lemma stopHeartbeat_view (st : AppState) :
  view_inv st -> view_inv (fst (stopHeartbeat st)).
Proof.
  intros H. unfold stopHeartbeat.
  destruct (heartbeatInterval st); cbn; [same_view st|exact H].
Qed.

Lemma startHeartbeat_inv (st : AppState) : inv st -> inv (fst (startHeartbeat st)).
Proof. intros [H1 H2]. split; [now apply startHeartbeat_wf|now apply startHeartbeat_view]. Qed.

Lemma stopHeartbeat_inv (st : AppState) : inv st -> inv (fst (stopHeartbeat st)).
Proof. intros [H1 H2]. split; [now apply stopHeartbeat_wf|now apply stopHeartbeat_view]. Qed.

Lemma elapse_inv (st : AppState) : inv st -> inv (fst (elapse st)).
Proof.
  intros [H1 H2]. split; [now apply elapse_wf|].
  destruct (elapse_refs st) as [(Hv & _ & Hr & Hvid & Hrv & _ & _ & _ & Hc & _) _].
  apply (view_inv_same _ st); auto; [now rewrite Hvid|now rewrite Hrv].
Qed.

Lemma handleFileChange_inv (f : option File) (m : MediaEnv) (st : AppState) :
  view st = HOST -> inv st -> inv (fst (handleFileChange f m st)).
Proof.
  intros Hview Hinv. unfold handleFileChange.
  destruct f as [file|]; [|exact Hinv].
  destruct (negb _ && negb _); [exact Hinv|].
  destruct (videoRef st) as [v|] eqn:Hv; [|exact Hinv].
  cbn [seq modify emit fst snd].
  set (st1 := set_isHostRef true (set_videoRef (Some (with_src (file_url file) v)) st)).
  assert (H1 : inv st1).
  { destruct Hinv as [Hwf Hvi]. split; [same_wf st|].
    unfold view_inv, mounted in *. cbn. rewrite Hview in *.
    destruct (cancelled st); intuition congruence. }
  destruct (dataConnRef st1) as [c|]; [|exact H1].
  destruct (peerRef st1); [|exact H1].
  destruct (open c); [|exact H1].
  cbn [seq addLog emit fst snd].
  destruct (capture m); [exact H1|]. destruct (call m); [exact H1|].
  cbn [seq addLog emit fst snd]. now apply startHeartbeat_inv.
Qed.

Lemma dataConn_onOpen_inv (c : DataConnection) (st : AppState) :
  inv st -> inv (fst (dataConn_onOpen c st)).
Proof.
  intros H. unfold dataConn_onOpen. cbn [seq addLog emit fst snd].
  destruct (isHostRef st); [now apply startHeartbeat_inv|exact H].
Qed.

Lemma dataConn_onClose_inv (st : AppState) : inv st -> inv (fst (dataConn_onClose st)).
Proof. intros H. now apply stopHeartbeat_inv. Qed.

Lemma dataConn_onError_inv (err : string) (st : AppState) :
  inv st -> inv (fst (dataConn_onError err st)).
Proof. intros H. now apply stopHeartbeat_inv. Qed.

Lemma dataConn_onData_inv (p : Payload) (st : AppState) :
  inv st -> inv (fst (dataConn_onData StringToNumber p st)).
Proof.
  intros H. destruct p as [|d]; [exact H|]. unfold dataConn_onData. cbn [seq fst snd].
  apply handle_inv. now destruct (negb _).
Qed.

Lemma conn_becomes_inv (id : nat) (b : bool) (st : AppState) :
  inv st -> inv (conn_becomes id b st).
Proof.
  intros [H1 H2]. unfold conn_becomes.
  destruct (dataConnRef st) as [c|]; [|now split].
  destruct (Nat.eqb (conn_id c) id); [|now split].
  split; [same_wf st|same_view st].
Qed.

Lemma host_onOpen_inv (c : DataConnection) (m : MediaEnv) (st : AppState) :
  inv st -> inv (fst (host_onOpen c m st)).
Proof.
  intros H. unfold host_onOpen. destruct (cancelled st); [exact H|].
  cbn [seq setStatus emit fst snd].
  destruct (videoRef st); [|exact H].
  destruct (capture m); [exact H|]. now destruct (call m).
Qed.

Lemma client_onOpen_inv (c : DataConnection) (st : AppState) :
  inv st -> inv (fst (client_onOpen c st)).
Proof. intros [H1 H2]. cbn. split; [same_wf st|same_view st]. Qed.

(** Every event keeps the invariants. *)
Lemma step_inv (e : Event) (st : AppState) :
  inv st -> inv (fst (step StringToNumber e st)).
Proof.
  intros Hinv. unfold step.
  destruct (from_dom e && cancelled st) eqn:Hlive; [exact Hinv|].
  unfold handle_event.
  destruct e; cbn [from_dom andb] in Hlive;
    destruct (view st) eqn:Hview; try exact Hinv.
  all: try (now apply handleFileChange_inv).
  all: try (rewrite restartStream_state; exact Hinv).
  all: try (rewrite sendCommand_state; exact Hinv).
  all: try (unfold onPlay, onPause, onSeeked; rewrite onVideoEvent_state; exact Hinv).
  all: try (now apply elapse_inv).
  all: try (apply dispatch_preserves;
            [intros [] s Hs; cbn [fst skip];
             auto using dataConn_onOpen_inv, host_onOpen_inv, client_onOpen_inv,
               dataConn_onData_inv, dataConn_onClose_inv, dataConn_onError_inv
            |auto using conn_becomes_inv]).
  all: destruct Hinv as [Hwf Hvi].
  all: unfold view_inv, mounted in Hvi; rewrite Hview in Hvi.
  all: try (cbn; split;
            [same_wf st
            |unfold view_inv, mounted; cbn; rewrite ?Hlive in *; intuition congruence]).
  all: unfold connectToHost, peer_onOpen, peer_onError, peer_onConnection,
         peer_onCall, call_onStream, video_at, set_video_at, setupDataConnection.
  all: repeat (cbn [seq fst snd addLog emit modify skip setStatus];
               match goal with
               | |- context [match ?x with _ => _ end] => destruct x eqn:?
               end).
  all: cbn; try rewrite Hview.
  all: try (split; [first [assumption | same_wf st]|]).
  all: unfold view_inv, mounted; cbn; rewrite ?Hview;
    repeat match goal with
           | H : cancelled ?s = _ |- _ => rewrite H in *
           end;
    try match goal with
        | |- context [cancelled ?s] => destruct (cancelled s)
        end; intuition congruence.
Qed.

Lemma reachable_inv (st : AppState) : reachable StringToNumber st -> inv st.
Proof.
  induction 1 as [|e st _ IH]; [|now apply step_inv].
  split; [split; intros t []|]. cbn. auto.
Qed.

Lemma reachable_run (es : list Event) (st : AppState) :
  reachable StringToNumber st -> reachable StringToNumber (fst (run StringToNumber es st)).
Proof.
  revert st. induction es as [|e es IH]; intros st H; cbn [run seq skip fst snd];
    [exact H|].
  apply IH. now constructor.
Qed.

(** *** The role and the heartbeat handle along a step *)

Lemma handle_role (d : Data) (st : AppState) :
  role_kept st (fst (handleSyncCommand StringToNumber d st)) /\
  heartbeatInterval (fst (handleSyncCommand StringToNumber d st)) = heartbeatInterval st.
Proof.
  unfold handleSyncCommand, role_kept.
  destruct (isHostRef st) eqn:Hrole; cbn [video_at].
  - destruct (videoRef st) as [v|] eqn:Hv; [|auto].
    destruct (strict_eq_string (data_type d) "HEARTBEAT"); [auto|].
    destruct (strict_eq_string (data_type d) "PLAY");
      [|destruct (strict_eq_string (data_type d) "PAUSE");
        [|destruct (strict_eq_string (data_type d) "SEEK");
          [destruct (js_gt (drift_of StringToNumber v d) half)|]]];
      unfold assign_currentTime, seq_unless_thrown, throw; cbn; try rewrite Hv; cbn;
      try destruct (js_isFinite (ToNumber StringToNumber (data_timestamp d)));
      cbn; try rewrite Hv; cbn; auto.
  - destruct (remoteVideoRef st) as [v|] eqn:Hv; [|auto].
    destruct (strict_eq_string (data_type d) "HEARTBEAT"); [|auto].
    destruct (js_gt (drift_of StringToNumber v d) half),
             (js_gt (drift_of StringToNumber v d) one);
      unfold assign_currentTime, throw; cbn; try rewrite Hv; cbn;
      try destruct (js_isFinite (ToNumber StringToNumber (data_timestamp d)));
      cbn; auto.
Qed.

Lemma dataConn_onData_role (p : Payload) (st : AppState) :
  role_kept st (fst (dataConn_onData StringToNumber p st)) /\
  heartbeatInterval (fst (dataConn_onData StringToNumber p st)) = heartbeatInterval st.
Proof.
  destruct p as [|d]; [repeat split|].
  unfold dataConn_onData. cbn [seq fst snd].
  destruct (negb _); apply handle_role.
Qed.

Lemma startHeartbeat_role (st : AppState) :
  role_kept st (fst (startHeartbeat st)) /\
  dataConnRef (fst (startHeartbeat st)) = dataConnRef st.
Proof.
  unfold startHeartbeat, role_kept. destruct (heartbeatInterval st); cbn; auto.
Qed.

Lemma stopHeartbeat_role (st : AppState) :
  role_kept st (fst (stopHeartbeat st)) /\
  (heartbeatInterval (fst (stopHeartbeat st)) = heartbeatInterval st \/
   heartbeatInterval (fst (stopHeartbeat st)) = None).
Proof.
  unfold stopHeartbeat, role_kept. destruct (heartbeatInterval st) eqn:E; cbn; auto.
Qed.

Lemma along_refl (st : AppState) : along st st.
Proof. repeat split. now left. Qed.

Lemma along_role (st0 s s' : AppState) :
  along st0 s -> role_kept s s' ->
  (heartbeatInterval s' = heartbeatInterval s \/ heartbeatInterval s' = None \/
   isHostRef s' = true) ->
  along st0 s'.
Proof.
  unfold along, role_kept, heartbeat_by_host.
  intros ((Hv & Hr) & Hh) (Hv' & Hr') Hh'.
  repeat split; try congruence.
  destruct Hh' as [E|[E|E]]; auto.
  rewrite E. destruct Hh as [E'|[E'|E']]; auto. right. right. congruence.
Qed.

Lemma conn_becomes_along (id : nat) (b : bool) (st : AppState) :
  along st (conn_becomes id b st).
Proof.
  unfold conn_becomes. destruct (dataConnRef st) as [c0|]; [|apply along_refl].
  destruct (Nat.eqb (conn_id c0) id); [|apply along_refl].
  split; [split; reflexivity|now left].
Qed.

Lemma step_along (e : Event) (st : AppState) :
  (forall f m, e <> FileChange f m) ->
  e <> ClickHostCard -> e <> ClickClientCard -> e <> ClickExit ->
  along st (fst (step StringToNumber e st)).
Proof.
  intros Hfile Hhost Hclient Hexit. unfold step.
  destruct (from_dom e && cancelled st); [apply along_refl|]. unfold handle_event.
  destruct e; try congruence; try (now destruct (Hfile f m));
    destruct (view st) eqn:Hview; try apply along_refl.
  all: try (rewrite restartStream_state; apply along_refl).
  all: try (rewrite sendCommand_state; apply along_refl).
  all: try (unfold onPlay, onPause, onSeeked; rewrite onVideoEvent_state;
            apply along_refl).
  all: try (destruct (elapse_refs st) as [(Hv & _ & Hr & _ & _ & _ & _ & Hh & _) _];
            repeat split; auto; now left).
  all: try (apply dispatch_preserves;
            [intros [] s Hs; cbn [fst skip]; try exact Hs
            |try apply conn_becomes_along; apply along_refl]).
  all: try (unfold dataConn_onOpen; cbn [seq addLog emit fst snd];
            destruct (isHostRef s) eqn:Hs1;
            [destruct (startHeartbeat_role s) as [Hr _];
             apply (along_role st s _ Hs Hr); right; right;
             destruct Hr as [_ Hr]; congruence
            |exact Hs]).
  all: try (unfold host_onOpen; destruct (cancelled s); [exact Hs|];
            cbn [seq setStatus emit fst snd]; destruct (videoRef s); [|exact Hs];
            destruct (capture m); [exact Hs|]; destruct (call m); exact Hs).
  all: try (cbn; apply (along_role st s _ Hs); [split; reflexivity|now left]).
  all: try (destruct (dataConn_onData_role data s) as [Hr Hh];
            apply (along_role st s _ Hs Hr); now left).
  all: try (unfold dataConn_onClose, dataConn_onError; cbn [seq addLog emit fst snd];
            destruct (stopHeartbeat_role s) as [Hr Hh];
            apply (along_role st s _ Hs Hr); destruct Hh; auto).
  all: unfold connectToHost, peer_onOpen, peer_onError, peer_onConnection,
         peer_onCall, call_onStream, video_at, set_video_at, setupDataConnection.
  all: repeat (cbn [seq fst snd addLog emit modify skip setStatus];
               match goal with
               | |- context [match ?x with _ => _ end] => destruct x eqn:?
               end).
  all: unfold along, role_kept, heartbeat_by_host; cbn;
       (split; [split; reflexivity | now left]).
Qed.

Lemma handleFileChange_role (f : option File) (m : MediaEnv) (st : AppState) :
  let st' := fst (handleFileChange f m st) in
  view st' = view st /\
  (st' = st \/ isHostRef st' = true).
Proof.
  unfold handleFileChange.
  destruct f as [file|]; [|cbn; auto].
  destruct (negb _ && negb _); [cbn; auto|].
  destruct (videoRef st) as [v|] eqn:Hv; [|cbn; auto].
  cbn [seq modify emit fst snd].
  set (st1 := set_isHostRef true (set_videoRef (Some (with_src (file_url file) v)) st)).
  assert (H1 : view st1 = view st /\ (st1 = st \/ isHostRef st1 = true))
    by (split; [reflexivity|now right]).
  destruct (dataConnRef st1) as [c|]; [|exact H1].
  destruct (peerRef st1); [|exact H1].
  destruct (open c); [|exact H1].
  cbn [seq addLog emit fst snd].
  destruct (capture m); [exact H1|]. destruct (call m); [exact H1|].
  cbn [seq addLog emit fst snd].
  destruct (startHeartbeat_role st1) as [[Hv' Hr'] _].
  split; [now rewrite Hv'|right; now rewrite Hr'].
Qed.

Lemma step_heartbeat_by_host (e : Event) (st : AppState) :
  heartbeat_by_host st (fst (step StringToNumber e st)).
Proof.
  destruct e;
    try (apply step_along; intros; congruence).
  all: unfold step, handle_event; cbn [from_dom andb];
    (destruct (cancelled st); [now left|]); destruct (view st); try now left.
  destruct (handleFileChange_role f m st) as [_ [->|H]]; [now left|].
  right. now right.
Qed.

(** C4 (amended). The scheduler is started by the Host only: an event that
    leaves a new timer handle in [heartbeatInterval] leaves the role Host.
    A timer started as Host is not cancelled when the user exits and joins
    as Client, but a tick in a reachable state whose role is Client sends
    nothing. Starting is idempotent: whatever timer ran the heartbeat is
    cancelled first, so after one start as after two exactly one timer runs
    it, the one [heartbeatInterval] holds. *)
Theorem heartbeat_started_by_host_only (st : AppState) :
  reachable StringToNumber st ->
  (forall e, let st' := fst (step StringToNumber e st) in
     heartbeatInterval st' <> heartbeatInterval st ->
     heartbeatInterval st' <> None -> isHostRef st' = true) /\
  (isHostRef st = false -> tick_output st = []) /\
  (let s1 := fst (startHeartbeat st) in
   let s2 := fst (startHeartbeat s1) in
   heartbeat_timers s1 = [heartbeat_timer (next_timer st) (clock st + 1000)] /\
   heartbeatInterval s1 = Some (next_timer st) /\
   heartbeat_timers s2 = [heartbeat_timer (next_timer s1) (clock st + 1000)] /\
   heartbeatInterval s2 = Some (next_timer s1)).
Proof.
  intros Hreach. pose proof (reachable_inv st Hreach) as [Hwf Hview].
  split; [|split].
  - intros e st' Hne Hsome.
    destruct (step_heartbeat_by_host e st) as [E|[E|E]]; fold st' in E; congruence.
  - intros Hrole. unfold tick_output, heartbeatTick.
    unfold view_inv in Hview. destruct (view st).
    + destruct Hview as [-> _]. reflexivity.
    + destruct Hview as [E _]. congruence.
    + destruct Hview as (_ & -> & _). reflexivity.
  - assert (Hone : forall s, wf s ->
              heartbeat_timers (fst (startHeartbeat s)) =
                [heartbeat_timer (next_timer s) (clock s + 1000)] /\
              heartbeatInterval (fst (startHeartbeat s)) = Some (next_timer s) /\
              clock (fst (startHeartbeat s)) = clock s).
    { intros s [Hfresh Htracked]. unfold startHeartbeat, heartbeat_timers.
      assert (Hnone : forall ts : list Timer,
                (forall t, In t ts -> is_heartbeat t = false) ->
                filter is_heartbeat ts = []).
      { induction ts as [|t ts IH]; intros H; [reflexivity|]. cbn.
        rewrite (H t (or_introl eq_refl)). apply IH. intros; apply H; now right. }
      destruct (heartbeatInterval s) as [old|] eqn:Hh; cbn;
        rewrite filter_app; cbn; rewrite Hnone; auto.
      - intros t Ht. apply filter_In in Ht. destruct Ht as [Ht Hne].
        unfold is_heartbeat. destruct (callback t) eqn:Hcb; [|reflexivity].
        specialize (Htracked t Ht Hcb). injection Htracked as E.
        rewrite <- E, Pos.eqb_refl in Hne. discriminate.
      - intros t Ht. unfold is_heartbeat. destruct (callback t) eqn:Hcb; [|reflexivity].
        specialize (Htracked t Ht Hcb). discriminate. }
    intros s1 s2.
    destruct (Hone st Hwf) as (H1 & H2 & H3).
    destruct (Hone s1 (startHeartbeat_wf st Hwf)) as (H4 & H5 & _).
    fold s1 in H1, H2, H3. fold s2 in H4, H5. rewrite H3 in H4. auto.
Qed.

(** C6 (amended). While a role view is shown the role is the one of the
    view, and an event either keeps view and role or is Exit, which returns
    to the landing view and dismantles nothing: [isHostRef], the connection,
    the heartbeat handle and the timers stay as they are. In the landing
    view of the mounted component either role card sets the role, whatever
    it was, and keeps the connection and the heartbeat handle. Once the
    component is unmounted there is nothing to click: an event of the
    page changes nothing. *)
Theorem role_fixed_inside_role_view (st : AppState) (e : Event) :
  reachable StringToNumber st ->
  let st' := fst (step StringToNumber e st) in
  (view st <> LANDING ->
     isHostRef st = (match view st with HOST => true | _ => false end) /\
     ((view st' = view st /\ isHostRef st' = isHostRef st) \/
      (e = ClickExit /\ view st' = LANDING /\ isHostRef st' = isHostRef st /\
       dataConnRef st' = dataConnRef st /\
       heartbeatInterval st' = heartbeatInterval st /\ timers st' = timers st))) /\
  (view st = LANDING ->
     forall card, card = ClickHostCard \/ card = ClickClientCard ->
     let st2 := fst (step StringToNumber card st) in
     if cancelled st then st2 = st
     else
       isHostRef st2 = (match card with ClickHostCard => true | _ => false end) /\
       dataConnRef st2 = dataConnRef st /\
       heartbeatInterval st2 = heartbeatInterval st /\ timers st2 = timers st) /\
  (cancelled st = true -> from_dom e = true -> step StringToNumber e st = (st, [])).
Proof.
  intros Hreach st'. pose proof (reachable_inv st Hreach) as [Hwf Hview].
  split; [|split; [|intros Hc He; unfold step; now rewrite Hc, He]].
  - intros Hland. unfold view_inv in Hview. split.
    + destruct (view st); [congruence|apply Hview|apply Hview].
    + subst st'.
      destruct e;
        try (left; apply step_along; intros; congruence).
      all: unfold step; cbn [from_dom andb];
        (destruct (cancelled st); [left; split; reflexivity|]); unfold handle_event.
      * left. destruct (view st) eqn:Hv; [congruence| |]; cbn [skip fst]; auto.
      * left. destruct (view st) eqn:Hv; [congruence| |]; cbn [skip fst]; auto.
      * right. destruct (view st) eqn:Hv; [congruence| |]; cbn; auto 7.
      * left. destruct (view st) eqn:Hv; [congruence| |cbn [skip fst]; auto].
        destruct (handleFileChange_role f m st) as [E [E' | H]];
          [rewrite E'; auto|].
        split; [congruence|]. destruct Hview as [-> _]. exact H.
  - intros Hland card [-> | ->]; unfold step, handle_event;
      cbn [from_dom andb]; destruct (cancelled st); [reflexivity| |reflexivity|];
      rewrite Hland; cbn; auto.
Qed.

End Invariants.

(** ** The heartbeat over time *)

Lemma filter_no_heartbeat (ts : list Timer) :
  (forall t, In t ts -> callback t = ResetRemoteOp) -> filter is_heartbeat ts = [].
Proof.
  induction ts as [|t ts IH]; intros H; [reflexivity|]. cbn.
  unfold is_heartbeat at 1. rewrite (H t (or_introl eq_refl)).
  apply IH. intros; apply H; now right.
Qed.

Lemma filter_fresh (nx : positive) (p : Timer -> bool) (ts : list Timer) :
  (forall t, In t ts -> (tid t < nx)%positive) ->
  filter (fun t => Pos.eqb (tid t) nx) (filter p ts) = [].
Proof.
  induction ts as [|t ts IH]; intros H; [reflexivity|]. cbn.
  assert (IH' : filter (fun t => Pos.eqb (tid t) nx) (filter p ts) = [])
    by (apply IH; intros; apply H; now right).
  destruct (p t); [|exact IH']. cbn.
  destruct (Pos.eqb_spec (tid t) nx) as [E|E]; [|exact IH'].
  specialize (H t (or_introl eq_refl)). lia.
Qed.

Lemma startHeartbeat_lone (st : AppState) :
  wf st ->
  lone_heartbeat (next_timer st) (clock st + 1000) (fst (startHeartbeat st)) /\
  clock (fst (startHeartbeat st)) = clock st /\
  videoRef (fst (startHeartbeat st)) = videoRef st /\
  dataConnRef (fst (startHeartbeat st)) = dataConnRef st.
Proof.
  intros Hwf. pose proof Hwf as [Hfresh Htracked].
  assert (Hold : forall x,
            filter (fun t => Pos.eqb (tid t) (next_timer st))
              (filter (fun t => negb (Pos.eqb (tid t) x)) (timers st)) = []).
  { intros x. now apply filter_fresh. }
  unfold startHeartbeat, lone_heartbeat.
  destruct (heartbeatInterval st) as [old|] eqn:Hh; cbn.
  - repeat split.
    + unfold with_handle. cbn. rewrite filter_app.
      rewrite (Hold old). cbn. now rewrite Pos.eqb_refl.
    + intros t Hin Hne. apply in_app_or in Hin.
      destruct Hin as [Hin|[<-|[]]]; [|cbn in Hne; congruence].
      apply filter_In in Hin. destruct Hin as [Hin Hx].
      destruct (callback t) eqn:Hcb; [|reflexivity].
      specialize (Htracked t Hin Hcb). injection Htracked as E.
      rewrite <- E, Pos.eqb_refl in Hx. discriminate.
  - repeat split.
    + unfold with_handle. cbn. rewrite (fresh_with_handle_timers st _ Hwf). cbn.
      now rewrite Pos.eqb_refl.
    + intros t Hin Hne. apply in_app_or in Hin.
      destruct Hin as [Hin|[<-|[]]]; [|cbn in Hne; congruence].
      destruct (callback t) eqn:Hcb; [|reflexivity].
      specialize (Htracked t Hin Hcb). discriminate.
Qed.

(** C7. The component has one slot for a control channel and one for a
    received media stream. An inbound connection is taken whatever the slot
    holds, an open connection included: afterwards the slot holds the new
    connection alone, nothing was sent or closed on the old one, and its
    listeners stay registered. A received stream replaces the one attached
    to the Client's element in the same way. *)
Theorem last_connection_wins (c : DataConnection) (st : AppState) :
  cancelled st = false ->
  let st' := fst (peer_onConnection c st) in
  tracked_channels st' = [c] /\
  List.length (tracked_channels st) <= 1 /\ List.length (tracked_media st) <= 1 /\
  snd (peer_onConnection c st) = [] /\
  (forall l, In l (listeners st) -> In l (listeners st')) /\
  In (conn_id c, DataConnListeners) (listeners st') /\
  (forall s v, remoteVideoRef st = Some v ->
     tracked_media (fst (call_onStream s st)) = [s]).
Proof.
  intros Hc st'. subst st'. unfold peer_onConnection. rewrite Hc.
  unfold tracked_channels, tracked_media. cbn.
  repeat split.
  - destruct (dataConnRef st); cbn; lia.
  - destruct (remoteVideoRef st) as [v|]; [destruct (srcObject v)|]; cbn; lia.
  - intros l Hl. apply in_or_app. left. apply in_or_app. now left.
  - apply in_or_app. left. apply in_or_app. right. now left.
  - intros s v Hv. rewrite Hv. reflexivity.
Qed.

(** C9. [restartStream] leaves the whole state of the component as it is,
    so it is idempotent on it, and however many times it is invoked and
    whatever the capture and the call do, the heartbeat handle, the timer
    table and the loop guard are the ones before. An invocation only logs
    and, when capture and call succeed, offers the captured stream to the
    connected peer; a second invocation with the same outcome does the
    same again. *)
Theorem restartStream_idempotent (ms : list MediaEnv) (m : MediaEnv) (st : AppState) :
  restartStream m (fst (restartStream m st)) = restartStream m st /\
  fst (restartStream m st) = st /\
  fst (restartStream_times ms st) = st /\
  heartbeatInterval (fst (restartStream_times ms st)) = heartbeatInterval st /\
  timers (fst (restartStream_times ms st)) = timers st /\
  isRemoteOp (fst (restartStream_times ms st)) = isRemoteOp st /\
  (forall e, In e (snd (restartStream_times ms st)) ->
     is_log e = true \/ exists remote stream, e = PeerCall remote stream).
Proof.
  assert (Hst : forall l s, fst (restartStream_times l s) = s).
  { induction l as [|m0 l IH]; intros s; cbn [restartStream_times seq skip fst snd];
      [reflexivity|]. now rewrite IH, restartStream_state. }
  rewrite !restartStream_state, Hst. repeat split.
  revert st. induction ms as [|m0 ms IH]; intros st e;
    cbn [restartStream_times seq skip fst snd]; [intros []|].
  intros Hin. apply in_app_or in Hin. destruct Hin as [Hin|Hin].
  - unfold restartStream in Hin.
    destruct (isHostRef st), (peerRef st), (dataConnRef st), (videoRef st);
      try (now destruct Hin).
    destruct (capture m0) as [msg|stream [|t0 tracks]], (call m0); cbn in Hin;
      repeat (destruct Hin as [<-|Hin]; [cbn; eauto|]); now destruct Hin.
  - rewrite restartStream_state in Hin. eauto.
Qed.

(** ** The examples of the specification, and counterexamples *)

Lemma host_at_reachable (t : number) : reachable StringToNumber_digits (host_at t).
Proof. apply reachable_run. constructor. Qed.

Lemma host_at_wf (t : number) : wf (host_at t).
Proof. exact (proj1 (reachable_inv _ _ (host_at_reachable t))). Qed.

(** End to end: a Client at 8.0 that receives HEARTBEAT{10.0} moves to 10.0;
    a Client at 9.7 stays where it is and logs nothing. *)
Lemma heartbeat_drift_bands_witness :
  position RemoteVideo
    (fst (handleSyncCommand StringToNumber_digits (heartbeat_of (of_Z 10))
            (client_at (of_Z 8)))) = Some (of_Z 10) /\
  handleSyncCommand StringToNumber_digits (heartbeat_of (of_Z 10))
    (client_at (ratio 97 10)) = (client_at (ratio 97 10), []).
Proof.
  split.
  - destruct (heartbeat_drift_bands StringToNumber_digits (client_at (of_Z 8))
                (playing (of_Z 8)) (of_Z 10) eq_refl eq_refl) as (_ & _ & H).
    destruct (H eq_refl eq_refl) as (_ & Hp & _). exact Hp.
  - destruct (heartbeat_drift_bands StringToNumber_digits (client_at (ratio 97 10))
                (playing (ratio 97 10)) (of_Z 10) eq_refl eq_refl) as (H & _).
    exact (H eq_refl).
Defined.

(** C1, counterexample. A Client at 1.0 receives HEARTBEAT{0.5}: the drift
    is exactly 0.5, inside the band [0.5 <= d <= 1.0] of the claim, and no
    diagnostic is produced. *)
Lemma drift_half_no_diagnostic :
  ~ drift_bands_closed_at_half StringToNumber_digits (client_at one) half.
Proof.
  intros H.
  destruct (H (playing one) eq_refl eq_refl) as (_ & H2 & _).
  destruct (H2 eq_refl eq_refl) as [_ Hlog].
  vm_compute in Hlog. discriminate Hlog.
Qed.





Lemma heartbeat_started_by_host_only_witness :
  heartbeat_timers (fst (startHeartbeat (fst (startHeartbeat (host_at (of_Z 10)))))) =
  [heartbeat_timer 3 1000] /\
  tick_output host_turned_client = [].
Proof.
  split.
  - destruct (heartbeat_started_by_host_only StringToNumber_digits (host_at (of_Z 10))
                (host_at_reachable (of_Z 10))) as (_ & _ & _ & _ & H & _).
    exact H.
  - destruct (heartbeat_started_by_host_only StringToNumber_digits host_turned_client
                (reachable_run _ _ _ (host_at_reachable (of_Z 10)))) as (_ & H & _).
    exact (H eq_refl).
Defined.

(** C4, counterexample. A Host with a running heartbeat exits and joins as
    Client: the role is Client and the interval timer is still active. *)
Lemma heartbeat_survives_role_change :
  ~ heartbeat_never_runs_as_client StringToNumber_digits.
Proof.
  intros H.
  specialize (H host_turned_client
                (reachable_run _ _ _ (host_at_reachable (of_Z 10))) eq_refl).
  vm_compute in H. discriminate H.
Qed.

Lemma role_fixed_inside_role_view_witness :
  view (fst (step StringToNumber_digits ClickExit (host_at (of_Z 10)))) = LANDING /\
  dataConnRef (fst (step StringToNumber_digits ClickExit (host_at (of_Z 10)))) =
  dataConnRef (host_at (of_Z 10)).
Proof.
  destruct (role_fixed_inside_role_view StringToNumber_digits (host_at (of_Z 10)) ClickExit
              (host_at_reachable (of_Z 10))) as [H _].
  assert (Hv : view (host_at (of_Z 10)) <> LANDING) by discriminate.
  destruct (H Hv) as [_ [[Hk _]|(_ & H1 & _ & H2 & _)]].
  - discriminate Hk.
  - split; [exact H1|exact H2].
Defined.

(** C6, counterexample. In the HOST view, with [guest] connected and the
    heartbeat running, Exit returns to the landing view and dismantles
    nothing; the Client card then makes the role Client on the same
    connection. *)
Lemma exit_keeps_session :
  ~ role_write_once StringToNumber_digits (host_at (of_Z 10)) ClickExit /\
  isHostRef (host_at (of_Z 10)) = true /\
  isHostRef host_turned_client = false /\
  dataConnRef host_turned_client = dataConnRef (host_at (of_Z 10)) /\
  heartbeatInterval host_turned_client = Some 1%positive.
Proof.
  split; [|split; [|split; [|split]]]; try (vm_compute; reflexivity).
  intros H.
  assert (Hv : view (host_at (of_Z 10)) <> LANDING) by (vm_compute; discriminate).
  specialize (H Hv). vm_compute in H.
  destruct H as [[H _]|(_ & H & _)]; discriminate H.
Qed.

Lemma last_connection_wins_witness :
  tracked_channels (fst (peer_onConnection second_guest (host_at (of_Z 10)))) =
  [second_guest] /\
  tracked_media (fst (call_onStream 5 (client_at (of_Z 8)))) = [5].
Proof.
  split.
  - destruct (last_connection_wins second_guest (host_at (of_Z 10)) eq_refl) as [H _].
    exact H.
  - destruct (last_connection_wins second_guest (client_at (of_Z 8)) eq_refl)
      as (_ & _ & _ & _ & _ & _ & H).
    exact (H 5 (playing (of_Z 8)) eq_refl).
Defined.

Lemma client_ignores_non_heartbeat_witness :
  handleSyncCommand StringToNumber_digits
    (wire {| type := SEEK; timestamp := of_Z 30 |}) (client_at (of_Z 8)) =
  (client_at (of_Z 8), []).
Proof.
  assert (Hty : SEEK <> HEARTBEAT) by discriminate.
  destruct (client_ignores_non_heartbeat StringToNumber_digits (client_at (of_Z 8))
              SEEK (of_Z 30) eq_refl Hty) as [H _].
  exact H.
Defined.

Lemma restartStream_idempotent_witness :
  isRemoteOp (fst (restartStream_times [good_media; no_media; good_media]
                     (host_at (of_Z 10)))) = false /\
  snd (restartStream good_media (host_at (of_Z 10))) =
  [Log [Str "Restarting stream (HQ)..."];
   Log [Str "Captured stream: "; Count 1; Str " video tracks"];
   Log [Str "Track 0: "; Str "video"; Str " ("; Str "live"; Str ")"];
   PeerCall "guest" 1].
Proof.
  destruct (restartStream_idempotent [good_media; no_media; good_media] good_media
              (host_at (of_Z 10))) as (_ & _ & _ & _ & _ & H & _).
  split; [exact H|reflexivity].
Defined.

(** A Host at 10.0: SEEK{12.0} moves it, SEEK{10.3} does not. *)
Lemma host_seek_tolerance_witness :
  position HostVideo
    (fst (handleSyncCommand StringToNumber_digits
            (wire {| type := SEEK; timestamp := of_Z 12 |}) (host_at (of_Z 10)))) =
  Some (of_Z 12) /\
  videoRef
    (fst (handleSyncCommand StringToNumber_digits
            (wire {| type := SEEK; timestamp := ratio 103 10 |}) (host_at (of_Z 10)))) =
  videoRef (host_at (of_Z 10)).
Proof.
  split.
  - destruct (host_seek_tolerance StringToNumber_digits (host_at (of_Z 10))
                (playing (of_Z 10)) (of_Z 12) eq_refl eq_refl) as (H & _).
    destruct (H eq_refl eq_refl) as [Hp _]. exact Hp.
  - destruct (host_seek_tolerance StringToNumber_digits (host_at (of_Z 10))
                (playing (of_Z 10)) (ratio 103 10) eq_refl eq_refl) as (_ & H & _).
    destruct (H eq_refl) as [Hp _]. exact Hp.
Defined.

(** * The timer table and the wiring of the reachable states, and further
    properties of the component *)

(** ** Distinct handles *)

Lemma handles_distinct_filter (keep : Timer -> bool) (ts : list Timer) :
  NoDup (map tid ts) -> NoDup (map tid (filter keep ts)).
Proof.
  intros H. induction ts as [|t ts IH]; cbn in *; [constructor|].
  apply NoDup_cons_iff in H. destruct H as [Hnin Hnd].
  destruct (keep t); cbn; [|now apply IH].
  constructor; [|now apply IH].
  intros Hin. apply Hnin. apply in_map_iff in Hin. destruct Hin as (b & E & Hb).
  apply filter_In in Hb. apply in_map_iff. exists b. tauto.
Qed.

Lemma NoDup_tid_unique (ts : list Timer) (a b : Timer) :
  NoDup (map tid ts) -> In a ts -> In b ts -> tid a = tid b -> a = b.
Proof.
  induction ts as [|t ts IH]; cbn; intros H Ha Hb E; [destruct Ha|].
  inversion H as [|x xs Hnin Hnd]; subst.
  destruct Ha as [<-|Ha], Hb as [<-|Hb]; auto.
  - exfalso. apply Hnin. rewrite E. now apply in_map.
  - exfalso. apply Hnin. rewrite <- E. now apply in_map.
Qed.

Lemma with_handle_single (id : positive) (t0 : Timer) (ts : list Timer) :
  NoDup (map tid ts) -> In t0 ts -> tid t0 = id ->
  filter (fun t => Pos.eqb (tid t) id) ts = [t0].
Proof.
  induction ts as [|t ts IH]; cbn; intros H Hin E; [destruct Hin|].
  inversion H as [|x xs Hnin Hnd]; subst.
  destruct Hin as [->|Hin].
  - rewrite Pos.eqb_refl. f_equal.
    clear IH H Hnd. induction ts as [|t ts IH]; [reflexivity|]. cbn.
    destruct (Pos.eqb_spec (tid t) (tid t0)) as [E|E].
    + exfalso. apply Hnin. left. exact E.
    + apply IH. intros Hin. apply Hnin. now right.
  - destruct (Pos.eqb_spec (tid t) (tid t0)) as [E|E].
    + exfalso. apply Hnin. rewrite E. now apply in_map.
    + now apply IH.
Qed.

Lemma map_tid_bump (id : positive) (p : nat) (ts : list Timer) :
  map tid (map (fun t' => if Pos.eqb (tid t') id
                          then {| tid := tid t'; due := due t' + p;
                                  period := period t'; callback := callback t' |}
                          else t') ts) = map tid ts.
Proof.
  induction ts as [|t ts IH]; [reflexivity|]. cbn. rewrite IH.
  now destruct (Pos.eqb (tid t) id).
Qed.

(** ** Firing one timer of a batch *)

Lemma in_active (t : Timer) (ts : list Timer) :
  In t ts -> existsb (fun t' => Pos.eqb (tid t') (tid t)) ts = true.
Proof.
  intros H. apply existsb_exists. exists t. split; [exact H|apply Pos.eqb_refl].
Qed.

Lemma fired_batch (t : Timer) (rest ts : list Timer) (nx : positive)
  (hb : option positive) (c : nat) :
  batch_ok (t :: rest) ts nx hb c ->
  batch_ok rest (fired t ts) nx hb c.
Proof.
  intros (Hnd & Hfresh & Hhb & Hall & Hpend & Hpnd).
  destruct (Hpend t (or_introl eq_refl)) as [Hin Hdue].
  destruct (Hall t Hin) as (_ & _ & Hclass).
  cbn in Hpnd. apply NoDup_cons_iff in Hpnd. destruct Hpnd as [Hnin Hpnd'].
  assert (Hrest : forall r, In r rest -> In r ts /\ due r = c /\ tid r <> tid t).
  { intros r Hr. destruct (Hpend r (or_intror Hr)) as [H1 H2].
    repeat split; auto. intros E. apply Hnin. rewrite <- E. now apply in_map. }
  unfold fired. rewrite (in_active t ts Hin).
  unfold class_ok in Hclass. destruct (callback t) eqn:Hcb.
  - destruct Hclass as (Hid & Hper & Hbound). rewrite Hper.
    set (bump := fun t' : Timer =>
                   if Pos.eqb (tid t') (tid t)
                   then {| tid := tid t'; due := due t' + 1000;
                           period := period t'; callback := callback t' |}
                   else t').
    assert (Hcase : forall t', In t' (map bump ts) ->
              (t' = {| tid := tid t; due := due t + 1000; period := period t;
                       callback := callback t |}) \/
              (In t' ts /\ tid t' <> tid t)).
    { intros t' H'. apply in_map_iff in H'. destruct H' as (t0 & E & H0).
      unfold bump in E. destruct (Pos.eqb_spec (tid t0) (tid t)) as [E'|E'].
      - left. rewrite (NoDup_tid_unique ts t0 t Hnd H0 Hin E') in E. now symmetry.
      - right. subst t'. auto. }
    assert (Hkeep : forall r, In r ts -> tid r <> tid t -> In r (map bump ts)).
    { intros r Hr Hne. apply in_map_iff. exists r. split; [|exact Hr].
      unfold bump. destruct (Pos.eqb_spec (tid r) (tid t)); congruence. }
    repeat split.
    + unfold bump. now rewrite map_tid_bump.
    + intros t' H'. destruct (Hcase t' H') as [->|[H0 _]]; cbn; auto.
    + destruct (Hhb id H) as [H1 _]. exact H1.
    + destruct (Hhb id H) as [_ (t0 & H0 & E)].
      exists (bump t0). split; [now apply in_map|].
      unfold bump. now destruct (Pos.eqb (tid t0) (tid t)).
    + destruct (Hcase t0 H) as [->|[H0 _]]; cbn; [lia|]. apply (Hall t0 H0).
    + intros Hd. destruct (Hcase t0 H) as [->|[H0 Hne]]; [cbn in Hd; lia|].
      destruct (Hall t0 H0) as (_ & Hp & _). destruct (Hp Hd) as [E|Hr]; [|exact Hr].
      congruence.
    + destruct (Hcase t0 H) as [->|[H0 _]].
      * unfold class_ok. cbn. rewrite Hcb. repeat split; auto. lia.
      * apply (Hall t0 H0).
    + apply Hkeep; apply (Hrest t0 H).
    + apply (Hrest t0 H).
    + exact Hpnd'.
  - destruct Hclass as (Hid & Hper & Hbound). rewrite Hper.
    assert (Hcase : forall t',
              In t' (filter (fun t' => negb (Pos.eqb (tid t') (tid t))) ts) ->
              In t' ts /\ tid t' <> tid t).
    { intros t' H'. apply filter_In in H'. destruct H' as [H0 Hne]. split; [exact H0|].
      intros E. rewrite E, Pos.eqb_refl in Hne. discriminate. }
    assert (Hkeep : forall r, In r ts -> tid r <> tid t ->
              In r (filter (fun t' => negb (Pos.eqb (tid t') (tid t))) ts)).
    { intros r Hr Hne. apply filter_In. split; [exact Hr|].
      destruct (Pos.eqb_spec (tid r) (tid t)); [congruence|reflexivity]. }
    repeat split.
    + now apply handles_distinct_filter.
    + intros t' H'. apply Hfresh. apply (Hcase t' H').
    + destruct (Hhb id H) as [H1 _]. exact H1.
    + destruct (Hhb id H) as [_ (t0 & H0 & E)].
      exists t0. split; [|exact E]. apply Hkeep; [exact H0|]. congruence.
    + apply (Hall t0). apply (Hcase t0 H).
    + intros Hd. destruct (Hcase t0 H) as [H0 Hne].
      destruct (Hall t0 H0) as (_ & Hp & _). destruct (Hp Hd) as [E|Hr]; [|exact Hr].
      congruence.
    + apply (Hall t0). apply (Hcase t0 H).
    + apply Hkeep; apply (Hrest t0 H).
    + apply (Hrest t0 H).
    + exact Hpnd'.
Qed.

Lemma sched_intro (ts : list Timer) (nx : positive) (hb : option positive)
  (c : nat) :
  NoDup (map tid ts) ->
  (forall t, In t ts -> (tid t < nx)%positive) ->
  (forall id, hb = Some id ->
     (id < nx)%positive /\ exists t, In t ts /\ tid t = id) ->
  (forall t, In t ts -> c < due t /\ class_ok hb c t) ->
  batch_ok [] ts nx hb c.
Proof.
  intros H1 H2 H3 H4. unfold batch_ok.
  split; [exact H1|]. split; [exact H2|]. split; [exact H3|].
  split; [|split; [intros t []|constructor]].
  intros t Ht. destruct (H4 t Ht) as [Hd Hc]. repeat split; auto; lia.
Qed.

Lemma sched_elim (ts : list Timer) (nx : positive) (hb : option positive)
  (c : nat) :
  batch_ok [] ts nx hb c ->
  NoDup (map tid ts) /\
  (forall t, In t ts -> (tid t < nx)%positive) /\
  (forall id, hb = Some id ->
     (id < nx)%positive /\ exists t, In t ts /\ tid t = id) /\
  (forall t, In t ts -> c < due t /\ class_ok hb c t).
Proof.
  intros (H1 & H2 & H3 & H4 & _ & _).
  split; [exact H1|]. split; [exact H2|]. split; [exact H3|].
  intros t Ht. destruct (H4 t Ht) as (Ha & Hb & Hc). split; [|exact Hc].
  destruct (Nat.eq_dec (due t) c) as [E|E]; [destruct (Hb E)|lia].
Qed.

Lemma fire_all_sched (ds : list Timer) (st : AppState) :
  batch_ok ds (timers st) (next_timer st) (heartbeatInterval st) (clock st) ->
  sched_inv (fst (fire_all ds st)).
Proof.
  revert st. induction ds as [|t ds IH]; intros st H;
    cbn [fire_all seq skip fst snd]; [exact H|].
  apply IH.
  destruct (fire_refs t st) as [(_ & _ & _ & _ & _ & _ & _ & Hh & _ & _ & Hn) Hc].
  assert (Hin : In t (timers st)).
  { destruct H as (_ & _ & _ & _ & Hp & _). apply (Hp t). now left. }
  rewrite fire_timers, Hh, Hn, Hc.
  now apply fired_batch.
Qed.

Lemma elapse_sched (st : AppState) : sched_inv st -> sched_inv (fst (elapse st)).
Proof.
  intros H. apply sched_elim in H. destruct H as (Hnd & Hfresh & Hhb & Hall).
  rewrite elapse_unfold. apply fire_all_sched. cbn. unfold batch_ok.
  split; [exact Hnd|]. split; [exact Hfresh|]. split; [exact Hhb|].
  split; [|split].
  - intros t Ht. destruct (Hall t Ht) as (Hd & Hcl). split; [lia|]. split.
    + intros E. apply filter_In. split; [exact Ht|]. now apply Nat.eqb_eq.
    + unfold class_ok in *.
      destruct (callback t); destruct Hcl as (H1 & H2 & H3); repeat split; auto; lia.
  - intros t Ht. apply filter_In in Ht. destruct Ht as [Ht Hd]. split; [exact Ht|].
    now apply Nat.eqb_eq in Hd.
  - now apply handles_distinct_filter.
Qed.

Lemma wait_sched (n : nat) (st : AppState) :
  sched_inv st -> sched_inv (fst (wait n st)).
Proof.
  revert st. induction n as [|n IH]; intros st H; cbn [wait seq skip fst snd];
    [exact H|].
  now apply IH, elapse_sched.
Qed.

(** ** Scheduling through the handlers *)

Lemma NoDup_tid_fresh (ts : list Timer) (nx : positive) (t : Timer) :
  NoDup (map tid ts) -> (forall t', In t' ts -> (tid t' < nx)%positive) ->
  tid t = nx -> NoDup (map tid (ts ++ [t])).
Proof.
  intros Hnd Hfresh E. rewrite map_app. cbn.
  apply NoDup_app; [exact Hnd|constructor; [intros []|constructor]|].
  intros x Hx [<-|[]]. apply in_map_iff in Hx. destruct Hx as (t' & E' & Ht').
  specialize (Hfresh t' Ht'). lia.
Qed.

Lemma timeout_sched (ts : list Timer) (nx : positive) (hb : option positive)
  (c : nat) :
  batch_ok [] ts nx hb c ->
  batch_ok []
    (ts ++ [{| tid := nx; due := c + 300; period := None;
               callback := ResetRemoteOp |}])
    (Pos.succ nx) hb c.
Proof.
  intros H. apply sched_elim in H. destruct H as (Hnd & Hfresh & Hhb & Hall).
  apply sched_intro.
  - now apply (NoDup_tid_fresh ts nx).
  - intros t H. apply in_app_or in H. destruct H as [H|[<-|[]]]; cbn; [|lia].
    specialize (Hfresh t H). lia.
  - intros id H. destruct (Hhb id H) as [H1 (t0 & H0 & E)]. split; [lia|].
    exists t0. split; [|exact E]. apply in_or_app. now left.
  - intros t H. apply in_app_or in H. destruct H as [H|[<-|[]]]; [apply (Hall t H)|].
    cbn. split; [lia|]. unfold class_ok. cbn. repeat split; auto.
    intros E. destruct (Hhb nx E) as [H1 _]. lia.
Qed.

Lemma startHeartbeat_sched (st : AppState) :
  sched_inv st -> sched_inv (fst (startHeartbeat st)).
Proof.
  intros H. apply sched_elim in H. destruct H as (Hnd & Hfresh & Hhb & Hall).
  assert (Hclass : forall t, In t (timers st) ->
            heartbeatInterval st <> Some (tid t) ->
            class_ok (Some (next_timer st)) (clock st) t).
  { intros t Ht Hne. destruct (Hall t Ht) as (_ & Hcl). unfold class_ok in *.
    destruct (callback t); [destruct Hcl as (E & _); congruence|].
    destruct Hcl as (_ & H2 & H3). repeat split; auto.
    intros E. injection E as E. specialize (Hfresh t Ht). lia. }
  assert (Hnew : class_ok (Some (next_timer st)) (clock st)
                   {| tid := next_timer st; due := clock st + 1000;
                      period := Some 1000; callback := HeartbeatTick |}).
  { unfold class_ok. cbn. auto. }
  unfold startHeartbeat, sched_inv.
  destruct (heartbeatInterval st) as [old|] eqn:Hh; cbn.
  - assert (Hf : forall t, In t (filter (fun t => negb (Pos.eqb (tid t) old)) (timers st)) ->
              In t (timers st) /\ Some old <> Some (tid t)).
    { intros t Ht. apply filter_In in Ht. destruct Ht as [Ht Hne]. split; [exact Ht|].
      intros E. injection E as ->. rewrite Pos.eqb_refl in Hne. discriminate. }
    apply sched_intro.
    + apply (NoDup_tid_fresh _ (next_timer st)); [now apply handles_distinct_filter| |reflexivity].
      intros t Ht. apply Hfresh. apply (Hf t Ht).
    + intros t H. apply in_app_or in H. destruct H as [H|[<-|[]]]; cbn; [|lia].
      specialize (Hfresh t (proj1 (Hf t H))). lia.
    + intros id H. injection H as <-. split; [lia|].
      eexists. split; [apply in_or_app; right; now left|reflexivity].
    + intros t H. apply in_app_or in H. destruct H as [H|[<-|[]]].
      * destruct (Hf t H) as [H1 H2]. split; [apply (Hall t H1)|now apply Hclass].
      * split; [cbn; lia|exact Hnew].
  - apply sched_intro.
    + now apply (NoDup_tid_fresh _ (next_timer st)).
    + intros t H. apply in_app_or in H. destruct H as [H|[<-|[]]]; cbn; [|lia].
      specialize (Hfresh t H). lia.
    + intros id H. injection H as <-. split; [lia|].
      eexists. split; [apply in_or_app; right; now left|reflexivity].
    + intros t H. apply in_app_or in H. destruct H as [H|[<-|[]]].
      * split; [apply (Hall t H)|]. apply Hclass; [exact H|discriminate].
      * split; [cbn; lia|exact Hnew].
Qed.

Lemma stopHeartbeat_sched (st : AppState) :
  sched_inv st -> sched_inv (fst (stopHeartbeat st)).
Proof.
  intros Hs. pose proof (sched_elim _ _ _ _ Hs) as (Hnd & Hfresh & Hhb & Hall).
  unfold stopHeartbeat, sched_inv.
  destruct (heartbeatInterval st) as [old|] eqn:Hh; [|exact Hs]. cbn.
  assert (Hf : forall t, In t (filter (fun t => negb (Pos.eqb (tid t) old)) (timers st)) ->
            In t (timers st) /\ tid t <> old).
  { intros t Ht. apply filter_In in Ht. destruct Ht as [Ht Hne]. split; [exact Ht|].
    intros E. rewrite E, Pos.eqb_refl in Hne. discriminate. }
  apply sched_intro.
  - now apply handles_distinct_filter.
  - intros t H. apply Hfresh. apply (Hf t H).
  - discriminate.
  - intros t H. destruct (Hf t H) as [H1 H2]. destruct (Hall t H1) as (Hd & Hcl).
    split; [exact Hd|]. unfold class_ok in *. destruct (callback t).
    + destruct Hcl as (E & _). injection E as E. congruence.
    + destruct Hcl as (_ & H3 & H4). repeat split; auto. discriminate.
Qed.

(** ** Every event keeps the timer table and the wiring *)

Ltac wired_goal Hw :=
  unfold wired in *; cbn; intros ? ?; rewrite ?in_app_iff; cbn;
  first [ now (apply Hw)
        | now (left; apply Hw)
        | now (left; left; apply Hw)
        | match goal with
          | E : Some _ = Some _ |- _ => injection E as <-; cbn; tauto
          end ].

Ltac deep_frame Hs Hw :=
  split; [unfold sched_inv in *; cbn; exact Hs | wired_goal Hw].

Section DeepInvariant.

Variable StringToNumber : string -> number.

Lemma handle_deep (d : Data) (st : AppState) :
  deep_inv st -> deep_inv (fst (handleSyncCommand StringToNumber d st)).
Proof.
  intros [Hs Hw]. unfold handleSyncCommand.
  destruct (isHostRef st) eqn:Hrole; cbn [video_at].
  - destruct (videoRef st) as [v|] eqn:Hv; [|now split].
    destruct (strict_eq_string (data_type d) "HEARTBEAT"); [now split|].
    destruct (strict_eq_string (data_type d) "PLAY");
      [|destruct (strict_eq_string (data_type d) "PAUSE");
        [|destruct (strict_eq_string (data_type d) "SEEK");
          [destruct (js_gt (drift_of StringToNumber v d) half);
           [destruct (js_isFinite (ToNumber StringToNumber (data_timestamp d))) eqn:Hfin|]|]]];
      unfold assign_currentTime, seq_unless_thrown, throw; cbn; try rewrite Hv; cbn;
      try rewrite Hfin; cbn; try rewrite Hv; cbn;
      first [ deep_frame Hs Hw
            | split; [unfold sched_inv; cbn; apply timeout_sched; exact Hs
                     | wired_goal Hw] ].
  - destruct (remoteVideoRef st) as [v|] eqn:Hv; [|now split].
    destruct (strict_eq_string (data_type d) "HEARTBEAT"); [|now split].
    destruct (js_gt (drift_of StringToNumber v d) half),
             (js_gt (drift_of StringToNumber v d) one);
      try destruct (js_isFinite (ToNumber StringToNumber (data_timestamp d))) eqn:Hfin;
      unfold assign_currentTime, throw; cbn; try rewrite Hv; cbn;
      try rewrite Hfin; cbn; deep_frame Hs Hw.
Qed.

Lemma startHeartbeat_deep (st : AppState) :
  deep_inv st -> deep_inv (fst (startHeartbeat st)).
Proof.
  intros [Hs Hw]. split; [now apply startHeartbeat_sched|].
  unfold startHeartbeat. destruct (heartbeatInterval st); wired_goal Hw.
Qed.

Lemma stopHeartbeat_deep (st : AppState) :
  deep_inv st -> deep_inv (fst (stopHeartbeat st)).
Proof.
  intros [Hs Hw]. split; [now apply stopHeartbeat_sched|].
  unfold stopHeartbeat. destruct (heartbeatInterval st); wired_goal Hw.
Qed.

Lemma elapse_deep (st : AppState) : deep_inv st -> deep_inv (fst (elapse st)).
Proof.
  intros [Hs Hw]. split; [now apply elapse_sched|].
  destruct (elapse_refs st) as [(_ & _ & _ & _ & _ & _ & Hd & _ & _ & Hl & _) _].
  unfold wired. now rewrite Hd, Hl.
Qed.

Lemma handleFileChange_deep (f : option File) (m : MediaEnv) (st : AppState) :
  deep_inv st -> deep_inv (fst (handleFileChange f m st)).
Proof.
  intros Hinv. unfold handleFileChange.
  destruct f as [file|]; [|exact Hinv].
  destruct (negb _ && negb _); [exact Hinv|].
  destruct (videoRef st) as [v|] eqn:Hv; [|exact Hinv].
  cbn [seq modify emit fst snd].
  set (st1 := set_isHostRef true (set_videoRef (Some (with_src (file_url file) v)) st)).
  assert (H1 : deep_inv st1) by (destruct Hinv as [Hs Hw]; deep_frame Hs Hw).
  destruct (dataConnRef st1) as [c|]; [|exact H1].
  destruct (peerRef st1); [|exact H1].
  destruct (open c); [|exact H1].
  cbn [seq addLog emit fst snd].
  destruct (capture m); [exact H1|]. destruct (call m); [exact H1|].
  cbn [seq addLog emit fst snd]. now apply startHeartbeat_deep.
Qed.

Lemma dataConn_onOpen_deep (c : DataConnection) (st : AppState) :
  deep_inv st -> deep_inv (fst (dataConn_onOpen c st)).
Proof.
  intros H. unfold dataConn_onOpen. cbn [seq addLog emit fst snd].
  destruct (isHostRef st); [now apply startHeartbeat_deep|exact H].
Qed.

Lemma dataConn_onData_deep (p : Payload) (st : AppState) :
  deep_inv st -> deep_inv (fst (dataConn_onData StringToNumber p st)).
Proof.
  intros H. destruct p as [|d]; [exact H|].
  unfold dataConn_onData. cbn [seq fst snd].
  apply handle_deep. now destruct (negb _).
Qed.

Lemma conn_becomes_deep (id : nat) (b : bool) (st : AppState) :
  deep_inv st -> deep_inv (conn_becomes id b st).
Proof.
  intros [Hs Hw]. unfold conn_becomes.
  destruct (dataConnRef st) as [c|] eqn:Hc; [|now split].
  destruct (Nat.eqb (conn_id c) id); [|now split].
  split; [exact Hs|]. unfold wired in *. cbn. intros c0 E. injection E as <-. cbn.
  now apply Hw.
Qed.

Lemma host_onOpen_deep (c : DataConnection) (m : MediaEnv) (st : AppState) :
  deep_inv st -> deep_inv (fst (host_onOpen c m st)).
Proof.
  intros H. unfold host_onOpen. destruct (cancelled st); [exact H|].
  cbn [seq setStatus emit fst snd].
  destruct (videoRef st); [|exact H].
  destruct (capture m); [exact H|]. now destruct (call m).
Qed.

Lemma client_onOpen_deep (c : DataConnection) (st : AppState) :
  deep_inv st -> deep_inv (fst (client_onOpen c st)).
Proof. intros [Hs Hw]. cbn. deep_frame Hs Hw. Qed.

Lemma step_deep (e : Event) (st : AppState) :
  deep_inv st -> deep_inv (fst (step StringToNumber e st)).
Proof.
  intros Hinv. unfold step.
  destruct (from_dom e && cancelled st); [exact Hinv|]. unfold handle_event.
  destruct e; destruct (view st) eqn:Hview; try exact Hinv.
  all: try (now apply handleFileChange_deep).
  all: try (rewrite restartStream_state; exact Hinv).
  all: try (rewrite sendCommand_state; exact Hinv).
  all: try (unfold onPlay, onPause, onSeeked; rewrite onVideoEvent_state; exact Hinv).
  all: try (now apply elapse_deep).
  all: try (apply dispatch_preserves;
            [intros [] s Hs; cbn [fst skip];
             auto using dataConn_onOpen_deep, host_onOpen_deep, client_onOpen_deep,
               dataConn_onData_deep;
             try (now apply stopHeartbeat_deep)
            |auto using conn_becomes_deep]).
  all: destruct Hinv as [Hs Hw].
  all: unfold connectToHost, peer_onOpen, peer_onError, peer_onConnection,
         peer_onCall, call_onStream, video_at, set_video_at, setupDataConnection,
         render.
  all: repeat (cbn [seq fst snd addLog emit modify skip setStatus];
               match goal with
               | |- context [match ?x with _ => _ end] => destruct x eqn:?
               end).
  all: try (now split).
  all: deep_frame Hs Hw.
Qed.

Lemma reachable_deep (st : AppState) : reachable StringToNumber st -> deep_inv st.
Proof.
  induction 1 as [|e st _ IH]; [|now apply step_deep].
  split.
  - apply sched_intro; cbn;
      [constructor | intros t [] | discriminate | intros t []].
  - intros c H. discriminate H.
Qed.

End DeepInvariant.

Lemma idle_timers (st : AppState) :
  deep_inv st -> heartbeatInterval st = None ->
  forall t, In t (timers st) -> callback t = ResetRemoteOp.
Proof.
  intros [Hs _] Hh t Ht.
  apply sched_elim in Hs. destruct Hs as (_ & _ & _ & Hall).
  destruct (Hall t Ht) as (_ & Hcl). unfold class_ok in Hcl. rewrite Hh in Hcl.
  destruct (callback t); [|reflexivity]. destruct Hcl as (E & _). discriminate E.
Qed.

(** ** A position compared with itself *)

Lemma js_sub_self_finite (s : bool) (m : positive) (e : Z) :
  js_sub (S754_finite s m e) (S754_finite s m e) = zero.
Proof.
  unfold js_sub, SFsub. rewrite Z.min_id. unfold shl_align. rewrite Z.sub_diag.
  reflexivity.
Qed.

Lemma drift_self (x : number) : js_gt (Math_abs (js_sub x x)) half = false.
Proof.
  destruct x as [s|s| |s m e]; try (destruct s; reflexivity); try reflexivity.
  now rewrite js_sub_self_finite.
Qed.

Section Extras.

Variable StringToNumber : string -> number.

Abbreviation handle := (handleSyncCommand StringToNumber).
Abbreviation on_data := (dataConn_onData StringToNumber).

(** X1. The Host ignores a HEARTBEAT entirely: whatever the payload carries
    as timestamp, the state is the one before and nothing is logged, sent
    or called, so the loop guard is not raised either. *)
Theorem host_ignores_heartbeat (d : Data) (st : AppState) :
  isHostRef st = true -> data_type d = JsString "HEARTBEAT" ->
  on_data (Props d) st = (st, []) /\ handle d st = (st, []).
Proof.
  intros Hrole Hty.
  assert (H : handle d st = (st, [])).
  { unfold handleSyncCommand. rewrite Hrole, Hty. cbn [video_at].
    now destruct (videoRef st). }
  split; [|exact H]. rewrite on_data_unfold, Hty. exact H.
Qed.

Lemma handle_host_unfold (d : Data) (st : AppState) (v : Video) :
  isHostRef st = true -> videoRef st = Some v ->
  strict_eq_string (data_type d) "HEARTBEAT" = false ->
  handle d st =
  (modify (set_isRemoteOp true) ;;
   addLog [Str "Exec: "; Val (data_type d)] ;;
   (if strict_eq_string (data_type d) "PLAY" then emit (Player HostVideo CallPlay)
    else if strict_eq_string (data_type d) "PAUSE" then emit (Player HostVideo CallPause)
    else if strict_eq_string (data_type d) "SEEK" then
      if js_gt (drift_of StringToNumber v d) half
      then assign_currentTime StringToNumber HostVideo (data_timestamp d)
      else skip
    else skip) ;;?
   modify (window_setTimeout ResetRemoteOp 300)) st.
Proof.
  intros Hrole Hv Hty. unfold handleSyncCommand. rewrite Hrole. cbn [video_at].
  now rewrite Hv, Hty.
Qed.

(** X2. A PLAY or PAUSE received by the Host calls [play()] or [pause()]
    on the Host's element exactly once and never moves the position,
    whatever timestamp it carries; it raises the loop guard and schedules
    its reset. *)
Theorem host_play_pause (ty : CommandType) (raw : JsValue) (st : AppState) (v : Video) :
  isHostRef st = true -> videoRef st = Some v -> ty = PLAY \/ ty = PAUSE ->
  let d := {| data_type := JsString (type_name ty); data_timestamp := raw |} in
  let r := on_data (Props d) st in
  player_calls (snd r) =
    [Player HostVideo (match ty with PLAY => CallPlay | _ => CallPause end)] /\
  videoRef (fst r) = videoRef st /\
  isRemoteOp (fst r) = true /\
  timers (fst r) = timers st ++ [guard_reset st].
Proof.
  intros Hrole Hv Hty d r. subst r. rewrite on_data_unfold.
  assert (Hhb : strict_eq_string (data_type d) "HEARTBEAT" = false)
    by (destruct Hty as [-> | ->]; reflexivity).
  rewrite Hhb, (handle_host_unfold d st v Hrole Hv Hhb).
  destruct Hty as [-> | ->]; cbn; auto.
Qed.


(** X4. While the landing view is shown no player element exists, and every
    received command is dropped: the state is the one before, the guard is
    not raised, and at most the "Received" line is logged. *)
Theorem landing_drops_commands (d : Data) (st : AppState) :
  reachable StringToNumber st -> view st = LANDING ->
  handle d st = (st, []) /\ fst (on_data (Props d) st) = st /\
  player_calls (snd (on_data (Props d) st)) = [].
Proof.
  intros Hreach Hview.
  destruct (reachable_inv StringToNumber st Hreach) as [_ Hvi].
  unfold view_inv in Hvi. rewrite Hview in Hvi. destruct Hvi as [Hv Hr].
  assert (H : handle d st = (st, [])).
  { unfold handleSyncCommand. destruct (isHostRef st); cbn [video_at];
      [now rewrite Hv|now rewrite Hr]. }
  split; [exact H|]. rewrite on_data_unfold, H.
  now destruct (strict_eq_string (data_type d) "HEARTBEAT").
Qed.


Lemma reachable_heartbeat_timer (st : AppState) (id : positive) :
  reachable StringToNumber st -> heartbeatInterval st = Some id ->
  exists D, In (heartbeat_timer id D) (timers st) /\
            clock st < D <= clock st + 1000 /\
            lone_heartbeat id D st.
Proof.
  intros Hreach Hh.
  destruct (reachable_deep StringToNumber st Hreach) as [Hs _].
  apply sched_elim in Hs. destruct Hs as (Hnd & _ & Hhb & Hall).
  destruct (Hhb id Hh) as [_ (t0 & Hin & Hid)].
  destruct (Hall t0 Hin) as (Hd & Hcl). unfold class_ok in Hcl.
  destruct t0 as [i d p cb]. cbn in *. subst i.
  destruct cb; [|destruct Hcl as (Hne & _); congruence].
  destruct Hcl as (_ & -> & Hbound).
  exists d. split; [exact Hin|]. split; [lia|]. split.
  - unfold with_handle. now apply with_handle_single.
  - intros t Ht Hne. destruct (Hall t Ht) as (_ & Hcl). unfold class_ok in Hcl.
    destruct (callback t); [|reflexivity].
    destruct Hcl as (E & _). rewrite Hh in E. injection E as E. congruence.
Qed.

(** X6. In every reachable state at most one timer runs the heartbeat: none
    when [heartbeatInterval] is null, and otherwise exactly the interval
    timer whose handle it holds, due within the next 1000 ms. *)
Theorem at_most_one_heartbeat_timer (st : AppState) :
  reachable StringToNumber st ->
  match heartbeatInterval st with
  | Some id =>
      exists D, heartbeat_timers st = [heartbeat_timer id D] /\
                clock st < D <= clock st + 1000
  | None => heartbeat_timers st = []
  end.
Proof.
  intros Hreach.
  destruct (reachable_deep StringToNumber st Hreach) as [Hs _].
  apply sched_elim in Hs. destruct Hs as (Hnd & _ & _ & Hall).
  destruct (heartbeatInterval st) as [id|] eqn:Hh.
  - destruct (reachable_heartbeat_timer st id Hreach Hh) as (D & Hin & HD & _).
    exists D. split; [|exact HD].
    unfold heartbeat_timers.
    rewrite (filter_ext_in is_heartbeat (fun t => Pos.eqb (tid t) id)).
    + now apply with_handle_single.
    + intros t Ht. destruct (Hall t Ht) as (_ & Hcl). unfold class_ok, is_heartbeat in *.
      destruct (callback t).
      * destruct Hcl as (E & _). injection E as ->. now rewrite Pos.eqb_refl.
      * destruct Hcl as (Hne & _). destruct (Pos.eqb_spec (tid t) id); congruence.
  - apply filter_no_heartbeat. intros t Ht.
    destruct (Hall t Ht) as (_ & Hcl). unfold class_ok in Hcl.
    destruct (callback t); [|reflexivity]. destruct Hcl as (E & _). discriminate E.
Qed.

(** X7. In every reachable state any 1000 ms without an event contain
    exactly one tick when the scheduler is active, and none when it is
    not: a tick is never late and never doubled. *)
Theorem heartbeat_in_every_window (st : AppState) :
  reachable StringToNumber st ->
  snd (wait 1000 st) =
  match heartbeatInterval st with
  | Some _ => tick_output st
  | None => []
  end.
Proof.
  intros Hreach. destruct (heartbeatInterval st) as [id|] eqn:Hh.
  - destruct (reachable_heartbeat_timer st id Hreach Hh) as (D & _ & HD & HK).
    destruct (lone_heartbeat_wait id 1000 D st HK HD) as [H _]. rewrite H.
    replace ((1000 + clock st + 1000 - D) / 1000) with 1.
    + cbn. now rewrite app_nil_r.
    + apply Nat.div_unique with (r := 1000 + clock st - D); lia.
  - apply wait_resets_only. intros t Ht.
    destruct (reachable_deep StringToNumber st Hreach) as [Hs _].
    apply sched_elim in Hs. destruct Hs as (_ & _ & _ & Hall).
    destruct (Hall t Ht) as (_ & Hcl). unfold class_ok in Hcl. rewrite Hh in Hcl.
    destruct (callback t); [|reflexivity]. destruct Hcl as (E & _). discriminate E.
Qed.

Lemma filter_keep_below (nx : positive) (ts : list Timer) :
  (forall t, In t ts -> (tid t < nx)%positive) ->
  filter (fun t => negb (Pos.eqb (tid t) nx)) ts = ts.
Proof.
  induction ts as [|t ts IH]; intros H; [reflexivity|]. cbn.
  destruct (Pos.eqb_spec (tid t) nx) as [E|E].
  - specialize (H t (or_introl eq_refl)). lia.
  - cbn. f_equal. apply IH. intros; apply H; now right.
Qed.

Lemma reachable_idle (st : AppState) :
  reachable StringToNumber st -> heartbeatInterval st = None ->
  forall t, In t (timers st) -> callback t = ResetRemoteOp.
Proof.
  intros Hreach Hh. apply idle_timers; [|exact Hh].
  now apply (reachable_deep StringToNumber).
Qed.

(** X8. Stopping undoes starting: after [startHeartbeat] then
    [stopHeartbeat] the timer table is the one [stopHeartbeat] alone would
    leave (the table before, when no heartbeat was running), no handle is
    held, and a further [stopHeartbeat] does and logs nothing. *)
Theorem stop_undoes_start (st : AppState) :
  reachable StringToNumber st ->
  let s := fst (stopHeartbeat (fst (startHeartbeat st))) in
  timers s = timers (fst (stopHeartbeat st)) /\
  (heartbeatInterval st = None -> timers s = timers st) /\
  heartbeatInterval s = None /\
  stopHeartbeat s = (s, []).
Proof.
  intros Hreach s.
  destruct (reachable_inv StringToNumber st Hreach) as [[Hfresh _] _].
  assert (Ht : timers s = timers (fst (stopHeartbeat st))).
  { subst s. unfold startHeartbeat, stopHeartbeat.
    destruct (heartbeatInterval st) as [id|] eqn:Hh; cbn; rewrite filter_app; cbn;
      rewrite Pos.eqb_refl; cbn; rewrite app_nil_r.
    - apply filter_keep_below. intros t Hin. apply filter_In in Hin. now apply Hfresh.
    - now apply filter_keep_below. }
  assert (Hn : heartbeatInterval s = None).
  { subst s. unfold startHeartbeat, stopHeartbeat.
    destruct (heartbeatInterval st); reflexivity. }
  split; [exact Ht|]. split.
  - intros Hh. rewrite Ht. unfold stopHeartbeat. now rewrite Hh.
  - split; [exact Hn|]. unfold stopHeartbeat at 1. now rewrite Hn.
Qed.

(** ** Closing the tracked connection *)

(** What a listener establishes holds after the dispatch, when the
    listeners keep it and none of them throws. *)
Lemma dispatch_establish (P : AppState -> Prop) (h : Listener -> Action)
  (ls : list (nat * Listener)) (id : nat) (l0 : Listener) (st : AppState) :
  (forall l s, threw (snd (h l s)) = false) ->
  (forall l s, P s -> P (fst (h l s))) ->
  (forall s, P (fst (h l0 s))) ->
  In (id, l0) ls -> P (fst (dispatch ls id h st)).
Proof.
  intros Hquiet Hkeep Hset. revert st.
  induction ls as [|[i l] ls IH]; intros st Hin; [destruct Hin|].
  cbn [dispatch]. destruct Hin as [E|Hin].
  - injection E as -> ->. rewrite Nat.eqb_refl.
    unfold seq_unless_thrown. rewrite Hquiet. cbn [seq fst snd].
    apply dispatch_preserves; [exact Hkeep|apply Hset].
  - destruct (Nat.eqb i id); [|now apply IH].
    unfold seq_unless_thrown. rewrite Hquiet. cbn [seq fst snd]. now apply IH.
Qed.

Lemma stopHeartbeat_quiet (st : AppState) : threw (snd (stopHeartbeat st)) = false.
Proof. unfold stopHeartbeat. now destruct (heartbeatInterval st). Qed.

Lemma stopHeartbeat_stops (st : AppState) :
  heartbeatInterval (fst (stopHeartbeat st)) = None /\
  dataConnRef (fst (stopHeartbeat st)) = dataConnRef st.
Proof. unfold stopHeartbeat. destruct (heartbeatInterval st) eqn:E; cbn; auto. Qed.

Lemma closing_stops (id : nat) (e : Event) (st : AppState) :
  closing id e -> In (id, DataConnListeners) (listeners st) ->
  heartbeatInterval (fst (step StringToNumber e st)) = None.
Proof.
  intros [-> | [err ->]] Hin; unfold step; cbn [from_dom andb]; unfold handle_event;
    destruct (view st);
    (apply (dispatch_establish (fun s => heartbeatInterval s = None) _ _ _
              DataConnListeners);
    [ intros [] s; try reflexivity; unfold dataConn_onClose, dataConn_onError;
      cbn [seq addLog emit fst snd app]; apply stopHeartbeat_quiet
    | intros [] s Hs; cbn [skip fst]; try exact Hs;
      unfold dataConn_onClose, dataConn_onError; cbn [seq addLog emit fst snd];
      unfold stopHeartbeat; rewrite Hs; exact Hs
    | intros s; unfold dataConn_onClose, dataConn_onError; cbn [seq addLog emit fst snd];
      apply stopHeartbeat_stops
    | exact Hin ]).
Qed.

Lemma closing_keeps_conn (id : nat) (e : Event) (st : AppState) :
  closing id e ->
  dataConnRef (fst (step StringToNumber e st)) =
  dataConnRef (match e with ConnClose _ => conn_becomes id false st | _ => st end).
Proof.
  intros [-> | [err ->]]; unfold step; cbn [from_dom andb]; unfold handle_event;
    destruct (view st);
    match goal with
    | |- dataConnRef (fst (dispatch ?ls ?i ?h ?s0)) = _ =>
        apply (dispatch_preserves (fun s => dataConnRef s = dataConnRef s0) h ls i s0)
    end; try reflexivity.
  all: intros [] s Hs; cbn [skip fst]; try exact Hs;
    unfold dataConn_onClose, dataConn_onError; cbn [seq addLog emit fst snd];
    now rewrite (proj2 (stopHeartbeat_stops s)).
Qed.

(** C5. While the scheduler is active a tick sends one HEARTBEAT with the
    Host's position if the connection is open and nothing otherwise, and
    stores nothing. From its start, [n] ms of waiting send one tick per
    full 1000 ms; if the connection changes state after [k] ms, the next
    [n] ms send one tick per period boundary they contain, with no burst
    for the ticks skipped before. When the tracked connection closes or
    reports an error, the listeners that [setupDataConnection] registered
    on it stop the scheduler that was started: no timer runs the heartbeat
    and waiting sends nothing. *)
Theorem heartbeat_once_per_interval (st : AppState) :
  wf st ->
  let s1 := fst (startHeartbeat st) in
  tick_output st =
    match videoRef st, dataConnRef st with
    | Some v, Some c =>
        if open c
        then [Send (conn_id c) {| type := HEARTBEAT; timestamp := currentTime v |}]
        else []
    | _, _ => []
    end /\
  fst (heartbeatTick st) = st /\
  (forall n, snd (wait n s1) = List.concat (repeat (tick_output st) (n / 1000))) /\
  (forall k n id b,
     let s2 := conn_becomes id b (fst (wait k s1)) in
     snd (wait n s2) =
     List.concat (repeat (tick_output s2) ((n + k mod 1000) / 1000))) /\
  (reachable StringToNumber st ->
   forall c e, dataConnRef st = Some c -> closing (conn_id c) e ->
     let s3 := fst (step StringToNumber e s1) in
     heartbeatInterval s1 = Some (next_timer st) /\
     heartbeatInterval s3 = None /\
     heartbeat_timers s3 = [] /\
     forall n, snd (wait n s3) = []).
Proof.
  intros Hwf s1.
  destruct (startHeartbeat_lone st Hwf) as (HK & Hc & Hv & Hd). fold s1 in HK, Hc, Hv, Hd.
  assert (Htick : tick_output s1 = tick_output st)
    by (unfold tick_output, heartbeatTick; rewrite Hv, Hd;
        destruct (videoRef st), (dataConnRef st) as [c|]; try reflexivity;
        now destruct (open c)).
  split; [|split; [apply heartbeatTick_state|split; [|split]]].
  - unfold tick_output, heartbeatTick.
    destruct (videoRef st), (dataConnRef st) as [c|]; try reflexivity.
    now destruct (open c).
  - intros n.
    destruct (lone_heartbeat_wait (next_timer st) n _ s1 HK) as [H _]; [lia|].
    rewrite H, Htick, Hc.
    replace (n + clock st + 1000 - (clock st + 1000)) with n by lia. reflexivity.
  - intros k n id b s2.
    destruct (lone_heartbeat_wait (next_timer st) k _ s1 HK) as [_ HK2]; [lia|].
    rewrite Hc in HK2.
    replace (k + clock st + 1000 - (clock st + 1000)) with k in HK2 by lia.
    destruct (wait_refs k s1) as [_ Hck].
    assert (HK3 : lone_heartbeat (next_timer st)
                    (clock st + 1000 + 1000 * (k / 1000)) s2).
    { unfold s2, conn_becomes.
      destruct (dataConnRef (fst (wait k s1))) as [c0|]; [|exact HK2].
      destruct (Nat.eqb (conn_id c0) id); exact HK2. }
    assert (Hc2 : clock s2 = k + clock st).
    { unfold s2, conn_becomes.
      assert (Hk : clock (fst (wait k s1)) = k + clock st)
        by (transitivity (k + clock s1); [exact Hck|f_equal; exact Hc]).
      destruct (dataConnRef (fst (wait k s1))) as [c0|]; [|exact Hk].
      destruct (Nat.eqb (conn_id c0) id); exact Hk. }
    pose proof (Nat.div_mod_eq k 1000) as Hdm.
    pose proof (Nat.mod_upper_bound k 1000) as Hub.
    destruct (lone_heartbeat_wait (next_timer st) n _ s2 HK3) as [H _]; [lia|].
    rewrite H, Hc2. f_equal. f_equal. f_equal. lia.
  - intros Hreach c e Hconn He s3.
    assert (Hdeep1 : deep_inv s1)
      by (apply startHeartbeat_deep; now apply (reachable_deep StringToNumber)).
    assert (Hin : In (conn_id c, DataConnListeners) (listeners s1)).
    { destruct Hdeep1 as [_ Hw]. apply Hw. now rewrite Hd. }
    assert (Hn : heartbeatInterval s3 = None) by now apply (closing_stops (conn_id c)).
    assert (Hidle : forall t, In t (timers s3) -> callback t = ResetRemoteOp).
    { apply idle_timers; [now apply step_deep|exact Hn]. }
    split; [|split; [exact Hn|split; [now apply filter_no_heartbeat|]]].
    + unfold s1, startHeartbeat. now destruct (heartbeatInterval st).
    + intros n. now apply wait_resets_only.
Qed.

(** X9. A close or an error of any connection that was ever tracked stops
    the heartbeat, also when that connection has been replaced since: no
    tick follows, although the connection now tracked is left as it is. *)
Theorem closing_any_connection_stops_heartbeat (id : nat) (e : Event) (st : AppState) :
  reachable StringToNumber st -> closing id e ->
  In (id, DataConnListeners) (listeners st) ->
  let s := fst (step StringToNumber e st) in
  heartbeatInterval s = None /\ heartbeat_timers s = [] /\
  (forall n, snd (wait n s) = []) /\
  (forall c, dataConnRef st = Some c -> conn_id c <> id -> dataConnRef s = Some c).
Proof.
  intros Hreach He Hin s.
  assert (Hn : heartbeatInterval s = None) by now apply (closing_stops id).
  assert (Hidle : forall t, In t (timers s) -> callback t = ResetRemoteOp).
  { apply reachable_idle; [now constructor|exact Hn]. }
  split; [exact Hn|]. split; [now apply filter_no_heartbeat|].
  split; [intros n; now apply wait_resets_only|].
  intros c Hc Hne. subst s. rewrite (closing_keeps_conn id e st He).
  destruct He as [-> | [err ->]]; [|exact Hc].
  unfold conn_becomes. rewrite Hc.
  destruct (Nat.eqb_spec (conn_id c) id); [contradiction|exact Hc].
Qed.

(** X10. When the tracked connection closes, the ref shows it closed, the
    heartbeat is stopped, a tick would send nothing, and every command the
    user issues afterwards is refused with "Send Fail: Conn Closed". *)
Theorem tracked_connection_closes (c : DataConnection) (st : AppState) :
  reachable StringToNumber st -> dataConnRef st = Some c ->
  let s := fst (step StringToNumber (ConnClose (conn_id c)) st) in
  option_map open (dataConnRef s) = Some false /\
  option_map conn_id (dataConnRef s) = Some (conn_id c) /\
  heartbeatInterval s = None /\ tick_output s = [] /\
  forall ty ts, sendCommand ty ts s = (s, [Log [Str "Send Fail: Conn Closed"]]).
Proof.
  intros Hreach Hc s.
  destruct (reachable_deep StringToNumber st Hreach) as [_ Hw].
  assert (Hd : dataConnRef s =
               Some {| conn_id := conn_id c; peer := peer c; label := label c;
                       open := false |}).
  { subst s. rewrite (closing_keeps_conn (conn_id c) _ st (or_introl eq_refl)).
    unfold conn_becomes. now rewrite Hc, Nat.eqb_refl. }
  rewrite Hd. cbn [option_map open conn_id]. repeat split.
  - apply (closing_stops (conn_id c)); [now left|now apply Hw].
  - unfold tick_output, heartbeatTick. rewrite Hd. now destruct (videoRef s).
  - intros ty ts. unfold sendCommand. now rewrite Hd.
Qed.

Lemma drift_self_one (x : number) : js_gt (Math_abs (js_sub x x)) one = false.
Proof.
  destruct x as [s|s| |s m e]; try (destruct s; reflexivity); try reflexivity.
  now rewrite js_sub_self_finite.
Qed.

Lemma handle_client_unfold (d : Data) (st : AppState) (v : Video) :
  isHostRef st = false -> remoteVideoRef st = Some v ->
  data_type d = JsString "HEARTBEAT" ->
  handle d st =
  ((if js_gt (drift_of StringToNumber v d) half
    then addLog [Str "Drift: "; Fixed2 (drift_of StringToNumber v d); Str "s"]
    else skip) ;;
   (if js_gt (drift_of StringToNumber v d) one
    then addLog [Str "Syncing drift: "; Fixed2 (drift_of StringToNumber v d); Str "s"] ;;
         assign_currentTime StringToNumber RemoteVideo (data_timestamp d)
    else skip)) st.
Proof.
  intros Hrole Hv Hty. unfold handleSyncCommand. rewrite Hrole. cbn [video_at].
  now rewrite Hv, Hty.
Qed.

(** X11. Delivering the same HEARTBEAT to a Client twice is harmless: the
    second delivery never changes the state again, and when the first one
    corrected the position the player is exactly at the timestamp and the
    second delivery does and logs nothing. When the player refuses the
    timestamp (it is not finite) the first delivery throws after its log
    lines and leaves the state as it was, so every further delivery logs
    and throws in the same way and the position is never corrected. *)
Theorem heartbeat_redelivery (d : Data) (st : AppState) :
  isHostRef st = false -> data_type d = JsString "HEARTBEAT" ->
  let s := fst (handle d st) in
  fst (handle d s) = s /\
  (seeks RemoteVideo (snd (handle d st)) = 1 ->
   position RemoteVideo s = Some (ToNumber StringToNumber (data_timestamp d)) /\
   handle d s = (s, [])) /\
  (threw (snd (handle d st)) = true ->
   s = st /\ handle d s = handle d st /\
   seeks RemoteVideo (snd (handle d st)) = 0 /\
   js_isFinite (ToNumber StringToNumber (data_timestamp d)) = false).
Proof.
  intros Hrole Hty s. subst s.
  destruct (remoteVideoRef st) as [v|] eqn:Hv.
  - rewrite (handle_client_unfold d st v Hrole Hv Hty).
    destruct (js_gt (drift_of StringToNumber v d) one) eqn:H1.
    + destruct (js_isFinite (ToNumber StringToNumber (data_timestamp d))) eqn:Hf.
      * set (w := with_currentTime (ToNumber StringToNumber (data_timestamp d)) v).
        set (s := set_remoteVideoRef (Some w) st).
        assert (Es : fst (((if js_gt (drift_of StringToNumber v d) half
                            then addLog [Str "Drift: "; Fixed2 (drift_of StringToNumber v d);
                                         Str "s"]
                            else skip) ;;
                           (addLog [Str "Syncing drift: ";
                                    Fixed2 (drift_of StringToNumber v d); Str "s"] ;;
                            assign_currentTime StringToNumber RemoteVideo (data_timestamp d)))
                            st) = s).
        { destruct (js_gt (drift_of StringToNumber v d) half);
            unfold assign_currentTime; cbn; now rewrite Hv, Hf. }
        rewrite Es.
        assert (Hs : handle d s = (s, [])).
        { rewrite (handle_client_unfold d s w Hrole eq_refl Hty).
          unfold drift_of. cbn [w with_currentTime currentTime].
          now rewrite drift_self, drift_self_one. }
        rewrite Hs. split; [reflexivity|]. split; [intros _; split; reflexivity|].
        destruct (js_gt (drift_of StringToNumber v d) half);
          unfold assign_currentTime; cbn; rewrite Hv, Hf; cbn; discriminate.
      * assert (Es : fst (((if js_gt (drift_of StringToNumber v d) half
                            then addLog [Str "Drift: "; Fixed2 (drift_of StringToNumber v d);
                                         Str "s"]
                            else skip) ;;
                           (addLog [Str "Syncing drift: ";
                                    Fixed2 (drift_of StringToNumber v d); Str "s"] ;;
                            assign_currentTime StringToNumber RemoteVideo (data_timestamp d)))
                            st) = st).
        { destruct (js_gt (drift_of StringToNumber v d) half);
            unfold assign_currentTime, throw; cbn; now rewrite Hv, Hf. }
        rewrite Es, (handle_client_unfold d st v Hrole Hv Hty), H1.
        split; [exact Es|].
        destruct (js_gt (drift_of StringToNumber v d) half);
          unfold assign_currentTime, throw; cbn; rewrite Hv, Hf; cbn;
          (split; [discriminate|intros _; repeat split]).
    + assert (Es : fst (((if js_gt (drift_of StringToNumber v d) half
                          then addLog [Str "Drift: "; Fixed2 (drift_of StringToNumber v d);
                                       Str "s"]
                          else skip) ;; skip) st) = st)
        by (destruct (js_gt (drift_of StringToNumber v d) half); reflexivity).
      rewrite Es, (handle_client_unfold d st v Hrole Hv Hty), H1.
      split; [exact Es|].
      destruct (js_gt (drift_of StringToNumber v d) half); split; discriminate.
  - assert (E : handle d st = (st, [])).
    { unfold handleSyncCommand. rewrite Hrole. cbn [video_at]. now rewrite Hv. }
    rewrite E. cbn [fst snd]. rewrite E. split; [reflexivity|split; discriminate].
Qed.

(** X12. A SEEK delivered to the Host a second time never moves the player
    again: whatever the first delivery did, the second assigns nothing and
    leaves the position where the first left it. The second delivery throws
    exactly when the first did, which is when the player refuses the
    timestamp; then neither delivery moves the player. *)
Theorem seek_redelivery (d : Data) (st : AppState) (v : Video) :
  isHostRef st = true -> videoRef st = Some v -> data_type d = JsString "SEEK" ->
  let s := fst (handle d st) in
  seeks HostVideo (snd (handle d s)) = 0 /\
  videoRef (fst (handle d s)) = videoRef s /\
  threw (snd (handle d s)) = threw (snd (handle d st)) /\
  (threw (snd (handle d st)) = true ->
   videoRef s = videoRef st /\ seeks HostVideo (snd (handle d st)) = 0).
Proof.
  intros Hrole Hv Hty s. destruct d as [ty raw]. cbn in Hty. subst ty. subst s.
  rewrite (handle_host_seek_cases StringToNumber st v raw Hrole Hv).
  destruct (js_gt (Math_abs (js_sub (currentTime v) (ToNumber StringToNumber raw))) half)
    eqn:Hd; [destruct (js_isFinite (ToNumber StringToNumber raw)) eqn:Hf|];
    cbn [fst snd].
  - set (w := with_currentTime (ToNumber StringToNumber raw) v).
    set (s := window_setTimeout ResetRemoteOp 300
                (set_videoRef (Some w) (set_isRemoteOp true st))).
    rewrite (handle_host_seek_cases StringToNumber s w raw Hrole eq_refl).
    cbn [w with_currentTime currentTime]. rewrite drift_self. cbn.
    split; [reflexivity|split; [reflexivity|split; [reflexivity|intros H; discriminate H]]].
  - set (s := set_isRemoteOp true st).
    rewrite (handle_host_seek_cases StringToNumber s v raw Hrole Hv).
    rewrite Hd, Hf. cbn.
    split; [reflexivity|split; [reflexivity|split; [reflexivity|intros _; now split]]].
  - set (s := window_setTimeout ResetRemoteOp 300 (set_isRemoteOp true st)).
    rewrite (handle_host_seek_cases StringToNumber s v raw Hrole Hv).
    rewrite Hd. cbn.
    split; [reflexivity|split; [reflexivity|split; [reflexivity|intros H; discriminate H]]].
Qed.

(** X13. A stream that arrives while the mounted component shows the
    CLIENT view is attached to the Client's element and played; in any
    other view, and once the component is unmounted, no element exists, and
    the stream is logged and dropped. *)
Theorem remote_stream_needs_client_view (stream : nat) (st : AppState) :
  reachable StringToNumber st ->
  let r := step StringToNumber (CallStream stream) st in
  if match view st with CLIENT => negb (cancelled st) | _ => false end
  then option_map srcObject (remoteVideoRef (fst r)) = Some (Some stream) /\
       player_calls (snd r) =
       [Player RemoteVideo (AssignSrcObject stream); Player RemoteVideo CallPlay]
  else r = (st, [Log [Str "Received remote stream"]]).
Proof.
  intros Hreach r. subst r.
  destruct (reachable_inv StringToNumber st Hreach) as [_ Hvi].
  unfold view_inv, mounted in Hvi. unfold step. cbn [from_dom andb].
  unfold handle_event, call_onStream, seq, addLog, emit.
  destruct (view st); cbn [fst snd].
  - destruct Hvi as [_ Hr]. now rewrite Hr.
  - destruct Hvi as (_ & _ & Hr). now rewrite Hr.
  - destruct Hvi as (_ & _ & Hr). destruct (cancelled st); cbn [negb].
    + now rewrite Hr.
    + destruct (remoteVideoRef st) as [w|]; [|congruence]. cbn. auto.
Qed.

(** ** The file test *)

Lemma substring_all (s : string) : substring 0 (String.length s) s = s.
Proof. induction s as [|c s IH]; cbn; [reflexivity|now rewrite IH]. Qed.

Lemma length_append (s t : string) :
  String.length (s ++ t) = String.length s + String.length t.
Proof. induction s as [|c s IH]; cbn; [reflexivity|now rewrite IH]. Qed.

Lemma substring_append_tail (s t : string) :
  substring (String.length s) (String.length t) (s ++ t) = t.
Proof. induction s as [|c s IH]; cbn; [apply substring_all|exact IH]. Qed.

Lemma substring_split (n : nat) (s : string) :
  n <= String.length s ->
  s = (substring 0 n s ++ substring n (String.length s - n) s)%string.
Proof.
  revert n. induction s as [|c s IH]; intros [|n] H; cbn in *; try lia.
  - reflexivity.
  - now rewrite substring_all.
  - rewrite <- IH by lia. reflexivity.
Qed.

Lemma toLowerCase_append (s t : string) :
  toLowerCase (s ++ t) = (toLowerCase s ++ toLowerCase t)%string.
Proof. induction s as [|c s IH]; cbn; [reflexivity|now rewrite IH]. Qed.

Lemma toLowerCase_length (s : string) :
  String.length (toLowerCase s) = String.length s.
Proof. induction s as [|c s IH]; cbn; [reflexivity|now rewrite IH]. Qed.

Lemma toLowerCase_substring (n m : nat) (s : string) :
  toLowerCase (substring n m s) = substring n m (toLowerCase s).
Proof.
  revert n m. induction s as [|c s IH]; intros [|n] [|m]; cbn; try reflexivity.
  - now rewrite IH.
  - apply IH.
  - apply IH.
Qed.

Lemma endsWith_mp4 (name : string) :
  endsWith (toLowerCase name) ".mp4" = true <-> has_mp4_extension name.
Proof.
  unfold endsWith, has_mp4_extension. rewrite toLowerCase_length. split.
  - intros H. apply andb_prop in H. destruct H as [Hlen Heq].
    apply Nat.leb_le in Hlen. apply String.eqb_eq in Heq.
    change (String.length ".mp4") with 4 in *.
    exists (substring 0 (String.length name - 4) name),
           (substring (String.length name - 4) 4 name). split.
    + rewrite (substring_split (String.length name - 4) name) at 1 by lia.
      do 2 f_equal. lia.
    + now rewrite toLowerCase_substring.
  - intros (base & ext & -> & Hext).
    assert (Hl : String.length ext = 4)
      by (rewrite <- toLowerCase_length, Hext; reflexivity).
    rewrite toLowerCase_append, length_append, Hext, Hl.
    change (String.length ".mp4") with 4.
    replace (String.length base + 4 - 4) with (String.length (toLowerCase base))
      by (rewrite toLowerCase_length; lia).
    replace (Nat.leb 4 (String.length base + 4)) with true
      by (symmetry; apply Nat.leb_le; lia).
    change 4 with (String.length ".mp4") at 1.
    now rewrite substring_append_tail.
Qed.

(** X14. The file test: a file is taken when its MIME type is [video/mp4]
    or its name ends in [.mp4] in any letter case, and then, with the
    Host's element mounted, the role is Host and the element plays the
    file's URL; any other file is refused with an alert and changes
    nothing. *)
Theorem file_gate (f : File) (m : MediaEnv) (st : AppState) :
  let r := handleFileChange (Some f) m st in
  (file_type f = "video/mp4" \/ has_mp4_extension (file_name f) ->
   (forall msg, ~ In (Alert msg) (snd r)) /\
   forall v, videoRef st = Some v ->
     isHostRef (fst r) = true /\
     videoRef (fst r) = Some (with_src (file_url f) v)) /\
  (file_type f <> "video/mp4" -> ~ has_mp4_extension (file_name f) ->
   r = (st, [Alert "Format not supported. Please use MP4 video files.";
             Log [Str "Error: Non-MP4 file selected"];
             SetStatus [Str "Error: Only MP4 is supported (Browser limit)."]])).
Proof.
  intros r. subst r. unfold handleFileChange. split.
  - intros Hok.
    assert (E : negb (String.eqb (file_type f) "video/mp4")
                && negb (endsWith (toLowerCase (file_name f)) ".mp4") = false).
    { destruct Hok as [Hty|Hext].
      - rewrite Hty. reflexivity.
      - apply endsWith_mp4 in Hext. rewrite Hext. apply andb_false_r. }
    rewrite E. destruct (videoRef st) as [v|] eqn:Hv.
    + assert (Hshape : forall e,
                In e (snd ((modify (set_videoRef (Some (with_src (file_url f) v))) ;;
                            emit (Player HostVideo (AssignSrc (file_url f))) ;;
                            emit (SetIsHost true) ;;
                            modify (set_isHostRef true) ;;
                            (fun st1 =>
                               match dataConnRef st1, peerRef st1 with
                               | Some c, Some _ =>
                                   if open c then
                                     (addLog [Str "Late video load: Calling existing client (HQ)..."] ;;
                                      match capture m with
                                      | CaptureThrows msg =>
                                          addLog [Str "Error capturing stream: "; Str msg]
                                      | Captured stream _ =>
                                          match call m with
                                          | CallThrows msg =>
                                              addLog [Str "Error capturing stream: "; Str msg]
                                          | CallPlaced =>
                                              emit (PeerCall (peer c) stream) ;; startHeartbeat
                                          end
                                      end) st1
                                   else skip st1
                               | _, _ => skip st1
                               end)) st)) ->
                forall msg, e <> Alert msg).
      { intros e Hin msg. cbn in Hin.
        destruct (dataConnRef st) as [c|], (peerRef st); cbn in Hin;
          try destruct (open c); try destruct (capture m); try destruct (call m);
          unfold startHeartbeat in Hin; try destruct (heartbeatInterval st);
          cbn in Hin;
          repeat (destruct Hin as [<-|Hin]; [discriminate|]); now destruct Hin. }
      split; [intros msg Hin; exact (Hshape _ Hin msg eq_refl)|].
      intros v' Hv'. injection Hv' as <-. cbn.
      destruct (dataConnRef st) as [c|], (peerRef st); cbn;
        try destruct (open c); try destruct (capture m); try destruct (call m);
        unfold startHeartbeat; cbn; try destruct (heartbeatInterval st); cbn; auto.
    + split; [intros msg []|intros v Hv'; discriminate Hv'].
  - intros Hty Hext.
    assert (E : negb (String.eqb (file_type f) "video/mp4")
                && negb (endsWith (toLowerCase (file_name f)) ".mp4") = true).
    { apply andb_true_intro. split; apply negb_true_iff.
      - now apply String.eqb_neq.
      - destruct (endsWith (toLowerCase (file_name f)) ".mp4") eqn:E; [|reflexivity].
        apply endsWith_mp4 in E. contradiction. }
    rewrite E. reflexivity.
Qed.

(** X15. Late video load: when an accepted file is chosen, the Host calls
    the tracked peer and restarts the heartbeat exactly when the tracked
    connection is open, the peer exists and neither [captureStream] nor
    [call] throws; in every other case no call is placed and the timers
    and the heartbeat handle stay as they were. *)
Theorem late_video_load (f : File) (m : MediaEnv) (st : AppState) (v : Video) :
  file_type f = "video/mp4" \/ has_mp4_extension (file_name f) ->
  videoRef st = Some v ->
  let r := handleFileChange (Some f) m st in
  match dataConnRef st, peerRef st, media_ok m with
  | Some c, Some _, Some stream =>
      if open c then
        placed_calls (snd r) = [PeerCall (peer c) stream] /\
        heartbeatInterval (fst r) = Some (next_timer st) /\
        In (heartbeat_timer (next_timer st) (clock st + 1000)) (timers (fst r))
      else
        placed_calls (snd r) = [] /\ heartbeatInterval (fst r) = heartbeatInterval st /\
        timers (fst r) = timers st
  | _, _, _ =>
      placed_calls (snd r) = [] /\ heartbeatInterval (fst r) = heartbeatInterval st /\
      timers (fst r) = timers st
  end.
Proof.
  intros Hok Hv r. subst r. unfold handleFileChange, media_ok.
  assert (E : negb (String.eqb (file_type f) "video/mp4")
              && negb (endsWith (toLowerCase (file_name f)) ".mp4") = false).
  { destruct Hok as [Hty|Hext].
    - rewrite Hty. reflexivity.
    - apply endsWith_mp4 in Hext. rewrite Hext. apply andb_false_r. }
  rewrite E, Hv. cbn.
  destruct (dataConnRef st) as [c|], (peerRef st), (capture m), (call m); cbn;
    try destruct (open c); cbn; auto.
  unfold startHeartbeat; cbn. destruct (heartbeatInterval st); cbn;
    repeat split; apply in_or_app; right; now left.
Qed.

(** X16. "Fix Black Screen" in the HOST view calls the peer of the tracked
    connection once, whether or not that connection is open, provided the
    peer exists and neither [captureStream] nor [call] throws; otherwise it
    calls nobody. The component state is never changed. (Once the
    component is unmounted there is no button, and nobody is called.) *)
Theorem fix_black_screen_call (m : MediaEnv) (st : AppState) :
  reachable StringToNumber st -> view st = HOST ->
  let r := step StringToNumber (ClickFixBlackScreen m) st in
  fst r = st /\
  placed_calls (snd r) =
  if cancelled st then []
  else match peerRef st, dataConnRef st, media_ok m with
       | Some _, Some c, Some stream => [PeerCall (peer c) stream]
       | _, _, _ => []
       end.
Proof.
  intros Hreach Hview r. subst r.
  destruct (reachable_inv StringToNumber st Hreach) as [_ Hvi].
  unfold view_inv, mounted in Hvi. rewrite Hview in Hvi. destruct Hvi as (Hrole & Hv & _).
  unfold step. cbn [from_dom andb].
  destruct (cancelled st); [split; reflexivity|].
  unfold handle_event. rewrite Hview. split; [apply restartStream_state|].
  unfold restartStream, media_ok. rewrite Hrole.
  destruct (videoRef st); [|congruence].
  destruct (peerRef st), (dataConnRef st) as [c|]; try reflexivity;
    destruct (capture m) as [msg|stream [|t0 tracks]], (call m); reflexivity.
Qed.

Lemma open_keeps (c : DataConnection) (m : MediaEnv) (l : Listener) (s : AppState) :
  let s' := fst (match l with
                 | DataConnListeners => dataConn_onOpen (opened c)
                 | HostOpenListener => host_onOpen (opened c) m
                 | ClientOpenListener => client_onOpen (opened c)
                 end s) in
  view s' = view s /\ isRemoteOp s' = isRemoteOp s /\ cancelled s' = cancelled s /\
  (dataConnRef s = Some (opened c) -> dataConnRef s' = Some (opened c)).
Proof.
  destruct l; cbn.
  - unfold dataConn_onOpen, startHeartbeat; cbn.
    destruct (isHostRef s); cbn; [destruct (heartbeatInterval s)|]; cbn; auto.
  - unfold host_onOpen. destruct (cancelled s) eqn:Hk; cbn; auto.
    destruct (videoRef s); cbn; auto.
    destruct (capture m); cbn; auto. destruct (call m); cbn; auto.
  - auto.
Qed.

Lemma open_quiet (c : DataConnection) (m : MediaEnv) (l : Listener) (s : AppState) :
  threw (snd (match l with
              | DataConnListeners => dataConn_onOpen (opened c)
              | HostOpenListener => host_onOpen (opened c) m
              | ClientOpenListener => client_onOpen (opened c)
              end s)) = false.
Proof.
  destruct l; cbn.
  - unfold dataConn_onOpen, startHeartbeat; cbn.
    destruct (isHostRef s); cbn; [destruct (heartbeatInterval s)|]; reflexivity.
  - unfold host_onOpen. destruct (cancelled s); cbn; [reflexivity|].
    destruct (videoRef s); cbn; [|reflexivity].
    destruct (capture m); cbn; [reflexivity|]. destruct (call m); reflexivity.
  - reflexivity.
Qed.

(** X17. Joining as Client: before the connection to the Host has opened
    no connection is tracked and Play is refused with "Send Fail: No Conn";
    Connect asks PeerJS for a connection to the typed id and still tracks
    nothing; once that connection opens it is the tracked one, and Play
    sends PLAY with timestamp 0 on it. (Once the component is unmounted
    there are no buttons: Play and Connect do nothing.) *)
Theorem client_connect_flow (c : DataConnection) (m : MediaEnv) (st : AppState) :
  view st = CLIENT -> peerRef st <> None -> remoteId st <> EmptyString ->
  dataConnRef st = None -> isRemoteOp st = false ->
  let r1 := step StringToNumber (ClickConnect c) st in
  let r2 := step StringToNumber (ConnOpen c m) (fst r1) in
  if cancelled st
  then step StringToNumber ClickPlay st = (st, []) /\ r1 = (st, [])
  else
    snd (step StringToNumber ClickPlay st) = [Log [Str "Send Fail: No Conn"]] /\
    In (PeerConnect (remoteId st)) (snd r1) /\
    dataConnRef (fst r1) = None /\
    snd (step StringToNumber ClickPlay (fst r1)) = [Log [Str "Send Fail: No Conn"]] /\
    dataConnRef (fst r2) = Some (opened c) /\
    sends (snd (step StringToNumber ClickPlay (fst r2))) =
    [Send (conn_id c) {| type := PLAY; timestamp := zero |}].
Proof.
  intros Hview Hpeer Hid Hconn Hguard r1 r2.
  destruct (cancelled st) eqn:Hlive.
  { subst r1. unfold step. cbn [from_dom andb]. rewrite Hlive. split; reflexivity. }
  assert (E1 : fst r1 = register (conn_id c) ClientOpenListener st /\
               In (PeerConnect (remoteId st)) (snd r1)).
  { subst r1. unfold step, handle_event. cbn [from_dom andb]. rewrite Hlive, Hview.
    unfold connectToHost.
    destruct (peerRef st); [|congruence].
    destruct (String.eqb_spec (remoteId st) EmptyString); [contradiction|].
    cbn. auto. }
  destruct E1 as [E1 Hin].
  assert (Hplay0 : snd (step StringToNumber ClickPlay st) =
                   [Log [Str "Send Fail: No Conn"]]).
  { unfold step, handle_event. cbn [from_dom andb]. rewrite Hlive, Hview.
    unfold sendCommand. now rewrite Hconn. }
  assert (Hplay1 : snd (step StringToNumber ClickPlay (fst r1)) =
                   [Log [Str "Send Fail: No Conn"]]).
  { rewrite E1. unfold step, handle_event.
    cbn [from_dom andb register view cancelled set_listeners]. rewrite Hlive, Hview.
    unfold sendCommand. cbn. now rewrite Hconn. }
  assert (H2 : view (fst r2) = CLIENT /\ isRemoteOp (fst r2) = false /\
               cancelled (fst r2) = false /\
               dataConnRef (fst r2) = Some (opened c)).
  { subst r2. rewrite E1. unfold step, handle_event.
    cbn [from_dom andb register view set_listeners].
    rewrite ?Hview.
    set (s0 := conn_becomes (conn_id c) true _).
    assert (Hs0 : view s0 = CLIENT /\ isRemoteOp s0 = false /\ cancelled s0 = false).
    { subst s0. unfold conn_becomes. cbn. rewrite Hconn. cbn. auto. }
    split; [|split; [|split]].
    - apply (dispatch_preserves (fun s => view s = CLIENT)); [|apply Hs0].
      intros l s Hs. destruct (open_keeps c m l s) as (Hv & _). congruence.
    - apply (dispatch_preserves (fun s => isRemoteOp s = false)); [|apply Hs0].
      intros l s Hs. destruct (open_keeps c m l s) as (_ & Hg & _). congruence.
    - apply (dispatch_preserves (fun s => cancelled s = false)); [|apply Hs0].
      intros l s Hs. destruct (open_keeps c m l s) as (_ & _ & Hk & _). congruence.
    - apply (dispatch_establish (fun s => dataConnRef s = Some (opened c)) _ _ _
               ClientOpenListener).
      + intros l s. apply open_quiet.
      + intros l s Hs. destruct (open_keeps c m l s) as (_ & _ & _ & Hd). now apply Hd.
      + intros s. reflexivity.
      + cbn. apply in_or_app. right. now left. }
  destruct H2 as (Hv2 & Hg2 & Hk2 & Hd2).
  repeat split; auto.
  - now rewrite E1.
  - unfold step, handle_event. cbn [from_dom andb]. rewrite Hk2, Hv2.
    unfold sendCommand. rewrite Hd2, Hg2. reflexivity.
Qed.

(** ** What a step can change *)

Lemma conn_becomes_frame (id : nat) (b : bool) (st : AppState) :
  cancelled (conn_becomes id b st) = cancelled st /\
  isRemoteOp (conn_becomes id b st) = isRemoteOp st /\
  isHostRef (conn_becomes id b st) = isHostRef st /\
  videoRef (conn_becomes id b st) = videoRef st.
Proof.
  unfold conn_becomes. destruct (dataConnRef st) as [c|]; [|auto].
  destruct (Nat.eqb (conn_id c) id); auto.
Qed.

(** What a received payload can change besides the positions and the
    timers: the guard, and only on a Host with an element, for a payload
    that is not a HEARTBEAT. *)
Lemma onData_frame (p : Payload) (st : AppState) :
  let s := fst (on_data p st) in
  cancelled s = cancelled st /\ isHostRef s = isHostRef st /\
  ((isRemoteOp s = isRemoteOp st /\ videoRef s = videoRef st) \/
   (exists d, p = Props d /\ isHostRef st = true /\ videoRef st <> None /\
              strict_eq_string (data_type d) "HEARTBEAT" = false)).
Proof.
  destruct p as [|d]; [cbn; auto|].
  assert (E : fst (on_data (Props d) st) = fst (handle d st)).
  { rewrite on_data_unfold. now destruct (strict_eq_string _ _). }
  cbv zeta. rewrite E. clear E. unfold handleSyncCommand.
  destruct (isHostRef st) eqn:Hrole; cbn [video_at].
  - destruct (videoRef st) as [v|] eqn:Hv; [|cbn; auto].
    destruct (strict_eq_string (data_type d) "HEARTBEAT") eqn:Hty; [cbn; auto|].
    assert (Hr : exists d0, Props d = Props d0 /\ true = true /\ Some v <> None /\
                            strict_eq_string (data_type d0) "HEARTBEAT" = false)
      by (exists d; repeat split; [discriminate|exact Hty]).
    destruct (strict_eq_string (data_type d) "PLAY");
      [|destruct (strict_eq_string (data_type d) "PAUSE");
        [|destruct (strict_eq_string (data_type d) "SEEK");
          [destruct (js_gt (drift_of StringToNumber v d) half)|]]];
      unfold assign_currentTime, seq_unless_thrown, throw; cbn; try rewrite Hv; cbn;
      try destruct (js_isFinite (ToNumber StringToNumber (data_timestamp d)));
      cbn; try rewrite Hv; cbn; auto.
  - destruct (remoteVideoRef st) as [v|] eqn:Hv; [|cbn; auto].
    destruct (strict_eq_string (data_type d) "HEARTBEAT"); [|cbn; auto].
    destruct (js_gt (drift_of StringToNumber v d) half),
             (js_gt (drift_of StringToNumber v d) one);
      unfold assign_currentTime, throw; cbn; try rewrite Hv; cbn;
      try destruct (js_isFinite (ToNumber StringToNumber (data_timestamp d)));
      cbn; auto.
Qed.

Lemma step_cancelled (e : Event) (st : AppState) :
  cancelled st = true -> cancelled (fst (step StringToNumber e st)) = true.
Proof.
  intros Hc. unfold step.
  destruct (from_dom e && cancelled st); [exact Hc|]. unfold handle_event.
  destruct e; destruct (view st); try exact Hc;
    try (apply (dispatch_preserves (fun s => cancelled s = true));
         [intros [] s Hs; try (rewrite (proj1 (onData_frame data s)); exact Hs);
          handlers; congruence
         |rewrite (proj1 (conn_becomes_frame _ _ st)) || idtac; exact Hc]).
  all: try (destruct (elapse_refs st) as [(_ & _ & _ & _ & _ & _ & _ & _ & H & _) _];
            now rewrite H).
  all: handlers; try (destruct slot; state_red); congruence.
Qed.

Lemma run_cancelled (es : list Event) (st : AppState) :
  cancelled st = true -> cancelled (fst (run StringToNumber es st)) = true.
Proof.
  revert st. induction es as [|e es IH]; intros st H; cbn [run seq skip fst snd];
    [exact H|].
  now apply IH, step_cancelled.
Qed.

(** X18. Unmounting is final: whatever events follow, the component stays
    cancelled, and every event of the peer itself (library loaded or
    failed, open, error, incoming connection, incoming call) is ignored:
    no state change, no log, no status, no answer. *)
Theorem unmount_is_final (es : list Event) (e : Event) (st : AppState) :
  peer_level e = true ->
  let s := fst (run StringToNumber es (fst (step StringToNumber Unmount st))) in
  cancelled s = true /\ step StringToNumber e s = (s, []).
Proof.
  intros He s.
  assert (Hc : cancelled s = true).
  { subst s. apply run_cancelled. unfold step, handle_event. cbn [from_dom andb].
    destruct (view st); cbn; now destruct (peerRef st). }
  split; [exact Hc|]. unfold step, handle_event.
  destruct e; try discriminate He; cbn [from_dom andb]; destruct (view s);
    unfold peer_onOpen, peer_onError, peer_onConnection, peer_onCall;
    rewrite ?Hc; try reflexivity; now destruct (peerRef s).
Qed.

Lemma dispatch_preserves_in (P : AppState -> Prop) (h : Listener -> Action)
  (ls : list (nat * Listener)) (id : nat) (st : AppState) :
  (forall l s, In (id, l) ls -> P s -> P (fst (h l s))) -> P st ->
  P (fst (dispatch ls id h st)).
Proof.
  revert st. induction ls as [|[i l] ls IH]; intros st Hh H; cbn [dispatch];
    [exact H|].
  destruct (Nat.eqb_spec i id) as [->|Hne].
  - unfold seq_unless_thrown.
    destruct (threw (snd (h l st))); [apply Hh; [now left|exact H]|].
    cbn [seq fst snd]. apply IH; [intros; apply Hh; [now right|assumption]|].
    apply Hh; [now left|exact H].
  - apply IH; [intros; apply Hh; [now right|assumption]|exact H].
Qed.

Lemma dispatch_effects (Q : Effect -> Prop) (h : Listener -> Action)
  (ls : list (nat * Listener)) (id : nat) (st : AppState) :
  (forall l s, Forall Q (snd (h l s))) -> Forall Q (snd (dispatch ls id h st)).
Proof.
  intros Hh. revert st. induction ls as [|[i l] ls IH]; intros st; cbn [dispatch];
    [constructor|].
  destruct (Nat.eqb i id); [|apply IH].
  unfold seq_unless_thrown. destruct (threw (snd (h l st))); [apply Hh|].
  cbn [seq fst snd]. apply Forall_app. split; [apply Hh|apply IH].
Qed.

Lemma onData_sends_nothing (p : Payload) (st : AppState) :
  Forall (fun x => is_send x = false) (snd (on_data p st)).
Proof.
  destruct p as [|d]; [repeat constructor|].
  apply Forall_forall. intros x Hin.
  apply (on_data_effects StringToNumber) in Hin.
  destruct Hin as [->|[->|[[y ->]|[[y ->]|[[slot [->|[->| ->]]]| ->]]]]]; reflexivity.
Qed.

Lemma fire_all_effects (ts : list Timer) (st : AppState) :
  Forall (fun x => In x (tick_output st)) (snd (fire_all ts st)).
Proof.
  revert st. induction ts as [|t ts IH]; intros st; cbn [fire_all seq skip fst snd];
    [constructor|].
  apply Forall_app. split.
  - rewrite fire_effects. destruct (existsb _ (timers st)); [|constructor].
    destruct (callback t); [|constructor]. apply Forall_forall. auto.
  - rewrite <- (tick_output_refs _ _ (proj1 (fire_refs t st))). apply IH.
Qed.

Lemma step_guard_other (e : Event) (st : AppState) :
  (forall c d, e <> ConnData c d) -> isRemoteOp st = false ->
  isRemoteOp (fst (step StringToNumber e st)) = false.
Proof.
  intros Hne Hg. unfold step.
  destruct (from_dom e && cancelled st); [exact Hg|]. unfold handle_event.
  destruct e; try (now destruct (Hne c data)); destruct (view st); try exact Hg;
    try (apply (dispatch_preserves (fun s => isRemoteOp s = false));
         [intros [] s Hs; handlers; congruence
         |rewrite (proj1 (proj2 (conn_becomes_frame _ _ st))) || idtac; exact Hg]).
  all: try (now apply elapse_guard_off).
  all: handlers; try (destruct slot; state_red); congruence.
Qed.

(** X19. The loop guard is raised by nothing but a payload, neither null
    nor undefined, received on a connection with data listeners while the
    role is Host and the Host's element is mounted, and never by a
    HEARTBEAT: no click, media event, timer or connection event raises it,
    and a Client never does. *)
Theorem guard_raised_only_by_remote_command (e : Event) (st : AppState) :
  isRemoteOp st = false -> isRemoteOp (fst (step StringToNumber e st)) = true ->
  isHostRef st = true /\ videoRef st <> None /\
  exists c d, e = ConnData c (Props d) /\ data_type d <> JsString "HEARTBEAT" /\
              In (c, DataConnListeners) (listeners st).
Proof.
  intros Hg Hup.
  assert (He : exists c p, e = ConnData c p).
  { destruct e; eauto;
      rewrite step_guard_other in Hup by (try discriminate; assumption);
      discriminate Hup. }
  destruct He as (c & p & ->).
  assert (Hp : exists d, p = Props d).
  { destruct p as [|d]; [|now exists d]. exfalso.
    assert (Hq : isRemoteOp (fst (step StringToNumber (ConnData c Nullish) st)) = false).
    { unfold step, handle_event. cbn [from_dom andb]. destruct (view st);
        apply (dispatch_preserves (fun s => isRemoteOp s = false)); auto;
        intros [] s Hs; exact Hs. }
    congruence. }
  destruct Hp as (d & ->).
  assert (Hkeep : isHostRef st = false \/ videoRef st = None \/
                  strict_eq_string (data_type d) "HEARTBEAT" = true \/
                  ~ In (c, DataConnListeners) (listeners st) -> False).
  { intros Hcase.
    assert (Hq : isRemoteOp (fst (step StringToNumber (ConnData c (Props d)) st)) = false /\
                 isHostRef (fst (step StringToNumber (ConnData c (Props d)) st)) =
                 isHostRef st /\
                 videoRef (fst (step StringToNumber (ConnData c (Props d)) st)) =
                 videoRef st).
    { unfold step, handle_event. cbn [from_dom andb]. destruct (view st);
        apply (dispatch_preserves_in
                 (fun s => isRemoteOp s = false /\ isHostRef s = isHostRef st /\
                           videoRef s = videoRef st)); auto;
        intros [] s Hin (H1 & H2 & H3); cbn [skip fst]; auto;
        (destruct Hcase as [Hc|[Hc|[Hc|Hc]]]; [| | |contradiction]);
        handlers; repeat split; congruence. }
    destruct Hq as [Hq _]. congruence. }
  split; [|split].
  - destruct (isHostRef st); [reflexivity|]. exfalso. apply Hkeep. now left.
  - intros Hv. apply Hkeep. right. now left.
  - exists c, d. split; [reflexivity|]. split.
    + intros Hty. apply Hkeep. right. right. left. now rewrite Hty.
    + destruct (in_dec (fun a b : nat * Listener =>
                          ltac:(decide equality; [decide equality|apply Nat.eq_dec]))
                  (c, DataConnListeners) (listeners st)) as [Hin|Hnin]; [exact Hin|].
      exfalso. apply Hkeep. right. right. now right.
Qed.

Lemma tick_output_send (st : AppState) (i : nat) (cmd : SyncCommand) :
  In (Send i cmd) (tick_output st) ->
  exists c, dataConnRef st = Some c /\ conn_id c = i /\ open c = true /\
            type cmd = HEARTBEAT /\ position HostVideo st = Some (timestamp cmd).
Proof.
  unfold tick_output, heartbeatTick, position. cbn [video_at].
  destruct (videoRef st) as [v|]; [|intros []].
  destruct (dataConnRef st) as [c|]; [|intros []].
  destruct (open c) eqn:Ho; [|intros []].
  intros [E|[]]. injection E as <- <-. exists c. cbn. auto.
Qed.

Lemma sendCommand_send (ty : CommandType) (ts : number) (st : AppState)
  (i : nat) (cmd : SyncCommand) :
  In (Send i cmd) (snd (sendCommand ty ts st)) ->
  exists c, dataConnRef st = Some c /\ conn_id c = i /\ open c = true /\
            cmd = {| type := ty; timestamp := ts |} /\ isRemoteOp st = false.
Proof.
  rewrite (proj1 (sendCommand_effects ty ts st)).
  destruct (dataConnRef st) as [c|]; [|intros [E|[]]; discriminate E].
  destruct (open c) eqn:Ho; [|intros [E|[]]; discriminate E].
  destruct (isRemoteOp st) eqn:Hg; [intros [E|[]]; discriminate E|].
  intros [E|[E|[]]]; [discriminate E|]. injection E as <- <-. exists c. auto.
Qed.

(** X20. Nothing is ever sent on a connection that is not the tracked one
    or is not open. A HEARTBEAT is sent by a tick only, with the position
    of the Host's element; every other command is sent by a click or a
    media event, with the loop guard down, and carries the position of
    the Host's element or, from the Client's buttons, 0. *)
Theorem sends_go_to_tracked_open_connection (e : Event) (st : AppState)
  (i : nat) (cmd : SyncCommand) :
  In (Send i cmd) (snd (step StringToNumber e st)) ->
  exists c, dataConnRef st = Some c /\ conn_id c = i /\ open c = true /\
    if match type cmd with HEARTBEAT => true | _ => false end
    then e = Elapse /\ position HostVideo st = Some (timestamp cmd)
    else e <> Elapse /\ isRemoteOp st = false /\
         (position HostVideo st = Some (timestamp cmd) \/
          view st = CLIENT /\ timestamp cmd = zero).
Proof.
  assert (Hnone : forall (ls : list (nat * Listener)) id h s0,
            (forall l s, Forall (fun x => is_send x = false) (snd (h l s))) ->
            In (Send i cmd) (snd (dispatch ls id h s0)) -> False).
  { intros ls id h s0 Hh Hin.
    pose proof (dispatch_effects (fun x => is_send x = false) h ls id s0 Hh) as Hall.
    rewrite Forall_forall in Hall. specialize (Hall _ Hin). discriminate Hall. }
  unfold step. destruct (from_dom e && cancelled st); [intros []|].
  unfold handle_event. destruct e; destruct (view st) eqn:Hview.
  all: try (intros Hin; exfalso; revert Hin; apply Hnone; intros [] s;
            try apply onData_sends_nothing; handlers; repeat constructor).
  all: try (unfold onPlay, onPause, onSeeked, onVideoEvent, position; cbn [video_at];
            destruct (videoRef st) as [v|]; [|intros []]; intros Hin;
            apply sendCommand_send in Hin;
            destruct Hin as (c & Hc & Hi & Ho & -> & Hg); exists c; cbn;
            repeat split; auto; discriminate).
  all: try (intros Hin; apply sendCommand_send in Hin;
            destruct Hin as (c & Hc & Hi & Ho & -> & Hg); exists c; cbn;
            repeat split; auto; discriminate).
  all: try (rewrite elapse_unfold; intros Hin;
            match type of Hin with
            | In _ (snd (fire_all ?ts ?s1)) =>
                pose proof (fire_all_effects ts s1) as Hall
            end;
            rewrite Forall_forall in Hall; specialize (Hall _ Hin);
            apply tick_output_send in Hall;
            destruct Hall as (c & Hc & Hi & Ho & Hty & Hp); exists c;
            rewrite Hty; repeat split; auto).
  all: match goal with
       | |- In _ (snd ?X) -> _ =>
           let H := fresh "Hall" in
           assert (H : Forall (fun x => is_send x = false) (snd X))
             by (handlers; repeat constructor);
           intros Hin; rewrite Forall_forall in H; specialize (H _ Hin);
           discriminate H
       end.
Qed.

End Extras.

(** ** Examples of the further properties *)

Lemma client_at_reachable (t : number) : reachable StringToNumber_digits (client_at t).
Proof. apply reachable_run. constructor. Qed.

Lemma two_guests_reachable : reachable StringToNumber_digits two_guests.
Proof. apply reachable_run, host_at_reachable. Qed.

Lemma heartbeat_once_per_interval_witness :
  snd (wait 3000 (fst (startHeartbeat (host_at (of_Z 10))))) =
  [Send 7 {| type := HEARTBEAT; timestamp := of_Z 10 |};
   Send 7 {| type := HEARTBEAT; timestamp := of_Z 10 |};
   Send 7 {| type := HEARTBEAT; timestamp := of_Z 10 |}] /\
  snd (wait 3000
         (fst (step StringToNumber_digits (ConnClose 7)
                 (fst (startHeartbeat (host_at (of_Z 10))))))) = [].
Proof.
  destruct (heartbeat_once_per_interval StringToNumber_digits (host_at (of_Z 10))
              (host_at_wf (of_Z 10))) as (_ & _ & H1 & _ & H2).
  split; [exact (H1 3000)|].
  destruct (H2 (host_at_reachable (of_Z 10)) (opened guest) (ConnClose 7))
    as (_ & _ & _ & H); [vm_compute; reflexivity | left; reflexivity |].
  exact (H 3000).
Defined.

Lemma host_ignores_heartbeat_witness :
  dataConn_onData StringToNumber_digits (Props (heartbeat_of (of_Z 3)))
    (host_at (of_Z 10)) =
  (host_at (of_Z 10), []).
Proof.
  destruct (host_ignores_heartbeat StringToNumber_digits (heartbeat_of (of_Z 3))
              (host_at (of_Z 10))) as [H _];
    [vm_compute; reflexivity | reflexivity | exact H].
Defined.

Lemma host_play_pause_witness :
  player_calls
    (snd (dataConn_onData StringToNumber_digits (Props play_abc) (host_at (of_Z 10)))) =
  [Player HostVideo CallPlay] /\
  videoRef
    (fst (dataConn_onData StringToNumber_digits (Props play_abc) (host_at (of_Z 10)))) =
  Some (playing (of_Z 10)).
Proof.
  destruct (host_play_pause StringToNumber_digits PLAY (JsString "abc")
              (host_at (of_Z 10)) (playing (of_Z 10))) as (H1 & H2 & _);
    [vm_compute; reflexivity | vm_compute; reflexivity | now left |].
  split; [exact H1|]. etransitivity; [exact H2|]. vm_compute; reflexivity.
Defined.


Lemma landing_drops_commands_witness :
  handleSyncCommand StringToNumber_digits play_abc landing_again = (landing_again, []).
Proof.
  destruct (landing_drops_commands StringToNumber_digits play_abc landing_again)
    as [H _]; [|vm_compute; reflexivity|exact H].
  unfold landing_again. constructor. apply host_at_reachable.
Defined.


Lemma at_most_one_heartbeat_timer_witness :
  exists D, heartbeat_timers two_guests = [heartbeat_timer 2 D] /\
            clock two_guests < D <= clock two_guests + 1000.
Proof.
  exact (at_most_one_heartbeat_timer StringToNumber_digits two_guests
           two_guests_reachable).
Defined.

Lemma heartbeat_in_every_window_witness :
  snd (wait 1000 (host_at (of_Z 10))) =
  [Send 7 {| type := HEARTBEAT; timestamp := of_Z 10 |}].
Proof.
  etransitivity;
    [exact (heartbeat_in_every_window StringToNumber_digits (host_at (of_Z 10))
              (host_at_reachable (of_Z 10)))|].
  vm_compute; reflexivity.
Defined.

Lemma stop_undoes_start_witness :
  timers (fst (stopHeartbeat (fst (startHeartbeat landing_again)))) =
  timers (fst (stopHeartbeat landing_again)).
Proof.
  destruct (stop_undoes_start StringToNumber_digits landing_again) as [H _];
    [|exact H].
  unfold landing_again. constructor. apply host_at_reachable.
Defined.

Lemma closing_any_connection_stops_heartbeat_witness :
  heartbeatInterval two_guests = Some 2%positive /\
  heartbeatInterval (fst (step StringToNumber_digits (ConnClose 7) two_guests)) = None /\
  dataConnRef (fst (step StringToNumber_digits (ConnClose 7) two_guests)) =
  Some (opened second_guest).
Proof.
  split; [vm_compute; reflexivity|].
  destruct (closing_any_connection_stops_heartbeat StringToNumber_digits 7 (ConnClose 7)
              two_guests two_guests_reachable) as (H1 & _ & _ & H2);
    [left; reflexivity | vm_compute; left; reflexivity |].
  split; [exact H1|]. apply H2; [vm_compute; reflexivity|vm_compute; discriminate].
Defined.

Lemma tracked_connection_closes_witness :
  heartbeatInterval (fst (step StringToNumber_digits (ConnClose 7) (host_at (of_Z 10)))) =
  None /\
  snd (sendCommand PLAY zero
         (fst (step StringToNumber_digits (ConnClose 7) (host_at (of_Z 10))))) =
  [Log [Str "Send Fail: Conn Closed"]].
Proof.
  destruct (tracked_connection_closes StringToNumber_digits (opened guest)
              (host_at (of_Z 10)) (host_at_reachable (of_Z 10)))
    as (_ & _ & H1 & _ & H2); [vm_compute; reflexivity|].
  split; [exact H1|]. cbn [conn_id opened guest] in H2. now rewrite H2.
Defined.

(** A Client at 8.0: HEARTBEAT{10.0} moves it once; HEARTBEAT{Infinity}
    throws and leaves it where it is. *)
Lemma heartbeat_redelivery_witness :
  position RemoteVideo
    (fst (handleSyncCommand StringToNumber_digits (heartbeat_of (of_Z 10))
            (client_at (of_Z 8)))) = Some (of_Z 10) /\
  snd (handleSyncCommand StringToNumber_digits (heartbeat_of (of_Z 10))
         (fst (handleSyncCommand StringToNumber_digits (heartbeat_of (of_Z 10))
                 (client_at (of_Z 8))))) = [] /\
  fst (handleSyncCommand StringToNumber_digits heartbeat_infinity (client_at (of_Z 8))) =
  client_at (of_Z 8).
Proof.
  destruct (heartbeat_redelivery StringToNumber_digits (heartbeat_of (of_Z 10))
              (client_at (of_Z 8))) as [_ [H _]];
    [vm_compute; reflexivity | reflexivity |].
  destruct H as [H1 H2]; [vm_compute; reflexivity|].
  split; [exact H1|]. split; [now rewrite H2|].
  destruct (heartbeat_redelivery StringToNumber_digits heartbeat_infinity
              (client_at (of_Z 8))) as [_ [_ H]];
    [vm_compute; reflexivity | reflexivity |].
  destruct H as [H3 _]; [vm_compute; reflexivity|exact H3].
Defined.

Lemma seek_redelivery_witness :
  seeks HostVideo
    (snd (handleSyncCommand StringToNumber_digits
            {| data_type := JsString "SEEK"; data_timestamp := JsNumber (of_Z 20) |}
            (host_at (of_Z 10)))) = 1 /\
  seeks HostVideo
    (snd (handleSyncCommand StringToNumber_digits
            {| data_type := JsString "SEEK"; data_timestamp := JsNumber (of_Z 20) |}
            (fst (handleSyncCommand StringToNumber_digits
                    {| data_type := JsString "SEEK";
                       data_timestamp := JsNumber (of_Z 20) |}
                    (host_at (of_Z 10)))))) = 0 /\
  videoRef (fst (handleSyncCommand StringToNumber_digits seek_infinity (host_at (of_Z 10)))) =
  videoRef (host_at (of_Z 10)).
Proof.
  split; [vm_compute; reflexivity|]. split.
  - destruct (seek_redelivery StringToNumber_digits
                {| data_type := JsString "SEEK"; data_timestamp := JsNumber (of_Z 20) |}
                (host_at (of_Z 10)) (playing (of_Z 10))) as [H _];
      [vm_compute; reflexivity | vm_compute; reflexivity | reflexivity | exact H].
  - destruct (seek_redelivery StringToNumber_digits seek_infinity
                (host_at (of_Z 10)) (playing (of_Z 10))) as (_ & _ & _ & H);
      [vm_compute; reflexivity | vm_compute; reflexivity | reflexivity |].
    destruct H as [H _]; [vm_compute; reflexivity|exact H].
Defined.

Lemma remote_stream_needs_client_view_witness :
  option_map srcObject
    (remoteVideoRef (fst (step StringToNumber_digits (CallStream 5) (client_at (of_Z 8))))) =
  Some (Some 5) /\
  step StringToNumber_digits (CallStream 5) (host_at (of_Z 10)) =
  (host_at (of_Z 10), [Log [Str "Received remote stream"]]).
Proof.
  split.
  - exact (proj1 (remote_stream_needs_client_view StringToNumber_digits 5
                    (client_at (of_Z 8)) (client_at_reachable (of_Z 8)))).
  - exact (remote_stream_needs_client_view StringToNumber_digits 5
             (host_at (of_Z 10)) (host_at_reachable (of_Z 10))).
Defined.

Lemma file_gate_witness :
  isHostRef (fst (handleFileChange (Some movie) no_media (client_at (of_Z 8)))) = false /\
  videoRef (fst (handleFileChange (Some movie) no_media (host_at (of_Z 10)))) =
  Some (with_src "blob:movie" (playing (of_Z 10))) /\
  fst (handleFileChange (Some notes) no_media (host_at (of_Z 10))) = host_at (of_Z 10).
Proof.
  split; [vm_compute; reflexivity|].
  destruct (file_gate movie no_media (host_at (of_Z 10))) as [H1 _].
  destruct (file_gate notes no_media (host_at (of_Z 10))) as [_ H2].
  split.
  - destruct H1 as [_ H1].
    + right. exists "Movie", ".MP4". split; reflexivity.
    + destruct (H1 (playing (of_Z 10))) as [_ H]; [vm_compute; reflexivity|exact H].
  - rewrite H2; [reflexivity|discriminate|].
    intros H. apply endsWith_mp4 in H. vm_compute in H. discriminate H.
Defined.

Lemma late_video_load_witness :
  placed_calls (snd (handleFileChange (Some movie) good_media (host_at (of_Z 10)))) =
  [PeerCall "guest" 1] /\
  heartbeatInterval (fst (handleFileChange (Some movie) good_media (host_at (of_Z 10)))) =
  Some 2%positive /\
  placed_calls (snd (handleFileChange (Some movie) no_media (host_at (of_Z 10)))) = [].
Proof.
  assert (Hm : file_type movie = "video/mp4" \/ has_mp4_extension (file_name movie))
    by (right; exists "Movie", ".MP4"; split; reflexivity).
  pose proof (late_video_load movie good_media (host_at (of_Z 10)) (playing (of_Z 10))
                Hm ltac:(vm_compute; reflexivity)) as (H1 & H2 & _).
  pose proof (late_video_load movie no_media (host_at (of_Z 10)) (playing (of_Z 10))
                Hm ltac:(vm_compute; reflexivity)) as (H3 & _).
  split; [exact H1|]. split; [exact H2|exact H3].
Defined.

Lemma fix_black_screen_call_witness :
  placed_calls
    (snd (step StringToNumber_digits (ClickFixBlackScreen good_media)
            (fst (step StringToNumber_digits (ConnClose 7) (host_at (of_Z 10)))))) =
  [PeerCall "guest" 1].
Proof.
  refine (proj2 (fix_black_screen_call StringToNumber_digits good_media
                   (fst (step StringToNumber_digits (ConnClose 7) (host_at (of_Z 10))))
                   _ _)).
  - constructor. apply host_at_reachable.
  - vm_compute; reflexivity.
Defined.

Lemma client_connect_flow_witness :
  snd (step StringToNumber_digits ClickPlay client_ready) =
  [Log [Str "Send Fail: No Conn"]] /\
  sends (snd (step StringToNumber_digits ClickPlay
                (fst (step StringToNumber_digits (ConnOpen guest no_media)
                        (fst (step StringToNumber_digits (ClickConnect guest)
                                client_ready)))))) =
  [Send 7 {| type := PLAY; timestamp := zero |}].
Proof.
  assert (H : view client_ready = CLIENT -> peerRef client_ready <> None ->
              remoteId client_ready <> EmptyString -> dataConnRef client_ready = None ->
              isRemoteOp client_ready = false ->
              snd (step StringToNumber_digits ClickPlay client_ready) =
              [Log [Str "Send Fail: No Conn"]] /\ _)
    by exact (client_connect_flow StringToNumber_digits guest no_media client_ready).
  destruct H as (H1 & _ & _ & _ & _ & H2);
    [vm_compute; reflexivity | vm_compute; discriminate | vm_compute; discriminate
    | vm_compute; reflexivity | vm_compute; reflexivity |].
  split; [exact H1|exact H2].
Defined.

Lemma unmount_is_final_witness :
  step StringToNumber_digits (PeerConnection second_guest)
    (fst (run StringToNumber_digits [ClickExit; ClickHostCard]
            (fst (step StringToNumber_digits Unmount (host_at (of_Z 10)))))) =
  (fst (run StringToNumber_digits [ClickExit; ClickHostCard]
          (fst (step StringToNumber_digits Unmount (host_at (of_Z 10))))), []).
Proof.
  exact (proj2 (unmount_is_final StringToNumber_digits [ClickExit; ClickHostCard]
                  (PeerConnection second_guest) (host_at (of_Z 10)) eq_refl)).
Defined.

Lemma guard_raised_only_by_remote_command_witness :
  isHostRef (host_at (of_Z 10)) = true /\
  isRemoteOp (fst (step StringToNumber_digits VideoSeeked (host_at (of_Z 10)))) = false.
Proof.
  split.
  - refine (proj1 (guard_raised_only_by_remote_command StringToNumber_digits
                     (ConnData 7 (Props play_abc)) (host_at (of_Z 10)) _ _));
      vm_compute; reflexivity.
  - destruct (isRemoteOp (fst (step StringToNumber_digits VideoSeeked
                                 (host_at (of_Z 10))))) eqn:E; [|reflexivity].
    destruct (guard_raised_only_by_remote_command StringToNumber_digits VideoSeeked
                (host_at (of_Z 10)) ltac:(vm_compute; reflexivity) E)
      as (_ & _ & c & d & H & _).
    discriminate H.
Defined.

Lemma sends_go_to_tracked_open_connection_witness :
  exists c, dataConnRef (host_at (of_Z 10)) = Some c /\ conn_id c = 7 /\ open c = true /\
            VideoPlayed <> Elapse /\ isRemoteOp (host_at (of_Z 10)) = false /\
            (position HostVideo (host_at (of_Z 10)) = Some (of_Z 10) \/
             view (host_at (of_Z 10)) = CLIENT /\ of_Z 10 = zero).
Proof.
  refine (sends_go_to_tracked_open_connection StringToNumber_digits VideoPlayed
            (host_at (of_Z 10)) 7 {| type := PLAY; timestamp := of_Z 10 |} _).
  vm_compute. right. left. reflexivity.
Defined.

(** ** The SDP transform *)

Lemma replace_skip (m : list N -> option nat) (sub : list N -> list N)
  (k : nat) (s : list N) :
  replace_from m sub k s = replace_from m sub 0 (skipn k s).
Proof.
  revert k. induction s as [|c s IH]; intros [|k]; try reflexivity.
  cbn [replace_from skipn]. apply IH.
Qed.

Lemma replace_unfold (m : list N -> option nat) (sub : list N -> list N)
  (s : list N) :
  replace_all m sub s =
  match s with
  | [] => []
  | c :: s' =>
      match m s with
      | Some (S len) => sub (firstn (S len) s) ++ replace_all m sub (skipn (S len) s)
      | _ => c :: replace_all m sub s'
      end
  end.
Proof.
  unfold replace_all. destruct s as [|c s']; [reflexivity|]. cbn [replace_from].
  destruct (m (c :: s')) as [[|len]|]; try reflexivity.
  now rewrite replace_skip.
Qed.

Lemma includes_skipn (p s : list N) (j : nat) :
  includes p s = false -> starts_with p (skipn j s) = false.
Proof.
  revert j. induction s as [|c s IH]; intros j H.
  - rewrite skipn_nil. cbn in H. now apply orb_false_elim in H.
  - cbn [includes] in H. apply orb_false_elim in H. destruct H as [H1 H2].
    destruct j as [|j]; [exact H1|]. cbn [skipn]. now apply IH.
Qed.

Lemma includes_suffix (p s : list N) (j : nat) :
  includes p s = false -> includes p (skipn j s) = false.
Proof.
  revert j. induction s as [|c s IH]; intros j H.
  - now rewrite skipn_nil.
  - destruct j as [|j]; [exact H|]. cbn [skipn]. apply IH.
    cbn [includes] in H. now apply orb_false_elim in H.
Qed.

Lemma starts_with_includes (p s : list N) (j : nat) :
  starts_with p (skipn j s) = true -> includes p s = true.
Proof.
  revert j. induction s as [|c s IH]; intros j H.
  - rewrite skipn_nil in H. cbn [includes]. now rewrite H.
  - destruct j as [|j].
    + cbn [skipn] in H. cbn [includes]. now rewrite H.
    + cbn [skipn] in H. cbn [includes]. rewrite (IH j H). apply orb_true_r.
Qed.

Lemma replace_none (m : list N -> option nat) (sub : list N -> list N) (s : list N) :
  (forall j, m (skipn j s) = None) -> replace_all m sub s = s.
Proof.
  induction s as [|c s IH]; intros H; rewrite replace_unfold; [reflexivity|].
  pose proof (H 0) as H0. cbn [skipn] in H0. rewrite H0.
  f_equal. apply IH. intros j. exact (H (S j)).
Qed.

Lemma match_bitrate_none (s : list N) :
  starts_with (units "b=AS:") s = false -> match_bitrate s = None.
Proof. intros H. unfold match_bitrate. now rewrite H. Qed.

Lemma match_video_line_none (s : list N) :
  starts_with (units "m=video ") s = false -> match_video_line s = None.
Proof. intros H. unfold match_video_line. now rewrite H. Qed.

Lemma match_video_line_crlf (s : list N) (n : nat) :
  match_video_line s = Some n -> includes CRLF s = true.
Proof.
  unfold match_video_line. destruct (starts_with (units "m=video ") s); [|discriminate].
  destruct (run_length _ (skipn 8 s)) as [|k]; [discriminate|].
  destruct (starts_with CRLF (skipn (8 + S k) s)) eqn:E; [|discriminate].
  intros _. now apply (starts_with_includes _ _ (8 + S k)).
Qed.

Lemma sdp_unchanged (sdp : list N) :
  includes (units "b=AS:") sdp = false ->
  includes (units "m=video ") sdp = false \/ includes CRLF sdp = false ->
  sdpTransform sdp = sdp.
Proof.
  intros Hb Hv. unfold sdpTransform. rewrite Hb. apply replace_none. intros j.
  destruct Hv as [Hv|Hv].
  - apply match_video_line_none. now apply includes_skipn.
  - destruct (match_video_line (skipn j sdp)) as [n|] eqn:E; [|reflexivity].
    apply match_video_line_crlf in E.
    now rewrite (includes_suffix _ _ j Hv) in E.
Qed.

Lemma run_length_le (f : N -> bool) (s : list N) : run_length f s <= List.length s.
Proof. induction s as [|c s IH]; cbn; [lia|]. destruct (f c); cbn; lia. Qed.

Lemma run_firstn (f : N -> bool) (s : list N) :
  forallb f (firstn (run_length f s) s) = true.
Proof.
  induction s as [|c s IH]; cbn; [reflexivity|].
  destruct (f c) eqn:E; cbn; [now rewrite E|reflexivity].
Qed.

Lemma run_stop (f : N -> bool) (s : list N) :
  run_length f (skipn (run_length f s) s) = 0.
Proof.
  induction s as [|c s IH]; cbn; [reflexivity|].
  destruct (f c) eqn:E; cbn; [exact IH|now rewrite E].
Qed.

Lemma filter_digits (s : list N) :
  forallb is_digit s = true -> filter not_digit s = [].
Proof.
  induction s as [|c s IH]; cbn; [reflexivity|]. intros H.
  apply andb_prop in H. destruct H as [H1 H2]. unfold not_digit at 1.
  rewrite H1. cbn. now apply IH.
Qed.

Lemma firstn_add (a b : nat) (s : list N) :
  firstn (a + b) s = firstn a s ++ firstn b (skipn a s).
Proof.
  revert s. induction a as [|a IH]; intros s; [reflexivity|].
  destruct s as [|c s]; cbn; [now rewrite firstn_nil|]. now rewrite IH.
Qed.

Lemma starts_with_firstn (p s : list N) :
  starts_with p s = true -> firstn (List.length p) s = p.
Proof.
  revert s. induction p as [|a p IH]; intros s H; [reflexivity|].
  destruct s as [|b s]; [discriminate|]. cbn in *.
  apply andb_prop in H. destruct H as [H1 H2]. apply N.eqb_eq in H1. subst b.
  now rewrite IH.
Qed.

Lemma starts_with_length (p s : list N) :
  starts_with p s = true -> List.length p <= List.length s.
Proof.
  revert s. induction p as [|a p IH]; intros s H; cbn; [lia|].
  destruct s as [|b s]; [discriminate|]. cbn in *.
  apply andb_prop in H. destruct H as [_ H2]. specialize (IH s H2). lia.
Qed.

(** The shape of a match of [/b=AS:\d+/]. *)
Lemma match_bitrate_some (s : list N) (n : nat) :
  match_bitrate s = Some n ->
  exists k, n = 5 + S k /\ run_length is_digit (skipn 5 s) = S k /\
            firstn 5 s = units "b=AS:" /\ n <= List.length s.
Proof.
  unfold match_bitrate. destruct (starts_with (units "b=AS:") s) eqn:E; [|discriminate].
  destruct (run_length is_digit (skipn 5 s)) as [|k] eqn:Hk; [discriminate|].
  intros H. injection H as <-. exists k. repeat split; auto.
  - exact (starts_with_firstn _ _ E).
  - pose proof (run_length_le is_digit (skipn 5 s)) as Hle.
    rewrite length_skipn in Hle. apply starts_with_length in E. cbn in E. lia.
Qed.

Lemma replace_bitrate_some (s : list N) (n : nat) :
  match_bitrate s = Some n ->
  replace_all match_bitrate (fun _ => units "b=AS:50000") s =
  units "b=AS:50000" ++
  replace_all match_bitrate (fun _ => units "b=AS:50000") (skipn n s).
Proof.
  intros H. rewrite replace_unfold. destruct (match_bitrate_some s n H) as (k & -> & _ & _ & Hl).
  destruct s as [|c s]; [cbn in Hl; lia|]. now rewrite H.
Qed.

Lemma replace_bitrate_none (c : N) (s : list N) :
  match_bitrate (c :: s) = None ->
  replace_all match_bitrate (fun _ => units "b=AS:50000") (c :: s) =
  c :: replace_all match_bitrate (fun _ => units "b=AS:50000") s.
Proof. intros H. rewrite replace_unfold. now rewrite H. Qed.

Lemma bitrate_digits_only (s : list N) :
  filter not_digit (replace_all match_bitrate (fun _ => units "b=AS:50000") s) =
  filter not_digit s.
Proof.
  remember (List.length s) as len eqn:Hlen. revert s Hlen.
  induction len as [len IH] using lt_wf_ind. intros s Hlen.
  destruct s as [|c s]; [reflexivity|].
  destruct (match_bitrate (c :: s)) as [n|] eqn:E.
  - rewrite (replace_bitrate_some _ n E).
    destruct (match_bitrate_some _ n E) as (k & -> & Hk & Hp & Hl).
    rewrite filter_app, (IH (List.length (skipn (5 + S k) (c :: s)))); [| |reflexivity].
    + rewrite <- (firstn_skipn (5 + S k) (c :: s)) at 2.
      rewrite filter_app. f_equal.
      rewrite firstn_add, filter_app, Hp, <- Hk, (filter_digits _ (run_firstn _ _)).
      reflexivity.
    + rewrite length_skipn. cbn in *. lia.
  - rewrite (replace_bitrate_none _ _ E). cbn [filter].
    rewrite (IH (List.length s)); [reflexivity| |reflexivity]. cbn in Hlen. lia.
Qed.

Lemma raise_prefix (n : nat) (s : list N) :
  n <= 5 -> firstn n (raise_bitrates s) = firstn n s.
Proof.
  revert s. induction n as [|n IH]; intros s Hn; [reflexivity|].
  destruct s as [|c s]; [reflexivity|].
  destruct (match_bitrate (c :: s)) as [m|] eqn:E.
  - rewrite (replace_bitrate_some _ m E).
    destruct (match_bitrate_some _ m E) as (k & _ & _ & Hp & _).
    rewrite <- (firstn_skipn 5 (c :: s)) at 2. rewrite Hp.
    destruct n as [|[|[|[|[|]]]]]; try lia; reflexivity.
  - rewrite (replace_bitrate_none _ _ E). cbn [firstn]. f_equal. apply IH. lia.
Qed.

Lemma starts_with_prefix (p a b : list N) :
  firstn (List.length p) a = firstn (List.length p) b ->
  starts_with p a = starts_with p b.
Proof.
  revert a b. induction p as [|x p IH]; intros a b H; [reflexivity|].
  destruct a as [|y a], b as [|z b]; cbn in *; try discriminate; [reflexivity|].
  injection H as -> H. f_equal. now apply IH.
Qed.

Lemma run_zero_prefix (f : N -> bool) (a b : list N) :
  firstn 1 a = firstn 1 b -> run_length f a = 0 -> run_length f b = 0.
Proof.
  destruct a as [|x a], b as [|y b]; cbn; try discriminate; auto.
  intros H. injection H as ->. now destruct (f y).
Qed.

(** Whether [/b=AS:\d+/] matches at the start depends on six units only. *)
Lemma match_bitrate_prefix (a b : list N) :
  firstn 6 a = firstn 6 b -> match_bitrate a = None -> match_bitrate b = None.
Proof.
  intros H. unfold match_bitrate.
  assert (F : forall x : list N, firstn 5 x = firstn 5 (firstn 6 x))
    by (intros x; now rewrite firstn_firstn).
  rewrite (starts_with_prefix (units "b=AS:") a b)
    by (change (List.length (units "b=AS:")) with 5; now rewrite (F a), (F b), H).
  destruct (starts_with (units "b=AS:") b); [|reflexivity].
  assert (H5 : firstn 1 (skipn 5 a) = firstn 1 (skipn 5 b)).
  { assert (E : forall x : list N, firstn 1 (skipn 5 x) = skipn 5 (firstn 6 x)).
    { intros x. do 5 (destruct x as [|? x]; [reflexivity|]). destruct x; reflexivity. }
    now rewrite !E, H. }
  destruct (run_length is_digit (skipn 5 a)) as [|k] eqn:Ha; [|discriminate].
  intros _. now rewrite (run_zero_prefix is_digit _ _ H5 Ha).
Qed.

Lemma skipn_add (a b : nat) (s : list N) : skipn (a + b) s = skipn b (skipn a s).
Proof.
  revert s. induction a as [|a IH]; intros s; [reflexivity|].
  destruct s as [|c s]; cbn; [now rewrite skipn_nil|]. apply IH.
Qed.

Lemma raise_again_at_match (y : list N) :
  run_length is_digit y = 0 ->
  match_bitrate (units "b=AS:50000" ++ y) = Some 10.
Proof. intros H. unfold match_bitrate. cbn. now rewrite H. Qed.

Lemma raise_bitrates_idempotent (s : list N) :
  raise_bitrates (raise_bitrates s) = raise_bitrates s.
Proof.
  remember (List.length s) as len eqn:Hlen. revert s Hlen.
  induction len as [len IH] using lt_wf_ind. intros s Hlen.
  destruct s as [|c s]; [reflexivity|].
  destruct (match_bitrate (c :: s)) as [n|] eqn:E.
  - rewrite (replace_bitrate_some _ n E).
    destruct (match_bitrate_some _ n E) as (k & -> & Hk & Hp & Hl).
    set (rest := skipn (5 + S k) (c :: s)).
    assert (Hrest : run_length is_digit (raise_bitrates rest) = 0).
    { apply (run_zero_prefix is_digit rest).
      - symmetry. apply raise_prefix. lia.
      - subst rest. rewrite skipn_add, <- Hk. apply run_stop. }
    rewrite (replace_bitrate_some _ 10 (raise_again_at_match _ Hrest)).
    change (skipn 10 (units "b=AS:50000" ++ raise_bitrates rest))
      with (raise_bitrates rest).
    rewrite (IH (List.length rest)); [reflexivity| |reflexivity].
    subst rest. rewrite length_skipn. cbn in *. lia.
  - rewrite (replace_bitrate_none _ _ E).
    assert (E' : match_bitrate (c :: raise_bitrates s) = None).
    { apply (match_bitrate_prefix (c :: s)); [|exact E].
      change (c :: firstn 5 s = c :: firstn 5 (raise_bitrates s)).
      f_equal. symmetry. apply raise_prefix. lia. }
    rewrite (replace_bitrate_none _ _ E'). f_equal.
    apply (IH (List.length s)); [|reflexivity]. cbn in Hlen. lia.
Qed.

Lemma raise_bitrates_includes (s : list N) :
  includes (units "b=AS:") s = true ->
  includes (units "b=AS:") (raise_bitrates s) = true.
Proof.
  remember (List.length s) as len eqn:Hlen. revert s Hlen.
  induction len as [len IH] using lt_wf_ind. intros s Hlen H.
  destruct s as [|c s]; [discriminate H|].
  destruct (match_bitrate (c :: s)) as [n|] eqn:E.
  - rewrite (replace_bitrate_some _ n E). reflexivity.
  - rewrite (replace_bitrate_none _ _ E). cbn [includes] in *.
    apply orb_true_iff in H. apply orb_true_iff. destruct H as [H|H].
    + left. rewrite (starts_with_prefix _ _ (c :: s)); [exact H|].
      change (c :: firstn 4 (raise_bitrates s) = c :: firstn 4 s). f_equal.
      apply raise_prefix. lia.
    + right. apply (IH (List.length s)); [cbn in Hlen; lia|reflexivity|exact H].
Qed.

Lemma match_video_line_some (s : list N) (n : nat) :
  match_video_line s = Some n ->
  exists k, n = 8 + S k + 2 /\ firstn n s = firstn (8 + S k) s ++ CRLF /\
            n <= List.length s /\
            firstn 8 s = units "m=video " /\
            run_length (fun c => negb (is_line_terminator c)) (skipn 8 s) = S k.
Proof.
  unfold match_video_line.
  destruct (starts_with (units "m=video ") s) eqn:E; [|discriminate].
  destruct (run_length _ (skipn 8 s)) as [|k] eqn:Hk; [discriminate|].
  destruct (starts_with CRLF (skipn (8 + S k) s)) eqn:Hc; [|discriminate].
  intros H. injection H as <-. exists k. split; [reflexivity|].
  pose proof (starts_with_firstn _ _ Hc) as Hf.
  pose proof (starts_with_length _ _ Hc) as Hl. rewrite length_skipn in Hl.
  change (List.length CRLF) with 2 in *.
  split; [now rewrite (firstn_add (8 + S k) 2), Hf|]. split; [lia|].
  split; [exact (starts_with_firstn _ _ E)|reflexivity].
Qed.

Lemma add_some (s : list N) (n : nat) :
  match_video_line s = Some n ->
  add_bitrate_lines s =
  firstn n s ++ units "b=AS:50000" ++ CRLF ++ add_bitrate_lines (skipn n s).
Proof.
  intros H. rewrite replace_unfold.
  destruct (match_video_line_some s n H) as (k & -> & _ & Hl & _).
  destruct s as [|c s]; [cbn in Hl; lia|]. rewrite H.
  change (8 + S k + 2) with (S (7 + S k + 2)). cbv beta iota.
  now rewrite <- !app_assoc.
Qed.

Lemma add_none (c : N) (s : list N) :
  match_video_line (c :: s) = None ->
  add_bitrate_lines (c :: s) = c :: add_bitrate_lines s.
Proof. intros H. rewrite replace_unfold. now rewrite H. Qed.

Lemma firstn_app_le (n : nat) (a x : list N) :
  n <= List.length a -> firstn n (a ++ x) = firstn n a.
Proof.
  intros H. rewrite firstn_app. replace (n - List.length a) with 0 by lia.
  cbn. apply app_nil_r.
Qed.

Lemma skipn_app_le (n : nat) (a x : list N) :
  n <= List.length a -> skipn n (a ++ x) = skipn n a ++ x.
Proof.
  intros H. rewrite skipn_app. replace (n - List.length a) with 0 by lia.
  reflexivity.
Qed.

Lemma add_prefix (n : nat) (s : list N) :
  n <= 5 -> firstn n (add_bitrate_lines s) = firstn n s.
Proof.
  revert s. induction n as [|n IH]; intros s Hn; [reflexivity|].
  destruct s as [|c s]; [reflexivity|].
  destruct (match_video_line (c :: s)) as [m|] eqn:E.
  - rewrite (add_some _ m E).
    destruct (match_video_line_some _ m E) as (k & -> & _ & Hl & _).
    rewrite firstn_app_le by (rewrite length_firstn; lia).
    rewrite firstn_firstn. f_equal. lia.
  - rewrite (add_none _ _ E).
    change (c :: firstn n (add_bitrate_lines s) = c :: firstn n s).
    f_equal. apply IH. lia.
Qed.

Lemma replace_prefix_none (m : list N -> option nat) (sub : list N -> list N)
  (a x : list N) :
  (forall j, j < List.length a -> m (skipn j (a ++ x)) = None) ->
  replace_all m sub (a ++ x) = a ++ replace_all m sub x.
Proof.
  induction a as [|c a IH]; intros H; [reflexivity|].
  cbn [app]. rewrite replace_unfold.
  pose proof (H 0 ltac:(cbn; lia)) as H0. cbn [skipn app] in H0. rewrite H0.
  f_equal. apply IH. intros j Hj. apply (H (S j)). cbn. lia.
Qed.

Lemma starts_with_app (p t z : list N) :
  starts_with p t = true -> starts_with p (t ++ z) = true.
Proof.
  revert t. induction p as [|a p IH]; intros t H; [reflexivity|].
  destruct t as [|b t]; [discriminate|]. cbn in *.
  apply andb_prop in H. destruct H as [H1 H2]. now rewrite H1, IH.
Qed.

Lemma starts_with_app_inv (p t y : list N) :
  starts_with p (t ++ y) = true ->
  starts_with p t = true \/ forall x, In x t -> In x p.
Proof.
  revert t. induction p as [|a p IH]; intros t H; [now left|].
  destruct t as [|b t]; [right; intros x []|]. cbn in H.
  apply andb_prop in H. destruct H as [H1 H2]. apply N.eqb_eq in H1. subst b.
  destruct (IH t H2) as [H|H].
  - left. cbn. now rewrite N.eqb_refl.
  - right. intros x [<-|Hx]; [now left|right; now apply H].
Qed.

Lemma last_in (a : list N) (x : N) (j : nat) :
  j < List.length (a ++ [x]) -> In x (skipn j (a ++ [x])).
Proof.
  revert j. induction a as [|c a IH]; intros j H.
  - cbn in H. replace j with 0 by lia. now left.
  - destruct j as [|j]; [apply in_or_app; right; now left|].
    cbn [app skipn]. apply IH. cbn in H. lia.
Qed.

(** Inside a matched video line, followed by anything, no bandwidth
    attribute begins. *)
Lemma no_bitrate_in_line (s y : list N) (n j : nat) :
  includes (units "b=AS:") s = false -> match_video_line s = Some n -> j < n ->
  match_bitrate (skipn j (firstn n s ++ y)) = None.
Proof.
  intros Hb Hm Hj. apply match_bitrate_none.
  destruct (match_video_line_some s n Hm) as (k & Hn & Hf & Hl & _).
  assert (Hlen : List.length (firstn n s) = n) by (rewrite length_firstn; lia).
  rewrite skipn_app_le by lia.
  destruct (starts_with (units "b=AS:") (skipn j (firstn n s) ++ y)) eqn:E;
    [exfalso|reflexivity].
  apply starts_with_app_inv in E. destruct E as [E|E].
  - apply (starts_with_app _ _ (skipn n s)) in E.
    rewrite <- skipn_app_le, firstn_skipn in E by lia.
    now rewrite (includes_skipn _ _ j Hb) in E.
  - assert (Hin : In 10%N (skipn j (firstn n s))).
    { rewrite Hf. change CRLF with ([13%N] ++ [10%N]). rewrite app_assoc.
      apply last_in. rewrite <- app_assoc. change ([13%N] ++ [10%N]) with CRLF.
      rewrite <- Hf. lia. }
    specialize (E _ Hin). cbn in E.
    repeat (destruct E as [E|E]; [discriminate E|]). exact E.
Qed.

Lemma raise_after_add (s : list N) :
  includes (units "b=AS:") s = false ->
  raise_bitrates (add_bitrate_lines s) = add_bitrate_lines s.
Proof.
  remember (List.length s) as len eqn:Hlen. revert s Hlen.
  induction len as [len IH] using lt_wf_ind. intros s Hlen Hb.
  destruct s as [|c s]; [reflexivity|].
  destruct (match_video_line (c :: s)) as [n|] eqn:E.
  - rewrite (add_some _ n E).
    destruct (match_video_line_some _ n E) as (k & Hn & _ & Hl & _).
    rewrite replace_prefix_none.
    + f_equal.
      set (b := add_bitrate_lines (skipn n (c :: s))).
      rewrite (replace_bitrate_some _ 10 (raise_again_at_match (CRLF ++ b) eq_refl)).
      change (skipn 10 (units "b=AS:50000" ++ CRLF ++ b)) with (13%N :: 10%N :: b).
      rewrite !replace_bitrate_none by reflexivity. subst b.
      rewrite (IH (List.length (skipn n (c :: s)))); [reflexivity| |reflexivity|].
      * rewrite length_skipn. lia.
      * now apply includes_suffix.
    + intros j Hj. apply (no_bitrate_in_line _ _ n j Hb E).
      rewrite length_firstn in Hj. lia.
  - rewrite (add_none _ _ E).
    assert (E' : match_bitrate (c :: add_bitrate_lines s) = None).
    { apply match_bitrate_none.
      rewrite (starts_with_prefix _ _ (c :: s)).
      - exact (includes_skipn _ _ 0 Hb).
      - change (c :: firstn 4 (add_bitrate_lines s) = c :: firstn 4 s). f_equal.
        apply add_prefix. lia. }
    rewrite (replace_bitrate_none _ _ E'). f_equal.
    apply (IH (List.length s)); [cbn in Hlen; lia|reflexivity|].
    exact (includes_suffix _ _ 1 Hb).
Qed.

Lemma skipn_length_app (a x : list N) : skipn (List.length a) (a ++ x) = x.
Proof. induction a as [|c a IH]; [reflexivity|exact IH]. Qed.

Lemma add_without_bitrate (s : list N) :
  includes (units "b=AS:") (add_bitrate_lines s) = false -> add_bitrate_lines s = s.
Proof.
  remember (List.length s) as len eqn:Hlen. revert s Hlen.
  induction len as [len IH] using lt_wf_ind. intros s Hlen H.
  destruct s as [|c s]; [reflexivity|].
  destruct (match_video_line (c :: s)) as [n|] eqn:E.
  - rewrite (add_some _ n E) in H. exfalso.
    rewrite (starts_with_includes _ _ (List.length (firstn n (c :: s)))) in H;
      [discriminate H|].
    now rewrite skipn_length_app.
  - rewrite (add_none _ _ E) in *. f_equal.
    apply (IH (List.length s)); [cbn in Hlen; lia|reflexivity|].
    exact (includes_suffix _ _ 1 H).
Qed.

(** X23. The transform is idempotent: applied to its own output, through
    either copy, it changes nothing; every bandwidth value it finds then
    is already 50000 and no second line is added. *)
Theorem sdp_idempotent (sdp : list N) :
  sdpTransform (sdpTransform sdp) = sdpTransform sdp.
Proof.
  unfold sdpTransform at 2 3. destruct (includes (units "b=AS:") sdp) eqn:Hb.
  - unfold sdpTransform. rewrite (raise_bitrates_includes _ Hb).
    apply raise_bitrates_idempotent.
  - unfold sdpTransform.
    destruct (includes (units "b=AS:") (add_bitrate_lines sdp)) eqn:Ho.
    + now apply raise_after_add.
    + rewrite (add_without_bitrate _ Ho). now apply add_without_bitrate.
Qed.

Lemma match_at_video_line (pre body post : list N) :
  body <> [] -> forallb (fun c => negb (is_line_terminator c)) body = true ->
  exists n, match_video_line
              (skipn (List.length pre)
                 (pre ++ units "m=video " ++ body ++ CRLF ++ post)) = Some n.
Proof.
  intros Hne Hall. rewrite skipn_length_app. unfold match_video_line.
  change (starts_with (units "m=video ") (units "m=video " ++ body ++ CRLF ++ post))
    with true.
  change (skipn 8 (units "m=video " ++ body ++ CRLF ++ post))
    with (body ++ CRLF ++ post).
  assert (Hrun : run_length (fun c => negb (is_line_terminator c)) (body ++ CRLF ++ post) =
                 List.length body).
  { clear Hne. induction body as [|c body IH]; [reflexivity|]. cbn in *.
    apply andb_prop in Hall. destruct Hall as [H1 H2]. now rewrite H1, IH. }
  rewrite Hrun. destruct body as [|c body]; [congruence|]. cbn [List.length].
  rewrite skipn_add.
  change (skipn 8 (units "m=video " ++ (c :: body) ++ CRLF ++ post))
    with ((c :: body) ++ CRLF ++ post).
  change (S (List.length body)) with (List.length (c :: body)).
  rewrite skipn_length_app.
  change (starts_with CRLF (CRLF ++ post)) with true. cbv beta iota. eauto.
Qed.

Lemma add_at_match (s : list N) (j n : nat) :
  match_video_line (skipn j s) = Some n ->
  includes (units "b=AS:50000" ++ CRLF) (add_bitrate_lines s) = true.
Proof.
  revert j. induction s as [|c s IH]; intros j H.
  - rewrite skipn_nil in H. discriminate H.
  - destruct (match_video_line (c :: s)) as [m|] eqn:E.
    + rewrite (add_some _ m E).
      apply (starts_with_includes _ _ (List.length (firstn m (c :: s)))).
      rewrite skipn_length_app. rewrite app_assoc. apply starts_with_app.
      reflexivity.
    + rewrite (add_none _ _ E). destruct j as [|j]; [cbn [skipn] in H; congruence|].
      cbn [skipn] in H. cbn [includes]. rewrite (IH j H). apply orb_true_r.
Qed.

Lemma video_line_at_match (s : list N) (n : nat) :
  match_video_line s = Some n -> has_video_line s.
Proof.
  intros H. destruct (match_video_line_some s n H) as (k & Hn & Hf & Hl & Hp & Hk).
  exists [], (firstn (S k) (skipn 8 s)), (skipn n s). split; [|split].
  - rewrite <- (firstn_skipn n s) at 1. rewrite Hf, (firstn_add 8 (S k)), Hp.
    cbn [app]. now rewrite <- !app_assoc.
  - pose proof (run_length_le (fun c => negb (is_line_terminator c)) (skipn 8 s)) as Hle.
    rewrite Hk in Hle. destruct (skipn 8 s); [cbn in Hle; lia|discriminate].
  - rewrite <- Hk. apply run_firstn.
Qed.

Lemma has_video_line_cons (c : N) (s : list N) :
  has_video_line s -> has_video_line (c :: s).
Proof.
  intros (pre & body & post & -> & H1 & H2). exists (c :: pre), body, post. auto.
Qed.

Lemma add_changes (s : list N) :
  add_bitrate_lines s <> s -> has_video_line s.
Proof.
  induction s as [|c s IH]; intros H; [now destruct H|].
  destruct (match_video_line (c :: s)) as [n|] eqn:E.
  - exact (video_line_at_match _ n E).
  - rewrite (add_none _ _ E) in H. apply has_video_line_cons, IH. congruence.
Qed.

Lemma firstn_length_app (a x : list N) : firstn (List.length a) (a ++ x) = a.
Proof. induction a as [|c a IH]; [reflexivity|]. cbn. now rewrite IH. Qed.

Lemma match_video_line_exact (body rest : list N) :
  body <> [] -> forallb (fun c => negb (is_line_terminator c)) body = true ->
  match_video_line (units "m=video " ++ body ++ CRLF ++ rest) =
  Some (List.length (units "m=video " ++ body ++ CRLF)).
Proof.
  intros Hne Hall.
  destruct (match_at_video_line [] body rest Hne Hall) as [n Hn].
  cbn [List.length skipn app] in Hn. rewrite Hn. f_equal.
  destruct (match_video_line_some _ n Hn) as (k & -> & _ & _ & _ & Hk).
  change (skipn 8 (units "m=video " ++ body ++ CRLF ++ rest))
    with (body ++ CRLF ++ rest) in Hk.
  assert (Hrun : run_length (fun c => negb (is_line_terminator c)) (body ++ CRLF ++ rest) =
                 List.length body).
  { clear Hne Hk Hn. induction body as [|c body IH]; [reflexivity|]. cbn in *.
    apply andb_prop in Hall. destruct Hall as [H1 H2]. now rewrite H1, IH. }
  rewrite !length_app. change (List.length (units "m=video ")) with 8.
  change (List.length CRLF) with 2. lia.
Qed.

Lemma match_video_line_shape (s : list N) (n : nat) :
  match_video_line s = Some n ->
  exists body, video_line_at s body (skipn n s) /\
               firstn n s = units "m=video " ++ body ++ CRLF.
Proof.
  intros H. destruct (match_video_line_some s n H) as (k & Hn & Hf & Hl & Hp & Hk).
  exists (firstn (S k) (skipn 8 s)).
  assert (E : firstn n s = units "m=video " ++ firstn (S k) (skipn 8 s) ++ CRLF).
  { rewrite Hf, (firstn_add 8 (S k)), Hp. now rewrite <- app_assoc. }
  split; [|exact E]. split; [|split].
  - rewrite <- (firstn_skipn n s) at 1. rewrite E. now rewrite <- !app_assoc.
  - pose proof (run_length_le (fun c => negb (is_line_terminator c)) (skipn 8 s)) as Hle.
    rewrite Hk in Hle. destruct (skipn 8 s); [cbn in Hle; lia|discriminate].
  - rewrite <- Hk. apply run_firstn.
Qed.

Lemma add_bitrate_lines_added (s : list N) : bitrate_lines_added s (add_bitrate_lines s).
Proof.
  remember (List.length s) as len eqn:Hlen. revert s Hlen.
  induction len as [len IH] using lt_wf_ind. intros s Hlen.
  destruct s as [|c s]; [constructor|].
  destruct (match_video_line (c :: s)) as [n|] eqn:E.
  - rewrite (add_some _ n E).
    destruct (match_video_line_shape _ n E) as (body & Hat & Hf). rewrite Hf.
    rewrite <- !app_assoc. apply (added_line _ body (skipn n (c :: s))); [exact Hat|].
    destruct (match_video_line_some _ n E) as (k & -> & _).
    apply (IH (List.length (skipn (8 + S k + 2) (c :: s)))); [|reflexivity].
    rewrite Hlen, length_skipn. cbn [List.length]. lia.
  - rewrite (add_none _ _ E). apply added_unit.
    + intros body rest (Hs & Hne & Hall).
      rewrite Hs, (match_video_line_exact body rest Hne Hall) in E. discriminate E.
    + apply (IH (List.length s)); [rewrite Hlen; cbn; lia|reflexivity].
Qed.

Lemma bitrate_lines_added_unique (s t : list N) :
  bitrate_lines_added s t -> t = add_bitrate_lines s.
Proof.
  induction 1 as [|s body rest t (Hs & Hne & Hall) _ IH|c s t Hno _ IH].
  - reflexivity.
  - subst s t.
    rewrite (add_some _ _ (match_video_line_exact body rest Hne Hall)).
    replace (units "m=video " ++ body ++ CRLF ++ rest)
      with ((units "m=video " ++ body ++ CRLF) ++ rest) by (now rewrite <- !app_assoc).
    rewrite firstn_length_app, skipn_length_app. now rewrite <- !app_assoc.
  - destruct (match_video_line (c :: s)) as [n|] eqn:E.
    + destruct (match_video_line_shape _ n E) as (body & Hat & _).
      destruct (Hno _ _ Hat).
    + rewrite (add_none _ _ E). now f_equal.
Qed.

(** X21. A session description without any [b=AS:] comes back with the
    line [b=AS:50000] put directly after every video media line ([m=video ],
    some text, CR LF) and with every other unit where it was; no other
    string is the description with the lines added. So the line is there
    when the description has a video media line, and the description is
    returned as it is when it has none: in particular when its lines end
    in a bare LF. *)
Theorem sdp_video_line_gets_bitrate (sdp : list N) :
  includes (units "b=AS:") sdp = false ->
  bitrate_lines_added sdp (sdpTransform sdp) /\
  (forall t, bitrate_lines_added sdp t -> t = sdpTransform sdp) /\
  (has_video_line sdp ->
   includes (units "b=AS:50000" ++ CRLF) (sdpTransform sdp) = true) /\
  (~ has_video_line sdp -> sdpTransform sdp = sdp) /\
  (includes (units "m=video ") sdp = false \/ includes CRLF sdp = false ->
   sdpTransform sdp = sdp).
Proof.
  intros Hb.
  split; [|split; [|split; [|split; [|now apply sdp_unchanged]]]];
    unfold sdpTransform; rewrite Hb.
  - apply add_bitrate_lines_added.
  - apply bitrate_lines_added_unique.
  - intros (pre & body & post & -> & Hne & Hall).
    destruct (match_at_video_line pre body post Hne Hall) as [n Hn].
    exact (add_at_match _ _ n Hn).
  - intros Hno.
    destruct (list_eq_dec N.eq_dec (add_bitrate_lines sdp) sdp) as [E|E]; [exact E|].
    destruct (Hno (add_changes sdp E)).
Qed.

(** X22. A session description that holds [b=AS:] anywhere has only
    digits changed: every unit that is not a digit stays in place, so no
    line is added, not even to a video section that has no bandwidth line
    of its own, and a [b=AS:] is still there. *)
Theorem sdp_with_bitrate_changes_digits_only (sdp : list N) :
  includes (units "b=AS:") sdp = true ->
  filter not_digit (sdpTransform sdp) = filter not_digit sdp /\
  includes (units "b=AS:") (sdpTransform sdp) = true.
Proof.
  intros Hb. unfold sdpTransform. rewrite Hb. split.
  - apply bitrate_digits_only.
  - now apply raise_bitrates_includes.
Qed.

(** [sdp_plain] gets its line after the video media line, and only there. *)
Lemma sdp_video_line_gets_bitrate_witness :
  units "v=0" ++ CRLF ++ units "m=video 9 UDP/TLS/RTP/SAVPF 96" ++ CRLF ++
  units "b=AS:50000" ++ CRLF ++ units "a=mid:0" ++ CRLF = sdpTransform sdp_plain /\
  includes (units "b=AS:50000" ++ CRLF) (sdpTransform sdp_plain) = true.
Proof.
  destruct (sdp_video_line_gets_bitrate sdp_plain) as (_ & H1 & H2 & _);
    [vm_compute; reflexivity|].
  split.
  - apply H1. unfold sdp_plain.
    do 5 (apply added_unit; [intros b r (E & _); discriminate E|]).
    apply (added_line _ (units "9 UDP/TLS/RTP/SAVPF 96") (units "a=mid:0" ++ CRLF)).
    + split; [reflexivity|]. split; [discriminate|reflexivity].
    + do 9 (apply added_unit; [intros b r (E & _); discriminate E|]).
      apply added_end.
  - apply H2.
    exists (units "v=0" ++ CRLF), (units "9 UDP/TLS/RTP/SAVPF 96"),
           (units "a=mid:0" ++ CRLF).
    split; [reflexivity|]. split; [discriminate|reflexivity].
Defined.

Lemma sdp_with_bitrate_changes_digits_only_witness :
  filter not_digit (sdpTransform sdp_audio_capped) = filter not_digit sdp_audio_capped.
Proof.
  apply (sdp_with_bitrate_changes_digits_only sdp_audio_capped).
  vm_compute; reflexivity.
Defined.
